(** * force-graph: a shallow embedding of [src/components/force-graph.js]

    The component glues a force-directed layout engine (three-forcegraph on
    top of d3-force-3d) into an A-Frame scene.  This development embeds the
    component's own methods -- the accessor parsers, [scaleToFit], [init],
    [makeHTMLText], [update], [clicked], the drag hooks and [tick] -- as
    executable functions over an explicit object state, and states the
    behaviour of the specification against them.

    JavaScript numbers are IEEE-754 binary64 values; they are modelled by
    Rocq's primitive floats, so every arithmetic expression of the source
    evaluates here bit for bit. *)

From Stdlib Require Import Floats ZArith Ascii String List Bool Lia.
From stdpp Require Import base option gmap strings list pretty.
Import ListNotations.

Set Warnings "-inexact-float".
Local Open Scope float_scope.
Local Open Scope string_scope.

(* ===================================================================== *)
(** * JavaScript numbers                                                  *)
(* ===================================================================== *)

(** [isNaN] on a number: NaN is the only value different from itself. *)
Definition isNaN (v : float) : bool := negb (v =? v)%float.

(** [a !== b] on two numbers ([-0 === 0], [NaN !== NaN]).  On two numbers
    the loose [!=] coincides with it. *)
Definition strictNe (a b : float) : bool := negb (a =? b)%float.

Definition isNegZero (v : float) : bool :=
  match classify v with NZero => true | _ => false end.

Module Math.

(** [Math.max(a, b)]: NaN if either argument is NaN, and [+0] is larger
    than [-0]. *)
Definition max (a b : float) : float :=
  if isNaN a || isNaN b then nan
  else if (a <? b)%float then b
  else if (b <? a)%float then a
  else if isNegZero a then b else a.

(** [Math.min(a, b)]: NaN if either argument is NaN, and [-0] is smaller
    than [+0]. *)
Definition min (a b : float) : float :=
  if isNaN a || isNaN b then nan
  else if (a <? b)%float then a
  else if (b <? a)%float then b
  else if isNegZero a then a else b.

Definition abs (a : float) : float := PrimFloat.abs a.

End Math.

(* ===================================================================== *)
(** * JavaScript values and the host's builtins                           *)
(* ===================================================================== *)

(** The values a configuration attribute can hold or evaluate to.  A
    string is the UTF-8 encoding of the JavaScript string.  A function or
    an object is named by a label (for a function, its source text); what
    converting it to a string yields is up to the host, see below. *)
Inductive JsVal : Type :=
| VUndefined
| VNull
| VBool (b : bool)
| VNumber (n : float)
| VBigInt (n : Z)
| VString (s : string)
| VSymbol (description : string)
| VFunction (src : string)
| VObject (label : string).

(** [typeof v === 'function']. *)
Definition isFunction (v : JsVal) : bool :=
  match v with VFunction _ => true | _ => false end.

(** [ToBoolean]: the test an [if (v)] or [v && ...] performs. *)
Definition truthy (v : JsVal) : bool :=
  match v with
  | VUndefined | VNull => false
  | VBool b => b
  | VNumber n => negb ((n =? 0)%float || isNaN n)
  | VBigInt n => negb (n =? 0)%Z
  | VString s => negb (s =? "")%string
  | VSymbol _ | VFunction _ | VObject _ => true
  end.

(** ** [parseFloat] on strings

    [parseFloat] skips leading white space, reads the longest prefix that
    is a [StrDecimalLiteral] and rounds its value to the nearest binary64
    (ties to even); without such a prefix the result is NaN.  White
    space is every [WhiteSpace] and [LineTerminator] code point of the
    language: the ASCII controls TAB, LF, VT, FF, CR and the space, and
    U+00A0, U+1680, U+2000 to U+200A, U+2028, U+2029, U+202F, U+205F,
    U+3000 and U+FEFF, read here in their UTF-8 encodings of two and
    three bytes. *)
Module ParseFloat.

(** TAB, LF, VT, FF, CR and the space. *)
Definition isWhiteSpace (c : ascii) : bool :=
  let n := N_of_ascii c in
  ((9 <=? n) && (n <=? 13) || (n =? 32))%N.

(** U+00A0, encoded as C2 A0. *)
Definition isWhiteSpace2 (c1 c2 : ascii) : bool :=
  ((N_of_ascii c1 =? 194) && (N_of_ascii c2 =? 160))%N.

(** The white space of three bytes: U+1680 (E1 9A 80), U+2000 to U+200A
    (E2 80 80 to E2 80 8A), U+2028 and U+2029 (E2 80 A8, E2 80 A9),
    U+202F (E2 80 AF), U+205F (E2 81 9F), U+3000 (E3 80 80) and U+FEFF
    (EF BB BF). *)
Definition isWhiteSpace3 (c1 c2 c3 : ascii) : bool :=
  let n1 := N_of_ascii c1 in
  let n2 := N_of_ascii c2 in
  let n3 := N_of_ascii c3 in
  ((n1 =? 225) && (n2 =? 154) && (n3 =? 128)
   || (n1 =? 226) && (n2 =? 128)
      && ((128 <=? n3) && (n3 <=? 138)
          || (n3 =? 168) || (n3 =? 169) || (n3 =? 175))
   || (n1 =? 226) && (n2 =? 129) && (n3 =? 159)
   || (n1 =? 227) && (n2 =? 128) && (n3 =? 128)
   || (n1 =? 239) && (n2 =? 187) && (n3 =? 191))%N.

Definition digitValue (c : ascii) : option Z :=
  let n := N_of_ascii c in
  if ((48 <=? n) && (n <=? 57))%N then Some (Z.of_N n - 48)%Z else None.

Fixpoint skipWhiteSpace (s : string) : string :=
  match s with
  | String c1 r1 =>
      if isWhiteSpace c1 then skipWhiteSpace r1
      else
        match r1 with
        | String c2 r2 =>
            if isWhiteSpace2 c1 c2 then skipWhiteSpace r2
            else
              match r2 with
              | String c3 r3 =>
                  if isWhiteSpace3 c1 c2 c3 then skipWhiteSpace r3 else s
              | EmptyString => s
              end
        | EmptyString => s
        end
  | EmptyString => s
  end.

(** The leading decimal digits of [s] and what follows them. *)
Fixpoint takeDigits (s : string) : list Z * string :=
  match s with
  | String c r =>
      match digitValue c with
      | Some d => let '(ds, rest) := takeDigits r in (d :: ds, rest)
      | None => ([], s)
      end
  | EmptyString => ([], s)
  end.

Definition digitsValue (ds : list Z) : Z :=
  fold_left (fun acc d => (10 * acc + d)%Z) ds 0%Z.

(** An optional sign: [true] for a leading minus. *)
Definition takeSign (s : string) : bool * string :=
  match s with
  | String "-" r => (true, r)
  | String "+" r => (false, r)
  | _ => (false, s)
  end.

(** The [ExponentPart], which counts only when it is complete. *)
Definition takeExponent (s : string) : Z :=
  match s with
  | String c r =>
      if (c =? "e")%char || (c =? "E")%char then
        let '(neg, r') := takeSign r in
        match takeDigits r' with
        | ([], _) => 0%Z
        | (ds, _) => if neg then (- digitsValue ds)%Z else digitsValue ds
        end
      else 0%Z
  | EmptyString => 0%Z
  end.

(** The unsigned decimal literal at the head of [s], as a mantissa and
    a power of ten. *)
Definition takeDecimal (s : string) : option (Z * Z) :=
  let '(ip, r1) := takeDigits s in
  match ip, r1 with
  | [], String "." r =>
      match takeDigits r with
      | ([], _) => None
      | (fp, r2) =>
          Some (digitsValue fp, (takeExponent r2 - Z.of_nat (length fp))%Z)
      end
  | [], _ => None
  | _ :: _, String "." r =>
      let '(fp, r2) := takeDigits r in
      Some (digitsValue (ip ++ fp),
            (takeExponent r2 - Z.of_nat (length fp))%Z)
  | _ :: _, _ => Some (digitsValue ip, takeExponent r1)
  end.

(** [m * 10^e] rounded to the nearest binary64, for [m > 0]. *)
Definition roundDecimal (neg : bool) (m : positive) (e : Z) : float :=
  match e with
  | Zneg k =>
      let d := (10 ^ Zpos k)%Z in
      let s := Z.max 0 (56 + Z.log2_up d - Z.log2 (Zpos m))%Z in
      let n := Z.shiftl (Zpos m) s in
      let q := (n / d)%Z in
      let r := (n mod d)%Z in
      let loc :=
        if (r =? 0)%Z then SpecFloat.loc_Exact
        else SpecFloat.loc_Inexact (Z.compare (2 * r) d) in
      SF2Prim (SpecFloat.binary_round_aux prec emax neg q (- s)%Z loc)
  | _ =>
      match (Zpos m * 10 ^ e)%Z with
      | Zpos p => SF2Prim (SpecFloat.binary_round prec emax neg p 0%Z)
      | _ => nan
      end
  end.

Definition parseFloat (input : string) : float :=
  let '(neg, body) := takeSign (skipWhiteSpace input) in
  if String.prefix "Infinity" body then
    if neg then neg_infinity else infinity
  else
    match takeDecimal body with
    | None => nan
    | Some (Z0, _) => if neg then (-0)%float else 0%float
    | Some (Zpos m, e) => roundDecimal neg m e
    | Some (Zneg _, _) => nan
    end.

End ParseFloat.

(** ** Completions: a call returns normally or throws *)

Inductive JsError : Type :=
| TypeError (msg : string)
| SyntaxError (msg : string)
| ReferenceError (msg : string)
| Thrown (v : JsVal).

Inductive Completion (A : Type) : Type :=
| Normal (a : A)
| Abrupt (e : JsError).
Arguments Normal {A} a.
Arguments Abrupt {A} e.

(** ** The host

    Evaluating a program text and converting a function or an object to
    a string run code the parsers know nothing about: such a call may
    throw, and it may change the world, so that the same call answers
    differently the next time.  A host call is therefore a step on a
    world [W] that ends in a completion.  Host calls are taken to
    return. *)
Definition Host (W A : Type) : Type := W -> Completion A * W.

#[global] Instance Host_ret (W : Type) : MRet (Host W) :=
  fun A a w => (Normal a, w).

#[global] Instance Host_bind (W : Type) : MBind (Host W) := fun A B k m w =>
  match m w with
  | (Normal a, w') => k a w'
  | (Abrupt e, w') => (Abrupt e, w')
  end.

Definition raise {W A : Type} (e : JsError) : Host W A :=
  fun w => (Abrupt e, w).

(** [try { body } catch (e) { handler }]: what [body] did to the world
    before it threw stays done. *)
Definition tryCatch {W A : Type} (body : Host W A)
    (handler : JsError -> Host W A) : Host W A := fun w =>
  match body w with
  | (Normal a, w') => (Normal a, w')
  | (Abrupt e, w') => handler e w'
  end.

(** The two conversions of an object to a primitive: [ToString], which
    [parseFloat] applies and which asks [toString] before [valueOf], and
    the one of the [+] operator, which asks [valueOf] first. *)
Inductive ConversionHint : Type := HintString | HintDefault.

(** The text of a primitive value other than a symbol. *)
Definition primitiveText (numberToString : float -> string) (v : JsVal)
  : option string :=
  match v with
  | VUndefined => Some "undefined"
  | VNull => Some "null"
  | VBool true => Some "true"
  | VBool false => Some "false"
  | VNumber n => Some (numberToString n)
  | VBigInt n => Some (pretty n)
  | VString s => Some s
  | VSymbol _ | VFunction _ | VObject _ => None
  end.

(* ===================================================================== *)
(** * The accessor parsers                                                *)
(* ===================================================================== *)

Section Accessors.

(** The builtins the parsers call that have no executable model here:
    the global [eval], the conversion of a function or an object to a
    string under a hint, and the number-to-string conversion used when a
    number is concatenated into a program text. *)
Variable W : Type.
Variable geval : string -> Host W JsVal.
Variable convert : ConversionHint -> JsVal -> Host W string.
Variable numberToString : float -> string.

(** The string a value is converted to, by [parseFloat] ([HintString])
    or by [+] ([HintDefault]): a symbol refuses, a function or an object
    runs its own conversion. *)
Definition toString (hint : ConversionHint) (v : JsVal) : Host W string :=
  match primitiveText numberToString v with
  | Some s => mret s
  | None =>
      match v with
      | VSymbol _ =>
          raise (TypeError "Cannot convert a Symbol value to a string")
      | _ => convert hint v
      end
  end.

(** [parseFloat(v)].  For a number the conversion to a string and back
    returns the number itself, except that [-0] prints as ["0"]. *)
Definition parseFloat (v : JsVal) : Host W float :=
  match v with
  | VNumber n => mret (if isNegZero n then 0%float else n)
  | _ => s ← toString HintString v; mret (ParseFloat.parseFloat s)
  end.

(** [parseFn]: a function is returned as it is; anything else is
    wrapped in parentheses and evaluated, and whatever fails inside the
    [try] -- the concatenation or the evaluation -- yields [null]. *)
Definition parseFn (prop : JsVal) : Host W JsVal :=
  if isFunction prop then mret prop
  else
    tryCatch (s ← toString HintDefault prop; geval ("(" ++ s ++ ")"))
             (fun _ => mret VNull).

(** [parseAccessor]: numbers first, then functions, then the value as
    it came.  Each test calls its parser, and a test that succeeds calls
    it a second time for the result. *)
Definition parseAccessor (prop : JsVal) : Host W JsVal :=
  n ← parseFloat prop;
  if negb (isNaN n) then n' ← parseFloat prop; mret (VNumber n')
  else
    f ← parseFn prop;
    if truthy f then parseFn prop else mret prop.

End Accessors.

(** An evaluator given by a finite table of program texts and their
    completions; every other text fails to parse.  It stands for [eval]
    on the programs an example runs, none of which changes the world. *)
Definition gevalTable {W : Type} (tbl : list (string * Completion JsVal))
    (program : string) : Host W JsVal := fun w =>
  (match List.find (fun e => (fst e =? program)%string) tbl with
   | Some e => snd e
   | None => Abrupt (SyntaxError program)
   end, w).

(** Functions and objects that keep the conversions they are born with:
    a function converts to its source text, an object to its label. *)
Definition labelConvert {W : Type} (hint : ConversionHint) (v : JsVal)
  : Host W string := fun w =>
  (Normal match v with
          | VFunction src => src
          | VObject label => label
          | _ => ""
          end, w).

(* ===================================================================== *)
(** * Scene objects                                                       *)
(* ===================================================================== *)

Module Vector3.
Record t : Type := mk { x : float; y : float; z : float }.

(** [v.set(a, b, c)]. *)
Definition set (a b c : float) : t := mk a b c.
End Vector3.

Definition almostEqualVec3 (u v : Vector3.t) (epsilon : float) : bool :=
  ((Math.abs (Vector3.x u - Vector3.x v) <? epsilon)
   && (Math.abs (Vector3.y u - Vector3.y v) <? epsilon)
   && (Math.abs (Vector3.z u - Vector3.z v) <? epsilon))%float.

(** Quaternions with the two operations [tick] chains, as three.js
    computes them: [invert] conjugates, [multiply] is the Hamilton
    product. *)
Module Quaternion.
Record t : Type := mk { x : float; y : float; z : float; w : float }.

Definition identity : t := mk 0 0 0 1.

Definition invert (q : t) : t :=
  mk (x q * -1) (y q * -1) (z q * -1) (w q).

Definition multiply (a b : t) : t :=
  mk (x a * w b + w a * x b + y a * z b - z a * y b)
     (y a * w b + w a * y b + z a * x b - x a * z b)
     (z a * w b + w a * z b + x a * y b - y a * x b)
     (w a * w b - x a * x b - y a * y b - z a * z b).
End Quaternion.

(** The answer of [getGraphBbox()]: a [min, max] pair per axis. *)
Module Bbox.
Record t : Type :=
  mk { x : float * float; y : float * float; z : float * float }.
End Bbox.

(** The component's configuration, [this.data], with the fields of the
    schema. *)
Module Data.
Record t : Type := mk {
  name : string;
  isNetworked : bool;
  isInteractive : bool;
  isDraggable : bool;
  height : float;
  width : float;
  vueApp : string;
  textSize : float;
  jsonUrl : string;
  chargeForce : float;
  xForce : float;
  yForce : float;
  zForce : float;
  nodeId : string;
  nodeVal : JsVal;
  nodeColor : JsVal;
  nodeAutoColorBy : JsVal;
  nodeOpacity : float;
  linkSource : string;
  linkTarget : string;
  linkVisibility : bool;
  linkColor : JsVal;
  linkAutoColorBy : JsVal;
  linkOpacity : float;
  linkWidth : JsVal
}.

(** The defaults of the schema. *)
Definition default : t := {|
  name := ""; isNetworked := false; isInteractive := true;
  isDraggable := true; height := 1; width := 1; vueApp := "GraphLabel";
  textSize := 2; jsonUrl := ""; chargeForce := 0; xForce := 0;
  yForce := 0; zForce := 0; nodeId := "id"; nodeVal := VString "val";
  nodeColor := VString "color"; nodeAutoColorBy := VString "";
  nodeOpacity := 0.75; linkSource := "source"; linkTarget := "target";
  linkVisibility := true; linkColor := VString "color";
  linkAutoColorBy := VString ""; linkOpacity := 0.2;
  linkWidth := VNumber 0 |}.

(** [elData[p]] for the property names [update] forwards. *)
Definition get (p : string) (d : t) : JsVal :=
  if (p =? "jsonUrl")%string then VString (jsonUrl d)
  else if (p =? "nodeId")%string then VString (nodeId d)
  else if (p =? "nodeVal")%string then nodeVal d
  else if (p =? "nodeColor")%string then nodeColor d
  else if (p =? "nodeAutoColorBy")%string then nodeAutoColorBy d
  else if (p =? "nodeOpacity")%string then VNumber (nodeOpacity d)
  else if (p =? "linkSource")%string then VString (linkSource d)
  else if (p =? "linkTarget")%string then VString (linkTarget d)
  else if (p =? "linkVisibility")%string then VBool (linkVisibility d)
  else if (p =? "linkColor")%string then linkColor d
  else if (p =? "linkAutoColorBy")%string then linkAutoColorBy d
  else if (p =? "linkOpacity")%string then VNumber (linkOpacity d)
  else if (p =? "linkWidth")%string then linkWidth d
  else VUndefined.

Definition set_jsonUrl (v : string) (d : t) : t :=
  mk (name d) (isNetworked d) (isInteractive d) (isDraggable d)
     (height d) (width d) (vueApp d) (textSize d) v (chargeForce d)
     (xForce d) (yForce d) (zForce d) (nodeId d) (nodeVal d)
     (nodeColor d) (nodeAutoColorBy d) (nodeOpacity d) (linkSource d)
     (linkTarget d) (linkVisibility d) (linkColor d) (linkAutoColorBy d)
     (linkOpacity d) (linkWidth d).
End Data.

(** ** Nodes and their visuals *)

(** The placeholder box of a node; only its spin is animated. *)
Record Mesh : Type := mkMesh {
  meshId : nat;
  meshColor : JsVal;
  meshOpacity : float;
  rotationZ : float
}.

(** The rich label of a node, built asynchronously by the vue app. *)
Record HtmlGenerator : Type := mkHtmlGenerator {
  genId : nat;
  genText : JsVal;
  genColor : JsVal;
  genSize : float;
  contentOpacity : option float
}.

Module Node.
Record t : Type := mk {
  name : JsVal;
  color : JsVal;
  __threeObj : option nat;
  _box : option Mesh;
  htmlGenerator : option HtmlGenerator
}.

Definition set___threeObj (v : option nat) (n : t) : t :=
  mk (name n) (color n) v (_box n) (htmlGenerator n).
Definition set__box (v : option Mesh) (n : t) : t :=
  mk (name n) (color n) (__threeObj n) v (htmlGenerator n).
Definition set_htmlGenerator (v : option HtmlGenerator) (n : t) : t :=
  mk (name n) (color n) (__threeObj n) (_box n) v.
End Node.

Inductive Child : Type :=
| BoxChild (id : nat)
| WebLayerChild (id : nat).

Definition Child_eqb (a b : Child) : bool :=
  match a, b with
  | BoxChild i, BoxChild j | WebLayerChild i, WebLayerChild j => Nat.eqb i j
  | _, _ => false
  end.

(** The container [makeHTMLText] returns for a node.  [add] appends a
    child.  That three.js first detaches the child from a parent it
    already has is left out: a box is added once, where it is created,
    and a label could move only for a node whose visuals are built again
    before its first label is ready. *)
Module Object3D.
Record t : Type := mk {
  children : list Child;
  scale : Vector3.t;
  quaternion : Quaternion.t
}.

Definition add (c : Child) (o : t) : t :=
  mk (children o ++ [c]) (scale o) (quaternion o).
Definition remove (c : Child) (o : t) : t :=
  mk (List.filter (fun c' => negb (Child_eqb c c')) (children o))
     (scale o) (quaternion o).
Definition set_scale (v : Vector3.t) (o : t) : t :=
  mk (children o) v (quaternion o).
Definition set_quaternion (q : Quaternion.t) (o : t) : t :=
  mk (children o) (scale o) q.
End Object3D.

(* ===================================================================== *)
(** * The layout engine, as the component sees it                         *)
(* ===================================================================== *)

(** A force of the simulation and its strength.  [strength(v)] replaces
    the strength and nothing else. *)
Inductive ForceKind : Type :=
| Link | ManyBody | Center | PositionX | PositionY | PositionZ.

Record Force : Type := mkForce { kind : ForceKind; strength : float }.

Definition setStrength (v : float) (f : Force) : Force := mkForce (kind f) v.

(** [d3ForceX()], [d3ForceY()], [d3ForceZ()]: positioning forces towards
    the origin, created with the library's default strength. *)
Definition d3ForceX : Force := mkForce PositionX 0.1.
Definition d3ForceY : Force := mkForce PositionY 0.1.
Definition d3ForceZ : Force := mkForce PositionZ 0.1.

(** The [ThreeForceGraph] object: the part of its state the component
    reads or writes.  [forces] is the registry behind [d3Force(name)],
    each force by its kind and its strength; [props] records
    the values handed to the property setters; the three hook flags say
    whether the component's callback is installed; [graphBbox] is what
    [getGraphBbox()] answers; [nodes] is [graphData().nodes] and
    [objects] the store of the containers built for them. *)
Module ThreeForceGraph.
Record t : Type := mk {
  scale : Vector3.t;
  forces : gmap string Force;
  props : gmap string JsVal;
  nodeThreeObject : bool;
  engineRunning : bool;
  finishUpdateHook : bool;
  engineStopHook : bool;
  engineTickHook : bool;
  graphBbox : option Bbox.t;
  nodes : list Node.t;
  objects : gmap nat Object3D.t
}.

Definition set_scale (v : Vector3.t) (g : t) : t :=
  mk v (forces g) (props g) (nodeThreeObject g) (engineRunning g)
     (finishUpdateHook g) (engineStopHook g) (engineTickHook g)
     (graphBbox g) (nodes g) (objects g).
Definition set_forces (v : gmap string Force) (g : t) : t :=
  mk (scale g) v (props g) (nodeThreeObject g) (engineRunning g)
     (finishUpdateHook g) (engineStopHook g) (engineTickHook g)
     (graphBbox g) (nodes g) (objects g).
Definition set_props (v : gmap string JsVal) (g : t) : t :=
  mk (scale g) (forces g) v (nodeThreeObject g) (engineRunning g)
     (finishUpdateHook g) (engineStopHook g) (engineTickHook g)
     (graphBbox g) (nodes g) (objects g).
Definition set_nodeThreeObject (v : bool) (g : t) : t :=
  mk (scale g) (forces g) (props g) v (engineRunning g)
     (finishUpdateHook g) (engineStopHook g) (engineTickHook g)
     (graphBbox g) (nodes g) (objects g).
Definition set_engineRunning (v : bool) (g : t) : t :=
  mk (scale g) (forces g) (props g) (nodeThreeObject g) v
     (finishUpdateHook g) (engineStopHook g) (engineTickHook g)
     (graphBbox g) (nodes g) (objects g).
Definition set_finishUpdateHook (v : bool) (g : t) : t :=
  mk (scale g) (forces g) (props g) (nodeThreeObject g) (engineRunning g)
     v (engineStopHook g) (engineTickHook g)
     (graphBbox g) (nodes g) (objects g).
Definition set_engineStopHook (v : bool) (g : t) : t :=
  mk (scale g) (forces g) (props g) (nodeThreeObject g) (engineRunning g)
     (finishUpdateHook g) v (engineTickHook g)
     (graphBbox g) (nodes g) (objects g).
Definition set_engineTickHook (v : bool) (g : t) : t :=
  mk (scale g) (forces g) (props g) (nodeThreeObject g) (engineRunning g)
     (finishUpdateHook g) (engineStopHook g) v
     (graphBbox g) (nodes g) (objects g).
Definition set_graphBbox (v : option Bbox.t) (g : t) : t :=
  mk (scale g) (forces g) (props g) (nodeThreeObject g) (engineRunning g)
     (finishUpdateHook g) (engineStopHook g) (engineTickHook g)
     v (nodes g) (objects g).
Definition set_nodes (v : list Node.t) (g : t) : t :=
  mk (scale g) (forces g) (props g) (nodeThreeObject g) (engineRunning g)
     (finishUpdateHook g) (engineStopHook g) (engineTickHook g)
     (graphBbox g) v (objects g).
Definition set_objects (v : gmap nat Object3D.t) (g : t) : t :=
  mk (scale g) (forces g) (props g) (nodeThreeObject g) (engineRunning g)
     (finishUpdateHook g) (engineStopHook g) (engineTickHook g)
     (graphBbox g) (nodes g) v.

(** [new ThreeForceGraph()]: unit scale, the library's own forces (the
    springs along the links, the charge and the centering force) at the
    strengths the library gives them, no callbacks, no graph yet, engine
    idle.  The strength of the link force is not a number but a function
    of the link; it is recorded as NaN until [strength(v)] replaces it. *)
Definition new : t := {|
  scale := Vector3.mk 1 1 1;
  forces := {[ "link" := mkForce Link nan;
               "charge" := mkForce ManyBody (-60);
               "center" := mkForce Center 1 ]};
  props := ∅;
  nodeThreeObject := false;
  engineRunning := false;
  finishUpdateHook := false;
  engineStopHook := false;
  engineTickHook := false;
  graphBbox := None;
  nodes := [];
  objects := ∅ |}.
End ThreeForceGraph.

(** Modelled from the spec: the per-axis centering force of the engine
    (the engine is the three-forcegraph/d3-force-3d dependency, which is
    not part of this repository).  It pulls a node towards the axis
    origin with the configured strength: one step adds
    [(0 - position) * strength * alpha] to the node's velocity along the
    axis, [alpha] being the simulation's current temperature. *)
Definition axisImpulse (f : Force) (alpha position : float) : float :=
  (0 - position) * strength f * alpha.

(* ===================================================================== *)
(** * The component object                                                *)
(* ===================================================================== *)

(** The state-sync object of a networked component. *)
Record StateSync : Type := mkStateSync { changed : bool }.

(** An interaction event of the host and a ray hit. *)
Record ClickEvent : Type := mkClickEvent { object3D : nat; target : nat }.
Record RayIntersection : Type :=
  mkRayIntersection { object : nat; distance : float }.

(** [this]: the fields the methods below read or write.
    [isDragging] is [this.handleInteraction.isDragging];
    [forcegraphGroup] says whether the container holds the graph under
    that name; [pending] lists the [waitForReady] continuations not yet
    run, each with the node it closes over and the container it fills;
    [nextId] numbers the objects [makeHTMLText] creates. *)
Module Component.
Record t : Type := mk {
  data : Data.t;
  running : bool;
  forceGraph : option ThreeForceGraph.t;
  isInteractive : bool;
  isNetworked : bool;
  isDraggable : bool;
  netEntity : bool;
  stateSync : option StateSync;
  clickEvent : option ClickEvent;
  clickIntersection : option RayIntersection;
  isDragging : bool;
  forcegraphGroup : bool;
  cameraQuaternion : Quaternion.t;
  nodeQuaternion : Quaternion.t;
  pending : list (nat * nat);
  nextId : nat
}.

Definition set_data (v : Data.t) (c : t) : t :=
  mk v (running c) (forceGraph c) (isInteractive c) (isNetworked c)
     (isDraggable c) (netEntity c) (stateSync c) (clickEvent c)
     (clickIntersection c) (isDragging c) (forcegraphGroup c)
     (cameraQuaternion c) (nodeQuaternion c) (pending c) (nextId c).
Definition set_running (v : bool) (c : t) : t :=
  mk (data c) v (forceGraph c) (isInteractive c) (isNetworked c)
     (isDraggable c) (netEntity c) (stateSync c) (clickEvent c)
     (clickIntersection c) (isDragging c) (forcegraphGroup c)
     (cameraQuaternion c) (nodeQuaternion c) (pending c) (nextId c).
Definition set_forceGraph (v : option ThreeForceGraph.t) (c : t) : t :=
  mk (data c) (running c) v (isInteractive c) (isNetworked c)
     (isDraggable c) (netEntity c) (stateSync c) (clickEvent c)
     (clickIntersection c) (isDragging c) (forcegraphGroup c)
     (cameraQuaternion c) (nodeQuaternion c) (pending c) (nextId c).
Definition set_isInteractive (v : bool) (c : t) : t :=
  mk (data c) (running c) (forceGraph c) v (isNetworked c) (isDraggable c)
     (netEntity c) (stateSync c) (clickEvent c) (clickIntersection c)
     (isDragging c) (forcegraphGroup c) (cameraQuaternion c)
     (nodeQuaternion c) (pending c) (nextId c).
Definition set_isNetworked (v : bool) (c : t) : t :=
  mk (data c) (running c) (forceGraph c) (isInteractive c) v
     (isDraggable c) (netEntity c) (stateSync c) (clickEvent c)
     (clickIntersection c) (isDragging c) (forcegraphGroup c)
     (cameraQuaternion c) (nodeQuaternion c) (pending c) (nextId c).
Definition set_isDraggable (v : bool) (c : t) : t :=
  mk (data c) (running c) (forceGraph c) (isInteractive c) (isNetworked c)
     v (netEntity c) (stateSync c) (clickEvent c) (clickIntersection c)
     (isDragging c) (forcegraphGroup c) (cameraQuaternion c)
     (nodeQuaternion c) (pending c) (nextId c).
Definition set_netEntity (v : bool) (c : t) : t :=
  mk (data c) (running c) (forceGraph c) (isInteractive c) (isNetworked c)
     (isDraggable c) v (stateSync c) (clickEvent c) (clickIntersection c)
     (isDragging c) (forcegraphGroup c) (cameraQuaternion c)
     (nodeQuaternion c) (pending c) (nextId c).
Definition set_stateSync (v : option StateSync) (c : t) : t :=
  mk (data c) (running c) (forceGraph c) (isInteractive c) (isNetworked c)
     (isDraggable c) (netEntity c) v (clickEvent c) (clickIntersection c)
     (isDragging c) (forcegraphGroup c) (cameraQuaternion c)
     (nodeQuaternion c) (pending c) (nextId c).
Definition set_clickEvent (v : option ClickEvent) (c : t) : t :=
  mk (data c) (running c) (forceGraph c) (isInteractive c) (isNetworked c)
     (isDraggable c) (netEntity c) (stateSync c) v (clickIntersection c)
     (isDragging c) (forcegraphGroup c) (cameraQuaternion c)
     (nodeQuaternion c) (pending c) (nextId c).
Definition set_clickIntersection (v : option RayIntersection) (c : t) : t :=
  mk (data c) (running c) (forceGraph c) (isInteractive c) (isNetworked c)
     (isDraggable c) (netEntity c) (stateSync c) (clickEvent c) v
     (isDragging c) (forcegraphGroup c) (cameraQuaternion c)
     (nodeQuaternion c) (pending c) (nextId c).
Definition set_isDragging (v : bool) (c : t) : t :=
  mk (data c) (running c) (forceGraph c) (isInteractive c) (isNetworked c)
     (isDraggable c) (netEntity c) (stateSync c) (clickEvent c)
     (clickIntersection c) v (forcegraphGroup c) (cameraQuaternion c)
     (nodeQuaternion c) (pending c) (nextId c).
Definition set_forcegraphGroup (v : bool) (c : t) : t :=
  mk (data c) (running c) (forceGraph c) (isInteractive c) (isNetworked c)
     (isDraggable c) (netEntity c) (stateSync c) (clickEvent c)
     (clickIntersection c) (isDragging c) v (cameraQuaternion c)
     (nodeQuaternion c) (pending c) (nextId c).
Definition set_cameraQuaternion (v : Quaternion.t) (c : t) : t :=
  mk (data c) (running c) (forceGraph c) (isInteractive c) (isNetworked c)
     (isDraggable c) (netEntity c) (stateSync c) (clickEvent c)
     (clickIntersection c) (isDragging c) (forcegraphGroup c) v
     (nodeQuaternion c) (pending c) (nextId c).
Definition set_nodeQuaternion (v : Quaternion.t) (c : t) : t :=
  mk (data c) (running c) (forceGraph c) (isInteractive c) (isNetworked c)
     (isDraggable c) (netEntity c) (stateSync c) (clickEvent c)
     (clickIntersection c) (isDragging c) (forcegraphGroup c)
     (cameraQuaternion c) v (pending c) (nextId c).
Definition set_pending (v : list (nat * nat)) (c : t) : t :=
  mk (data c) (running c) (forceGraph c) (isInteractive c) (isNetworked c)
     (isDraggable c) (netEntity c) (stateSync c) (clickEvent c)
     (clickIntersection c) (isDragging c) (forcegraphGroup c)
     (cameraQuaternion c) (nodeQuaternion c) v (nextId c).
Definition set_nextId (v : nat) (c : t) : t :=
  mk (data c) (running c) (forceGraph c) (isInteractive c) (isNetworked c)
     (isDraggable c) (netEntity c) (stateSync c) (clickEvent c)
     (clickIntersection c) (isDragging c) (forcegraphGroup c)
     (cameraQuaternion c) (nodeQuaternion c) (pending c) v.

(** The object before [init]: the template's flags are off and nothing
    is attached yet. *)
Definition fresh (d : Data.t) : t := {|
  data := d; running := false; forceGraph := None;
  isInteractive := false; isNetworked := false; isDraggable := false;
  netEntity := false; stateSync := None;
  clickEvent := None; clickIntersection := None;
  isDragging := false; forcegraphGroup := false;
  cameraQuaternion := Quaternion.identity;
  nodeQuaternion := Quaternion.identity;
  pending := []; nextId := 0 |}.
End Component.

(* ===================================================================== *)
(** * Methods as state transformers                                       *)
(* ===================================================================== *)

(** What a method does to the world outside the component object: calls
    into the host and the libraries, in the order they happen.
    [Invoke] marks the entry of one of the component's own methods. *)
Inductive Effect : Type :=
| ConsoleWarn (msg : string)
| Invoke (method : string)
| GetInteractors
| GetIntersection (interactor : nat)
| TickFrame
| CameraUpdateMatrices
| HtmlTick (node : nat) (time : float)
| TraverseVisible
| UpdateMatrix
| SetObject3D (name : string)
| Emit (name : string)
| StartDrag
| EndDrag.

(** A method runs on the component and ends normally or by a throw; the
    component keeps the writes made before a throw. *)
Definition M (A : Type) : Type :=
  Component.t -> Completion A * Component.t * list Effect.

#[global] Instance M_ret : MRet M := fun A a c => (Normal a, c, []).

#[global] Instance M_bind : MBind M := fun A B k m c =>
  match m c with
  | (Normal a, c', l) => let '(r, c'', l') := k a c' in (r, c'', (l ++ l')%list)
  | (Abrupt e, c', l) => (Abrupt e, c', l)
  end.

Definition this : M Component.t := fun c => (Normal c, c, []).
Definition modify (f : Component.t -> Component.t) : M unit :=
  fun c => (Normal tt, f c, []).
Definition throw {A : Type} (e : JsError) : M A :=
  fun c => (Abrupt e, c, []).
Definition perform (e : Effect) : M unit := fun c => (Normal tt, c, [e]).
Definition skip : M unit := mret tt.

(** The three parts of a run. *)
Definition completion {A : Type} (r : Completion A * Component.t * list Effect)
  : Completion A := fst (fst r).
Definition after {A : Type} (r : Completion A * Component.t * list Effect)
  : Component.t := snd (fst r).
Definition effects {A : Type} (r : Completion A * Component.t * list Effect)
  : list Effect := snd r.

(** [for (x of xs) body(x)]. *)
Fixpoint forEach {A : Type} (body : A -> M unit) (xs : list A) : M unit :=
  match xs with
  | [] => skip
  | a :: rest => body a;; forEach body rest
  end.

(** Reading [this.forceGraph.<member>] throws when the graph object is
    missing. *)
Definition theForceGraph : M ThreeForceGraph.t :=
  c ← this;
  match Component.forceGraph c with
  | Some fg => mret fg
  | None => throw (TypeError "this.forceGraph is undefined")
  end.

Definition modifyForceGraph (f : ThreeForceGraph.t -> ThreeForceGraph.t)
  : M unit :=
  fg ← theForceGraph;
  modify (Component.set_forceGraph (Some (f fg))).

(** ** Bound methods of the graph object *)

(** [if (!this.forceGraph) this.forceGraph = new ThreeForceGraph()]. *)
Definition ensureForceGraph : M unit :=
  c ← this;
  match Component.forceGraph c with
  | Some _ => skip
  | None => modify (Component.set_forceGraph (Some ThreeForceGraph.new))
  end.

(** [getGraphBbox]: creates the graph object when called before [init]. *)
Definition getGraphBbox : M (option Bbox.t) :=
  ensureForceGraph;;
  fg ← theForceGraph;
  mret (ThreeForceGraph.graphBbox fg).

(** Modelled from the spec: the engine's [reheat], behind the graph
    object's own [d3ReheatSimulation] (three-forcegraph is a dependency
    and not part of this repository): a stopped engine runs again. *)
Definition engineReheat (fg : ThreeForceGraph.t) : ThreeForceGraph.t :=
  ThreeForceGraph.set_engineRunning true fg.

(** [d3ReheatSimulation]: forwards to the graph object when there is one
    and writes nothing of the component itself. *)
Definition d3ReheatSimulation : M unit :=
  c ← this;
  match Component.forceGraph c with
  | Some fg => modify (Component.set_forceGraph (Some (engineReheat fg)))
  | None => skip
  end.

(** ** [scaleToFit] *)

Definition scaleToFit : M unit :=
  perform (Invoke "scaleToFit");;
  fg ← theForceGraph;
  match ThreeForceGraph.graphBbox fg with
  | Some bbox =>
      c ← this;
      let sizeH := snd (Bbox.y bbox) - fst (Bbox.y bbox) in
      let sizeW := snd (Bbox.x bbox) - fst (Bbox.x bbox) in
      let sizeW := Math.max sizeW (snd (Bbox.z bbox) - fst (Bbox.z bbox)) in
      let sizeH := Data.height (Component.data c) / sizeH in
      let sizeW := Data.width (Component.data c) / sizeW in
      let scale := Math.min sizeH sizeW in
      let scale := scale * Vector3.x (ThreeForceGraph.scale fg) in
      modifyForceGraph
        (ThreeForceGraph.set_scale (Vector3.set scale scale scale));;
      perform UpdateMatrix
  | None => skip
  end.

(** ** [init] and the callbacks it installs *)

(** The [onEngineStop] callback. *)
Definition onEngineStop : M unit :=
  modify (Component.set_running false);;
  scaleToFit;;
  perform (Emit "updatePortals").

(** The [onEngineTick] callback: its only statement is commented out. *)
Definition onEngineTick : M unit := skip.

(** The [onFinishUpdate] callback. *)
Definition onFinishUpdate : M unit :=
  c ← this;
  (if negb (Component.forcegraphGroup c) then
     perform (SetObject3D "forcegraphGroup");;
     modify (Component.set_forcegraphGroup true)
   else skip);;
  modify (Component.set_running true);;
  modifyForceGraph (ThreeForceGraph.set_engineStopHook true);;
  modifyForceGraph (ThreeForceGraph.set_engineTickHook true).

(** [fg.d3Force(name, force)]: registers or replaces a force. *)
Definition d3ForceSet (name : string) (f : Force) : M unit :=
  modifyForceGraph
    (fun fg => ThreeForceGraph.set_forces
                 (<[name := f]> (ThreeForceGraph.forces fg)) fg).

(** [init].  The template's [startInit] and [finishInit], which set up
    the container and the networking, belong to the host; the fields
    [state], [sharedData] and [fullName], which no method here reads, are
    left out. *)
Definition init : M unit :=
  modify (Component.set_running false);;
  ensureForceGraph;;
  modifyForceGraph (ThreeForceGraph.set_finishUpdateHook true);;
  d3ForceSet "x" d3ForceX;;
  d3ForceSet "y" d3ForceY;;
  d3ForceSet "z" d3ForceZ;;
  c ← this;
  modify (Component.set_isInteractive (Data.isInteractive (Component.data c)));;
  modify (Component.set_isNetworked (Data.isNetworked (Component.data c)));;
  modify (Component.set_isDraggable (Data.isDraggable (Component.data c)));;
  modify (Component.set_clickEvent None);;
  modify (Component.set_clickIntersection None).

(** ** [makeHTMLText] and the continuation it leaves behind *)

(** Access to the node at index [i] of [graphData().nodes]. *)
Definition theNode (i : nat) : M Node.t :=
  fg ← theForceGraph;
  match ThreeForceGraph.nodes fg !! i with
  | Some node => mret node
  | None => throw (TypeError "no such node")
  end.

Definition modifyNode (i : nat) (f : Node.t -> Node.t) : M unit :=
  node ← theNode i;
  modifyForceGraph
    (fun fg => ThreeForceGraph.set_nodes
                 (<[i := f node]> (ThreeForceGraph.nodes fg)) fg).

Definition modifyObject (id : nat) (f : Object3D.t -> Object3D.t) : M unit :=
  modifyForceGraph
    (fun fg => ThreeForceGraph.set_objects
                 (alter f id (ThreeForceGraph.objects fg)) fg).

Definition fresh : M nat :=
  c ← this;
  modify (Component.set_nextId (S (Component.nextId c)));;
  mret (Component.nextId c).

(** [makeHTMLText(node)]: builds the container with the placeholder box
    in it, starts the label's generator, leaves the [waitForReady]
    continuation pending and returns the container. *)
Definition makeHTMLText (i : nat) : M nat :=
  perform (Invoke "makeHTMLText");;
  node ← theNode i;
  c ← this;
  ret ← fresh;
  modifyForceGraph
    (fun fg => ThreeForceGraph.set_objects
                 (<[ret := Object3D.mk [] (Vector3.mk 1 1 1)
                             Quaternion.identity]>
                    (ThreeForceGraph.objects fg)) fg);;
  let scale := 150 in
  boxId ← fresh;
  modifyNode i
    (Node.set__box
       (Some (mkMesh boxId (Node.color node)
                     (Data.nodeOpacity (Component.data c)) 0)));;
  modifyObject ret (Object3D.add (BoxChild boxId));;
  genId ← fresh;
  modifyNode i
    (Node.set_htmlGenerator
       (Some (mkHtmlGenerator genId (Node.name node) (Node.color node)
                              (Data.textSize (Component.data c)) None)));;
  modifyObject ret (Object3D.set_scale (Vector3.mk scale scale scale));;
  c ← this;
  modify (Component.set_pending (Component.pending c ++ [(i, ret)]));;
  mret ret.

(** The continuation of [waitForReady()] for node [i] and container
    [ret]: the label joins the container, the box leaves it and the
    node's reference to the box is cleared. *)
Definition contentReady (i ret : nat) : M unit :=
  c ← this;
  node ← theNode i;
  match Node.htmlGenerator node with
  | None => throw (TypeError "node.htmlGenerator is undefined")
  | Some gen =>
      modifyNode i
        (Node.set_htmlGenerator
           (Some (mkHtmlGenerator (genId gen) (genText gen) (genColor gen)
                    (genSize gen)
                    (Some (Data.nodeOpacity (Component.data c))))));;
      modifyObject ret (Object3D.add (WebLayerChild (genId gen)));;
      match Node._box node with
      | Some box => modifyObject ret (Object3D.remove (BoxChild (meshId box)))
      | None => skip
      end;;
      modifyNode i (Node.set__box None)
  end.

(** ** [update] *)

Definition fgProps : list string :=
  [ "jsonUrl"; "nodeId"; "nodeVal"; "nodeColor"; "nodeAutoColorBy";
    "nodeOpacity"; "linkSource"; "linkTarget"; "linkVisibility";
    "linkColor"; "linkAutoColorBy"; "linkOpacity"; "linkWidth" ].

Definition dataUrlPrefix : string :=
  "https://resources.realitymedia.digital/data/forcegraph/".

(** The body of the [forEach] over the changed properties: blank values
    become [null] on their way to the graph object's setter. *)
Definition forwardProp (p : string) : M unit :=
  (if (p =? "jsonUrl")%string then
     modify (fun c => Component.set_data
                        (Data.set_jsonUrl
                           (dataUrlPrefix ++ Data.jsonUrl (Component.data c))
                           (Component.data c)) c)
   else skip);;
  c ← this;
  let v := Data.get p (Component.data c) in
  let v := match v with VString "" => VNull | _ => v end in
  modifyForceGraph
    (fun fg => ThreeForceGraph.set_props
                 (<[p := v]> (ThreeForceGraph.props fg)) fg).

(** [fg.d3Force(name).strength(v)]: throws when no force has that name. *)
Definition d3ForceStrength (name : string) (v : float) : M unit :=
  fg ← theForceGraph;
  match ThreeForceGraph.forces fg !! name with
  | Some f => d3ForceSet name (setStrength v f)
  | None => throw (TypeError "d3Force(...) is undefined")
  end.

(** [update(oldData)], with [this.data] already holding the new
    configuration; [inDiff p] is [p in diff] for the difference A-Frame
    computes against [oldData]. *)
Definition update (inDiff : string -> bool) : M unit :=
  forEach forwardProp (List.filter inDiff fgProps);;
  modifyForceGraph (ThreeForceGraph.set_nodeThreeObject true);;
  c ← this;
  let d := Component.data c in
  (if strictNe (Data.chargeForce d) 0
   then d3ForceStrength "charge" (Data.chargeForce d) else skip);;
  (if strictNe (Data.xForce d) 0
   then d3ForceStrength "x" (Data.xForce d) else skip);;
  (if strictNe (Data.yForce d) 0
   then d3ForceStrength "y" (Data.yForce d) else skip);;
  (if strictNe (Data.zForce d) 0
   then d3ForceStrength "z" (Data.zForce d) else skip).

(** ** Click and drag *)

Section Interaction.

(** [this.handleInteraction.getIntersection(interactor, targets)], the
    fine-grained hit test of the interaction template. *)
Variable getIntersection : nat -> list nat -> option RayIntersection.

Definition clicked (evt : ClickEvent) : M unit :=
  modify (Component.set_clickIntersection
            (getIntersection (object3D evt) [target evt]));;
  modify (Component.set_clickEvent (Some evt));;
  c ← this;
  match Component.clickIntersection c with
  | None =>
      perform (ConsoleWarn "click didn't hit anything; shouldn't happen")
  | Some _ => skip
  end.

End Interaction.

(** Modelled from the spec: the drag state of the interaction
    template behind [this.handleInteraction] (the template is not part
    of this repository).  A drag start that is accepted takes the
    controller to its dragging state and one that is refused leaves the
    state as it is; the drag release takes it back to idle.
    [accepted] is what [startDrag] answers. *)
Definition startDrag (accepted : bool) : M bool :=
  perform StartDrag;;
  (if accepted then modify (Component.set_isDragging true) else skip);;
  mret accepted.

Definition endDrag : M unit :=
  perform EndDrag;;
  modify (Component.set_isDragging false).

(** [dragStart] asks the template to start the drag and does nothing
    else, whatever the answer; [dragEnd] hands over to the template. *)
Definition dragStart (accepted : bool) : M unit :=
  ok ← startDrag accepted;
  if negb ok then mret tt else skip.

Definition dragEnd : M unit := endDrag.

(** ** The frame tick *)

(** What the host and the engine supply in one frame: the clock, the
    pointer sources [getInteractors] returns, whether the engine's
    stopping condition is met at this step, the bounding box after a
    layout step, and the world orientations of camera and graph. *)
Record Frame : Type := mkFrame {
  time : float;
  interactors : list nat;
  cooldownReached : bool;
  bboxAfterStep : option Bbox.t;
  cameraWorld : Quaternion.t;
  graphWorld : Quaternion.t
}.

(** Modelled from the spec: one [step] of the engine behind
    [forceGraph.tickFrame()] (three-forcegraph is a dependency and not
    part of this repository).  While running, a step either advances the
    layout and reports a tick, or finds the layout converged, stops and
    signals it once; a step of a stopped engine does nothing. *)
Definition tickFrame (f : Frame) : M unit :=
  fg ← theForceGraph;
  perform TickFrame;;
  if ThreeForceGraph.engineRunning fg then
    if cooldownReached f then
      modifyForceGraph (ThreeForceGraph.set_engineRunning false);;
      (if ThreeForceGraph.engineStopHook fg then onEngineStop else skip)
    else
      modifyForceGraph (ThreeForceGraph.set_graphBbox (bboxAfterStep f));;
      (if ThreeForceGraph.engineTickHook fg then onEngineTick else skip)
  else skip.

(** The body of [ns.nodes.forEach]: orient the node's container towards
    the viewer, spin the placeholder while there is one, tick the label's
    generator when there is one. *)
Definition spin (box : Mesh) : Mesh :=
  mkMesh (meshId box) (meshColor box) (meshOpacity box) (rotationZ box + 0.03).

Definition tickNode (q : Quaternion.t) (time : float) (i : nat)
    (node : Node.t) (objs : gmap nat Object3D.t)
  : Node.t * gmap nat Object3D.t * list Effect :=
  let objs :=
    match Node.__threeObj node with
    | Some id => alter (Object3D.set_quaternion q) id objs
    | None => objs
    end in
  let node' :=
    match Node._box node with
    | Some box => Node.set__box (Some (spin box)) node
    | None => node
    end in
  let ticks :=
    match Node.htmlGenerator node with
    | Some _ => [HtmlTick i time]
    | None => []
    end in
  (node', objs, ticks).

Fixpoint tickNodes (q : Quaternion.t) (time : float) (i : nat)
    (ns : list Node.t) (objs : gmap nat Object3D.t)
  : list Node.t * gmap nat Object3D.t * list Effect :=
  match ns with
  | [] => ([], objs, [])
  | node :: rest =>
      let '(node', objs', e1) := tickNode q time i node objs in
      let '(rest', objs'', e2) := tickNodes q time (S i) rest objs' in
      (node' :: rest', objs'', (e1 ++ e2)%list)
  end.

Definition performAll (es : list Effect) : M unit :=
  fun c => (Normal tt, c, es).

(** Hover polling: every interactor is tested against the container. *)
Definition interactionPhase (f : Frame) : M unit :=
  c ← this;
  if Component.isInteractive c then
    if Component.isDraggable c && Component.isDragging c then skip
    else
      perform GetInteractors;;
      forEach (fun i => perform (GetIntersection i)) (interactors f)
  else skip.

(** The test behind the early [return] of a networked component. *)
Definition networkPending (c : Component.t) : bool :=
  Component.isNetworked c
  && (negb (Component.netEntity c)
      || match Component.stateSync c with Some _ => false | None => true end).

Definition syncPhase : M unit :=
  c ← this;
  if Component.isNetworked c then
    match Component.stateSync c with
    | Some s =>
        if changed s
        then modify (Component.set_stateSync (Some (mkStateSync false)))
        else skip
    | None => throw (TypeError "this.stateSync is undefined")
    end
  else skip.

Definition billboardPhase (f : Frame) : M unit :=
  perform CameraUpdateMatrices;;
  modify (Component.set_cameraQuaternion (cameraWorld f));;
  c ← this;
  modify (Component.set_nodeQuaternion
            (Quaternion.multiply (Quaternion.invert (graphWorld f))
                                 (Component.cameraQuaternion c)));;
  c ← this;
  fg ← theForceGraph;
  let '(ns, objs, ticks) :=
    tickNodes (Component.nodeQuaternion c) (time f) 0
              (ThreeForceGraph.nodes fg) (ThreeForceGraph.objects fg) in
  modifyForceGraph
    (fun fg => ThreeForceGraph.set_objects objs
                 (ThreeForceGraph.set_nodes ns fg));;
  performAll ticks;;
  perform TraverseVisible.

Definition tick (f : Frame) : M unit :=
  interactionPhase f;;
  c ← this;
  if networkPending c then skip
  else
    syncPhase;;
    tickFrame f;;
    billboardPhase f;;
    c ← this;
    if Component.running c then scaleToFit else skip.

(* ===================================================================== *)
(** * The component in its environment                                    *)
(* ===================================================================== *)

(** What can happen to a component: the host's lifecycle and pointer
    calls, the library's callbacks, and the resolution of a pending
    [waitForReady] promise. *)
Inductive Event : Type :=
| Init
| NetworkReady
| RemoteUpdate
| Update (d : Data.t) (inDiff : string -> bool)
| GraphBuilt (ns : list (JsVal * JsVal))
| CreateNodeObject (i : nat)
| ContentReady (k : nat)
| Clicked (evt : ClickEvent)
| DragStart (accepted : bool)
| DragEnd
| Reheat
| Tick (f : Frame).

(** Modelled from the spec: the graph build of the engine.  The nodes
    of the fetched document (a name and a colour each) replace the graph,
    continuations that close over the replaced nodes have nothing left to
    act on, the engine starts running and the finish-update callback is
    called. *)
Definition graphBuilt (ns : list (JsVal * JsVal)) : M unit :=
  modifyForceGraph
    (fun fg =>
       ThreeForceGraph.set_engineRunning true
         (ThreeForceGraph.set_nodes
            (List.map (fun n => Node.mk (fst n) (snd n) None None None) ns)
            fg));;
  modify (Component.set_pending []);;
  fg ← theForceGraph;
  if ThreeForceGraph.finishUpdateHook fg then onFinishUpdate else skip.

(** The library asks the installed [nodeThreeObject] accessor for the
    object of node [i] and keeps it as the node's [__threeObj]. *)
Definition createNodeObject (i : nat) : M unit :=
  fg ← theForceGraph;
  if ThreeForceGraph.nodeThreeObject fg then
    ret ← makeHTMLText i;
    modifyNode i (Node.set___threeObj (Some ret))
  else skip.

(** The [k]-th pending continuation runs, once. *)
Definition resolveReady (k : nat) : M unit :=
  c ← this;
  match Component.pending c !! k with
  | Some (i, ret) =>
      modify (Component.set_pending (delete k (Component.pending c)));;
      contentReady i ret
  | None => skip
  end.

Section Run.

Variable getIntersection : nat -> list nat -> option RayIntersection.

Definition dispatch (e : Event) : M unit :=
  match e with
  | Init => init
  | NetworkReady =>
      modify (Component.set_netEntity true);;
      modify (Component.set_stateSync (Some (mkStateSync false)))
  | RemoteUpdate =>
      c ← this;
      match Component.stateSync c with
      | Some _ => modify (Component.set_stateSync (Some (mkStateSync true)))
      | None => skip
      end
  | Update d inDiff => modify (Component.set_data d);; update inDiff
  | GraphBuilt ns => graphBuilt ns
  | CreateNodeObject i => createNodeObject i
  | ContentReady k => resolveReady k
  | Clicked evt => clicked getIntersection evt
  | DragStart accepted => dragStart accepted
  | DragEnd => dragEnd
  | Reheat => d3ReheatSimulation
  | Tick f => tick f
  end.

(** One event: the component afterwards and what was done.  A throw
    ends the handler and is reported by the host; the component lives
    on with the writes made so far. *)
Definition step (c : Component.t) (e : Event) : Component.t * list Effect :=
  let r := dispatch e c in (after r, effects r).

Fixpoint run (c : Component.t) (es : list Event)
  : Component.t * list Effect :=
  match es with
  | [] => (c, [])
  | e :: rest =>
      let '(c', l) := step c e in
      let '(c'', l') := run c' rest in
      (c'', (l ++ l')%list)
  end.

End Run.

(** The number of times a method was entered, read off the effects. *)
Definition isInvoke (method : string) (e : Effect) : bool :=
  match e with Invoke m => (m =? method)%string | _ => false end.

Definition invocations (method : string) (l : list Effect) : nat :=
  length (List.filter (isInvoke method) l).
Arguments invocations : simpl never.

(* ===================================================================== *)
(** * The specification's words                                           *)
(* ===================================================================== *)

(** The extent of a bounding box along one axis. *)
Definition extent (r : float * float) : float := snd r - fst r.

(** The rescaling multiplier as the specification gives it:
    [min(targetHeight / sizeH, targetWidth / sizeW)], with [sizeH] the
    vertical extent and [sizeW] the larger horizontal extent. *)
Definition scaleFactor (targetHeight targetWidth : float) (bbox : Bbox.t)
  : float :=
  let sizeH := extent (Bbox.y bbox) in
  let sizeW := Math.max (extent (Bbox.x bbox)) (extent (Bbox.z bbox)) in
  Math.min (targetHeight / sizeH) (targetWidth / sizeW).

(** A box is degenerate when an extent is zero. *)
Definition degenerate (bbox : Bbox.t) : bool :=
  ((extent (Bbox.x bbox) =? 0) || (extent (Bbox.y bbox) =? 0)
   || (extent (Bbox.z bbox) =? 0))%float.

(** The scale of the graph object, when there is one. *)
Definition graphScale (c : Component.t) : option Vector3.t :=
  ThreeForceGraph.scale <$> Component.forceGraph c.

Definition uniform (s : float) : Vector3.t := Vector3.mk s s s.

(** The configured strength of the four forces [update] retunes. *)
Definition configured (name : string) (d : Data.t) : option float :=
  if (name =? "charge")%string then Some (Data.chargeForce d)
  else if (name =? "x")%string then Some (Data.xForce d)
  else if (name =? "y")%string then Some (Data.yForce d)
  else if (name =? "z")%string then Some (Data.zForce d)
  else None.

Definition forceConfig (d : Data.t) : float * float * float * float :=
  (Data.chargeForce d, Data.xForce d, Data.yForce d, Data.zForce d).

(** The registry after one force was retuned to a configured strength:
    a strength of zero leaves the registry alone. *)
Definition retuned (name : string) (v : float) (F : gmap string Force)
  : gmap string Force :=
  if strictNe v 0 then alter (setStrength v) name F else F.

(** The force registered under a name. *)
Definition forceOf (name : string) (c : Component.t) : option Force :=
  fg ← Component.forceGraph c; ThreeForceGraph.forces fg !! name.

(** The host calls of the interaction phase of a frame. *)
Definition hoverPolls (f : Frame) (c : Component.t) : list Effect :=
  if Component.isInteractive c
     && negb (Component.isDraggable c && Component.isDragging c)
  then GetInteractors :: List.map GetIntersection (interactors f)
  else [].

(** The two host calls of hover polling. *)
Definition isHoverPoll (e : Effect) : bool :=
  match e with
  | GetInteractors | GetIntersection _ => true
  | _ => false
  end.

(** The component after the sync phase of a frame: a pending remote
    change is consumed. *)
Definition synced (c : Component.t) : Component.t :=
  if Component.isNetworked c then
    match Component.stateSync c with
    | Some s =>
        if changed s
        then Component.set_stateSync (Some (mkStateSync false)) c
        else c
    | None => c
    end
  else c.

(** The engine reports convergence to the component in this frame. *)
Definition convergesNow (f : Frame) (c : Component.t) : bool :=
  match Component.forceGraph c with
  | Some fg =>
      ThreeForceGraph.engineRunning fg && cooldownReached f
      && ThreeForceGraph.engineStopHook fg
  | None => false
  end.

(** A property of the component that a method keeps. *)
Definition keeps {A : Type} (P : Component.t -> Prop) (m : M A) : Prop :=
  forall c, P c -> P (after (m c)).

(** The same with a precondition and a postcondition on the component;
    the postcondition also holds where a throw ends the method. *)
Definition hoare {A : Type} (P : Component.t -> Prop) (m : M A)
    (Q : Component.t -> Prop) : Prop :=
  forall c, P c -> Q (after (m c)).

(** What one method run tells the frame: it returns, the graph object is
    still there, and the flag and the count of rescalings are known. *)
Definition runsWith (m : M unit) (c : Component.t) (flag : bool) (n : nat)
  : Prop :=
  exists c' l,
    m c = (Normal tt, c', l)
    /\ (exists fg', Component.forceGraph c' = Some fg')
    /\ Component.running c' = flag
    /\ invocations "scaleToFit" l = n.

(** The running flag has a given value. *)
Definition runningIs (b : bool) (c : Component.t) : Prop :=
  Component.running c = b.

(** The events whose handlers contain a write to the running flag. *)
Definition writesRunning (e : Event) : bool :=
  match e with
  | Init | GraphBuilt _ | Tick _ => true
  | _ => false
  end.

(** The node at an index and its placeholder. *)
Definition nodeAt (i : nat) (c : Component.t) : option Node.t :=
  fg ← Component.forceGraph c; ThreeForceGraph.nodes fg !! i.

Definition boxOf (i : nat) (c : Component.t) : option Mesh :=
  node ← nodeAt i c; Node._box node.

Definition generatorOf (i : nat) (c : Component.t) : option HtmlGenerator :=
  node ← nodeAt i c; Node.htmlGenerator node.

(** Bookkeeping of the placeholder-to-label transition of node [i]: the
    continuations pending for it, the events that run one of them, and
    the events that build its visuals. *)
Definition pendingFor (i : nat) (c : Component.t) : nat :=
  length (List.filter (fun p => Nat.eqb (fst p) i) (Component.pending c)).

Definition readyFor (i : nat) (c : Component.t) (e : Event) : bool :=
  match e with
  | ContentReady k =>
      match Component.pending c !! k with
      | Some (j, _) => Nat.eqb j i
      | None => false
      end
  | _ => false
  end.

Definition pendingIs (l : list (nat * nat)) (c : Component.t) : Prop :=
  Component.pending c = l.

(** The events whose handlers write the list of pending continuations. *)
Definition writesPending (e : Event) : bool :=
  match e with
  | GraphBuilt _ | CreateNodeObject _ | ContentReady _ => true
  | _ => false
  end.

Definition buildFor (i : nat) (e : Event) : bool :=
  match e with CreateNodeObject j => Nat.eqb j i | _ => false end.

Section Counting.

Variable getIntersection : nat -> list nat -> option RayIntersection.

(** How often the continuation that clears the placeholder of node [i]
    runs along a sequence of events. *)
Fixpoint transitions (i : nat) (c : Component.t) (es : list Event) : nat :=
  match es with
  | [] => 0
  | e :: rest =>
      (if readyFor i c e then 1 else 0)
      + transitions i (fst (step getIntersection c e)) rest
  end.

End Counting.

Definition builds (i : nat) (es : list Event) : nat :=
  length (List.filter (buildFor i) es).

(* ===================================================================== *)
(** * Example configurations                                              *)
(* ===================================================================== *)

(** A pointer ray that hits nothing. *)
Definition noHit : nat -> list nat -> option RayIntersection :=
  fun _ _ => None.

(** [eval] on the keyword literals and on one accessor function. *)
Definition gevalSample : string -> Host unit JsVal :=
  gevalTable
    [ ("(true)", Normal (VBool true));
      ("(false)", Normal (VBool false));
      ("(null)", Normal VNull);
      ("(val)", Abrupt (ReferenceError "val is not defined"));
      ("(d => d.size)", Normal (VFunction "d => d.size")) ].

(** [eval] on a text whose value is a function the first time it is
    evaluated and [false] from then on; the world counts the
    evaluations. *)
Definition gevalOnce : string -> Host nat JsVal := fun _ n =>
  (match n with
   | O => Normal (VFunction "d => d.size")
   | S _ => Normal (VBool false)
   end, S n).

(** The text [12px] behind a no-break space (U+00A0). *)
Definition nbsp12px : string := String "194" (String "160" "12px").

(** Inside [parseAccessor] a number is turned into a string only when it
    is NaN. *)
Definition nanToString : float -> string := fun _ => "NaN".

(** The component after [init] with the schema's defaults. *)
Definition initialised : Component.t :=
  Eval vm_compute in after (init (Component.fresh Data.default)).

(** The same with a given bounding box of the layout. *)
Definition withBbox (bbox : Bbox.t) : Component.t :=
  after (modifyForceGraph (ThreeForceGraph.set_graphBbox (Some bbox))
                          initialised).

(** A cube of side 2, and a layout collapsed onto a horizontal plane. *)
Definition cube2 : Bbox.t := Bbox.mk (0, 2) (0, 2) (0, 2).
Definition flat : Bbox.t := Bbox.mk (0, 2) (0, 0) (0, 1).

(** The defaults with other force strengths. *)
Definition withForces (charge fx fy fz : float) (d : Data.t) : Data.t :=
  Data.mk (Data.name d) (Data.isNetworked d) (Data.isInteractive d)
    (Data.isDraggable d) (Data.height d) (Data.width d) (Data.vueApp d)
    (Data.textSize d) (Data.jsonUrl d) charge fx fy fz (Data.nodeId d)
    (Data.nodeVal d) (Data.nodeColor d) (Data.nodeAutoColorBy d)
    (Data.nodeOpacity d) (Data.linkSource d) (Data.linkTarget d)
    (Data.linkVisibility d) (Data.linkColor d) (Data.linkAutoColorBy d)
    (Data.linkOpacity d) (Data.linkWidth d).

Definition allChanged : string -> bool := fun _ => true.
Definition noneChanged : string -> bool := fun _ => false.

(** A frame in which the layout is still moving, and one in which the
    engine finds it converged. *)
Definition movingFrame : Frame :=
  mkFrame 16 [] false (Some cube2) Quaternion.identity Quaternion.identity.
Definition stoppingFrame : Frame :=
  mkFrame 32 [] true (Some cube2) Quaternion.identity Quaternion.identity.

(** The defaults of a networked component, and such a component with its
    graph built while the networked entity is still missing. *)
Definition networkedDefaults : Data.t :=
  Data.mk "" true true true 1 1 "GraphLabel" 2 "" 0 0 0 0 "id"
    (VString "val") (VString "color") (VString "") 0.75 "source" "target"
    true (VString "color") (VString "") 0.2 (VNumber 0).

Definition waiting : Component.t :=
  Eval vm_compute in
    fst (run noHit (Component.fresh networkedDefaults)
           [ Init; Update networkedDefaults allChanged;
             GraphBuilt [(VString "a", VString "red")] ]).

(** A component whose x force was configured to 0.5, and the same after
    the configuration went back to zero. *)
Definition tuned : Component.t :=
  Eval vm_compute in
    fst (step noHit initialised
           (Update (withForces 0 0.5 0 0 Data.default) allChanged)).
Definition zeroed : Component.t :=
  Eval vm_compute in fst (step noHit tuned (Update Data.default noneChanged)).

(** A graph of one node, built and running. *)
Definition built : Component.t :=
  Eval vm_compute in
    fst (run noHit (Component.fresh Data.default)
           [ Init; Update Data.default allChanged;
             GraphBuilt [(VString "a", VString "red")] ]).

(** The same while the user drags it, and with the visuals of its node
    requested from [makeHTMLText]. *)
Definition dragged : Component.t :=
  Eval vm_compute in fst (step noHit built (DragStart true)).
Definition labelled : Component.t :=
  Eval vm_compute in fst (step noHit built (CreateNodeObject 0)).

(* ===================================================================== *)
(** * The wrapper around the graph object's force registry                *)
(* ===================================================================== *)

(** What [d3Force] answers: the component itself where the graph object
    answered itself, else the force registered under the name (or
    [undefined]). *)
Inductive D3ForceResult : Type :=
| Self
| TheForce (f : option Force).

(** [d3Force(name)] and [d3Force(name, force)], told apart by [arg]:
    creates the graph object when called before [init], then forwards.
    Modelled from the spec: the registry behind the graph object's
    [d3Force] (three-forcegraph is a dependency and not part of this
    repository) answers a lookup with the force registered under the
    name and otherwise installs or replaces the force and answers the
    graph object. *)
Definition d3Force (name : string) (arg : option Force) : M D3ForceResult :=
  ensureForceGraph;;
  match arg with
  | None =>
      fg ← theForceGraph;
      mret (TheForce (ThreeForceGraph.forces fg !! name))
  | Some f => d3ForceSet name f;; mret Self
  end.

(* ===================================================================== *)
(** * Properties of reachable components                                  *)
(* ===================================================================== *)

(** A property of the graph object that holds whenever there is one;
    with [need] the object also has to be there. *)
Definition whenGraph (need : bool) (G : ThreeForceGraph.t -> Prop)
    (c : Component.t) : Prop :=
  match Component.forceGraph c with
  | Some fg => G fg
  | None => need = false
  end.

(** The three components of a scale are the same number. *)
Definition isUniform (v : Vector3.t) : Prop :=
  Vector3.x v = Vector3.y v /\ Vector3.y v = Vector3.z v.

(** The value a changed property is forwarded with. *)
Definition blankToNull (v : JsVal) : JsVal :=
  match v with VString "" => VNull | _ => v end.

(** The property last forwarded to the graph object under a name. *)
Definition propOf (p : string) (c : Component.t) : option JsVal :=
  fg ← Component.forceGraph c; ThreeForceGraph.props fg !! p.

(** The container of a node and the orientation of a container. *)
Definition objectOf (id : nat) (c : Component.t) : option Object3D.t :=
  fg ← Component.forceGraph c; ThreeForceGraph.objects fg !! id.

Definition nodesOf (c : Component.t) : list Node.t :=
  match Component.forceGraph c with
  | Some fg => ThreeForceGraph.nodes fg
  | None => []
  end.

(** A node after one frame, and the calls to the label generators in
    one frame, in the order of the nodes. *)
Definition spinNode (node : Node.t) : Node.t :=
  match Node._box node with
  | Some box => Node.set__box (Some (spin box)) node
  | None => node
  end.

Fixpoint labelTicks (time : float) (i : nat) (ns : list Node.t)
  : list Effect :=
  match ns with
  | [] => []
  | node :: rest =>
      (match Node.htmlGenerator node with
       | Some _ => [HtmlTick i time]
       | None => []
       end ++ labelTicks time (S i) rest)%list
  end.

(** The containers after every node's container was turned to [q]. *)
Definition billboarded (q : Quaternion.t) (ns : list Node.t)
    (objs : gmap nat Object3D.t) : gmap nat Object3D.t :=
  foldl (fun objs node =>
           match Node.__threeObj node with
           | Some id => alter (Object3D.set_quaternion q) id objs
           | None => objs
           end) objs ns.

(** The orientation that faces the viewer in a frame. *)
Definition facing (f : Frame) : Quaternion.t :=
  Quaternion.multiply (Quaternion.invert (graphWorld f)) (cameraWorld f).

(* ===================================================================== *)
(** * A frame, written out                                                *)
(* ===================================================================== *)

(** The graph object after [scaleToFit] under a configuration, and the
    calls [scaleToFit] makes. *)
Definition fitted (d : Data.t) (fg : ThreeForceGraph.t)
  : ThreeForceGraph.t :=
  match ThreeForceGraph.graphBbox fg with
  | Some bbox =>
      ThreeForceGraph.set_scale
        (uniform (scaleFactor (Data.height d) (Data.width d) bbox
                  * Vector3.x (ThreeForceGraph.scale fg)))
        fg
  | None => fg
  end.

Definition rescaleEffects (bbox : option Bbox.t) : list Effect :=
  Invoke "scaleToFit"
  :: match bbox with Some _ => [UpdateMatrix] | None => [] end.

(** The bounding box the graph object answers after the engine step of
    a frame: only a step that moves the layout changes it. *)
Definition bboxAfter (f : Frame) (fg : ThreeForceGraph.t) : option Bbox.t :=
  if ThreeForceGraph.engineRunning fg && negb (cooldownReached f)
  then bboxAfterStep f
  else ThreeForceGraph.graphBbox fg.

(** The graph object after the engine step of a frame: a running engine
    either stops, and the component's callback rescales, or moves on to
    the frame's bounding box. *)
Definition stepped (f : Frame) (d : Data.t) (fg : ThreeForceGraph.t)
  : ThreeForceGraph.t :=
  if ThreeForceGraph.engineRunning fg then
    if cooldownReached f then
      let fg' := ThreeForceGraph.set_engineRunning false fg in
      if ThreeForceGraph.engineStopHook fg then fitted d fg' else fg'
    else ThreeForceGraph.set_graphBbox (bboxAfterStep f) fg
  else fg.

(** The graph object after the node loop of a frame. *)
Definition turned (f : Frame) (fg : ThreeForceGraph.t) : ThreeForceGraph.t :=
  ThreeForceGraph.set_objects
    (billboarded (facing f) (ThreeForceGraph.nodes fg)
                 (ThreeForceGraph.objects fg))
    (ThreeForceGraph.set_nodes
       (List.map spinNode (ThreeForceGraph.nodes fg)) fg).

(** The frame of a component that has its graph object [fg] and does
    not wait for the network: the component afterwards and the calls
    made, in order. *)
Definition frameState (f : Frame) (c : Component.t)
    (fg : ThreeForceGraph.t) : Component.t :=
  let converged := convergesNow f c in
  let fg' := turned f (stepped f (Component.data c) fg) in
  let fg' :=
    if negb converged && Component.running c
    then fitted (Component.data c) fg' else fg' in
  Component.set_forceGraph (Some fg')
    (Component.set_nodeQuaternion (facing f)
       (Component.set_cameraQuaternion (cameraWorld f)
          (Component.set_running
             (if converged then false else Component.running c)
             (synced c)))).

Definition frameEffects (f : Frame) (c : Component.t)
    (fg : ThreeForceGraph.t) : list Effect :=
  let converged := convergesNow f c in
  (hoverPolls f c
   ++ [TickFrame]
   ++ (if converged
       then rescaleEffects (ThreeForceGraph.graphBbox fg)
            ++ [Emit "updatePortals"]
       else [])
   ++ [CameraUpdateMatrices]
   ++ labelTicks (time f) 0 (ThreeForceGraph.nodes fg)
   ++ [TraverseVisible]
   ++ (if negb converged && Component.running c
       then rescaleEffects (bboxAfter f fg) else []))%list.

(** The calls to the label generators among the calls of a frame. *)
Definition isHtmlTick (e : Effect) : bool :=
  match e with HtmlTick _ _ => true | _ => false end.

(** A container is the visual of one of the nodes. *)
Definition isNodeObject (id : nat) (ns : list Node.t) : bool :=
  existsb (fun node => match Node.__threeObj node with
                       | Some id' => Nat.eqb id' id
                       | None => false
                       end) ns.

(** What configures the graph object: the registered forces, the
    forwarded properties, the node accessor and the callbacks. *)
Definition setup (fg : ThreeForceGraph.t)
  : gmap string Force * gmap string JsVal * bool * bool * bool * bool :=
  (ThreeForceGraph.forces fg, ThreeForceGraph.props fg,
   ThreeForceGraph.nodeThreeObject fg, ThreeForceGraph.finishUpdateHook fg,
   ThreeForceGraph.engineStopHook fg, ThreeForceGraph.engineTickHook fg).

(** The events that start the engine: a graph build and a reheat. *)
Definition restarts (e : Event) : bool :=
  match e with
  | GraphBuilt _ | Reheat => true
  | _ => false
  end.

(** The layout is at rest: the running flag is cleared and the engine,
    if there is a graph object, is stopped. *)
Definition atRest (c : Component.t) : Prop :=
  Component.running c = false
  /\ whenGraph false
       (fun fg => ThreeForceGraph.engineRunning fg = false) c.

(** A method that never enters [scaleToFit], whatever the component. *)
Definition silent {A : Type} (m : M A) : Prop :=
  forall c, invocations "scaleToFit" (effects (m c)) = 0%nat.

(** None of the events starts the engine. *)
Definition calm (es : list Event) : bool :=
  forallb (fun e => negb (restarts e)) es.

(** The four forces [update] retunes are registered. *)
Definition tunable : list string := ["charge"; "x"; "y"; "z"].

Definition registered (names : list string) (fg : ThreeForceGraph.t) : Prop :=
  Forall (fun name => is_Some (ThreeForceGraph.forces fg !! name)) names.

(** The running flag is cleared, or there is a graph object and the
    engine-stop callback is installed on it. *)
Definition stopsWhenRunning (c : Component.t) : Prop :=
  Component.running c = false
  \/ (ThreeForceGraph.engineStopHook <$> Component.forceGraph c) = Some true.

(** A networked component with its entity, told of a remote change. *)
Definition synchronised : Component.t :=
  Eval vm_compute in fst (run noHit waiting [NetworkReady; RemoteUpdate]).

(** The one-node graph after the frame in which its engine converged. *)
Definition converged : Component.t :=
  Eval vm_compute in fst (step noHit built (Tick stoppingFrame)).


(* ===================================================================== *)
(** * Running methods: equations                                          *)
(* ===================================================================== *)

Ltac unfold_m :=
  unfold mbind, M_bind, mret, M_ret, skip, this, modify, throw, perform,
    performAll, completion, after, effects in *.

Lemma bind_normal {A B : Type} (m : M A) (k : A -> M B) c a c' l :
  m c = (Normal a, c', l) ->
  (m ≫= k) c
  = (completion (k a c'), after (k a c'), (l ++ effects (k a c'))%list).
Proof.
  intros Hm. unfold mbind, M_bind. rewrite Hm.
  destruct (k a c') as [[r c''] l']. reflexivity.
Qed.

Lemma bind_abrupt {A B : Type} (m : M A) (k : A -> M B) c e c' l :
  m c = (Abrupt e, c', l) -> (m ≫= k) c = (Abrupt e, c', l).
Proof. intros Hm. unfold mbind, M_bind. rewrite Hm. reflexivity. Qed.

Lemma theForceGraph_some c fg :
  Component.forceGraph c = Some fg -> theForceGraph c = (Normal fg, c, []).
Proof. intros H. unfold theForceGraph. unfold_m. rewrite H. reflexivity. Qed.

Lemma modifyForceGraph_some f c fg :
  Component.forceGraph c = Some fg ->
  modifyForceGraph f c
  = (Normal tt, Component.set_forceGraph (Some (f fg)) c, []).
Proof.
  intros H. unfold modifyForceGraph.
  rewrite (bind_normal _ _ _ _ _ _ (theForceGraph_some c fg H)).
  reflexivity.
Qed.

Lemma scaleToFit_bbox c fg bbox :
  Component.forceGraph c = Some fg ->
  ThreeForceGraph.graphBbox fg = Some bbox ->
  scaleToFit c
  = (Normal tt,
     Component.set_forceGraph
       (Some (ThreeForceGraph.set_scale
                (uniform (scaleFactor (Data.height (Component.data c))
                                      (Data.width (Component.data c)) bbox
                          * Vector3.x (ThreeForceGraph.scale fg)))
                fg)) c,
     [Invoke "scaleToFit"; UpdateMatrix]).
Proof.
  intros Hfg Hbb. unfold scaleToFit.
  rewrite (bind_normal _ _ c tt c [Invoke "scaleToFit"]) by reflexivity.
  rewrite (bind_normal _ _ _ _ _ _ (theForceGraph_some c fg Hfg)).
  rewrite Hbb.
  rewrite (bind_normal _ _ c c c []) by reflexivity.
  rewrite (bind_normal _ _ _ _ _ _ (modifyForceGraph_some _ c fg Hfg)).
  reflexivity.
Qed.

Lemma scaleToFit_no_bbox c fg :
  Component.forceGraph c = Some fg ->
  ThreeForceGraph.graphBbox fg = None ->
  scaleToFit c = (Normal tt, c, [Invoke "scaleToFit"]).
Proof.
  intros Hfg Hbb. unfold scaleToFit.
  rewrite (bind_normal _ _ c tt c [Invoke "scaleToFit"]) by reflexivity.
  rewrite (bind_normal _ _ _ _ _ _ (theForceGraph_some c fg Hfg)).
  rewrite Hbb. reflexivity.
Qed.

(* ===================================================================== *)
(** * [scaleToFit]                                                        *)
(* ===================================================================== *)

Lemma uniform_inj a b : uniform a = uniform b -> a = b.
Proof. intros H. exact (f_equal Vector3.x H). Qed.

(** C8: for every bounding box the graph reports, [scaleToFit] takes as
    multiplier the smaller of [height / sizeH] and [width / sizeW], with
    [sizeH] the vertical extent and [sizeW] the larger of the two
    horizontal extents, multiplies the current scale by it and sets the
    product on all three axes; it returns normally. *)
Theorem scaleToFit_min_ratio c fg bbox :
  Component.forceGraph c = Some fg ->
  ThreeForceGraph.graphBbox fg = Some bbox ->
  let k := scaleFactor (Data.height (Component.data c))
                       (Data.width (Component.data c)) bbox in
  completion (scaleToFit c) = Normal tt
  /\ graphScale (after (scaleToFit c))
     = Some (uniform (k * Vector3.x (ThreeForceGraph.scale fg)))
  /\ forall s, ThreeForceGraph.scale fg = uniform s ->
       graphScale (after (scaleToFit c))
       = Some (Vector3.mk (k * s) (k * s) (k * s)).
Proof.
  intros Hfg Hbb k. rewrite (scaleToFit_bbox c fg bbox Hfg Hbb).
  split; [reflexivity|]. split; [reflexivity|].
  intros s Hs. unfold graphScale, after. cbn. rewrite Hs. reflexivity.
Qed.

Lemma scaleToFit_min_ratio_witness :
  graphScale (after (scaleToFit (withBbox cube2))) = Some (uniform 0.5).
Proof.
  exact (proj1 (proj2 (scaleToFit_min_ratio (withBbox cube2) _ cube2
                         eq_refl eq_refl))).
Defined.

(** C3, as stated, fails: with the layout collapsed onto a horizontal
    plane (zero vertical extent) [scaleToFit] still divides and the scale
    changes from 1 to 0.5. *)
Lemma scaleToFit_degenerate_rescales :
  degenerate flat = true
  /\ graphScale (withBbox flat) = Some (uniform 1)
  /\ graphScale (after (scaleToFit (withBbox flat))) = Some (uniform 0.5)
  /\ graphScale (after (scaleToFit (withBbox flat)))
     <> graphScale (withBbox flat).
Proof.
  split; [reflexivity|]. split; [reflexivity|]. split; [reflexivity|].
  intros H. apply (f_equal (fun o => match o with
                                     | Some v => (Vector3.x v =? 1)%float
                                     | None => true
                                     end)) in H.
  vm_compute in H. discriminate H.
Qed.

(** C3, amended: [scaleToFit] skips the rescaling when the graph reports
    no bounding box at all: the component is left as it was and nothing is
    divided.  With a bounding box, degenerate or not, it rescales by the
    multiplier of the box. *)
Theorem scaleToFit_skips_without_bbox c fg :
  Component.forceGraph c = Some fg ->
  (ThreeForceGraph.graphBbox fg = None ->
     scaleToFit c = (Normal tt, c, [Invoke "scaleToFit"]))
  /\ (forall bbox, ThreeForceGraph.graphBbox fg = Some bbox ->
        graphScale (after (scaleToFit c))
        = Some (uniform (scaleFactor (Data.height (Component.data c))
                                     (Data.width (Component.data c)) bbox
                         * Vector3.x (ThreeForceGraph.scale fg)))).
Proof.
  intros Hfg. split.
  - intros Hbb. exact (scaleToFit_no_bbox c fg Hfg Hbb).
  - intros bbox Hbb. rewrite (scaleToFit_bbox c fg bbox Hfg Hbb). reflexivity.
Qed.

Lemma scaleToFit_skips_without_bbox_witness :
  scaleToFit initialised = (Normal tt, initialised, [Invoke "scaleToFit"])
  /\ graphScale (after (scaleToFit (withBbox flat))) = Some (uniform 0.5).
Proof.
  split.
  - exact (proj1 (scaleToFit_skips_without_bbox initialised _ eq_refl)
             eq_refl).
  - exact (proj2 (scaleToFit_skips_without_bbox (withBbox flat) _ eq_refl)
             flat eq_refl).
Defined.

(** C2, as stated, fails: with the bounding box unchanged (a cube of side
    2 for a target of 1) one call leaves the scale at 0.5 and a second
    call at 0.25. *)
Lemma scaleToFit_twice_compounds :
  let once := after (scaleToFit (withBbox cube2)) in
  let twice := after (scaleToFit once) in
  (ThreeForceGraph.graphBbox <$> Component.forceGraph once) = Some (Some cube2)
  /\ graphScale once = Some (uniform 0.5)
  /\ graphScale twice = Some (uniform 0.25)
  /\ graphScale twice <> graphScale once.
Proof.
  cbv zeta.
  split; [reflexivity|]. split; [reflexivity|]. split; [reflexivity|].
  intros H. apply (f_equal (fun o => match o with
                                     | Some v => (Vector3.x v =? 0.5)%float
                                     | None => true
                                     end)) in H.
  vm_compute in H. discriminate H.
Qed.

(** C2, amended: the scale is tracked relative to the current one.  Each
    call multiplies the current x scale by the multiplier of the box, so
    two consecutive calls with an unchanged box leave [k * (k * s)] on
    every axis, and the second call changes nothing exactly when
    [k * (k * s)] equals [k * s] -- as when the box already fits and the
    multiplier is 1. *)
Theorem scaleToFit_twice c fg bbox :
  Component.forceGraph c = Some fg ->
  ThreeForceGraph.graphBbox fg = Some bbox ->
  let k := scaleFactor (Data.height (Component.data c))
                       (Data.width (Component.data c)) bbox in
  let s := Vector3.x (ThreeForceGraph.scale fg) in
  let once := after (scaleToFit c) in
  let twice := after (scaleToFit once) in
  graphScale once = Some (uniform (k * s))
  /\ graphScale twice = Some (uniform (k * (k * s)))
  /\ (twice = once <-> k * (k * s) = k * s).
Proof.
  intros Hfg Hbb k s once twice.
  assert (Honce : once = Component.set_forceGraph
                    (Some (ThreeForceGraph.set_scale (uniform (k * s)) fg)) c).
  { unfold once. rewrite (scaleToFit_bbox c fg bbox Hfg Hbb). reflexivity. }
  assert (Htwice : twice = Component.set_forceGraph
                     (Some (ThreeForceGraph.set_scale
                              (uniform (k * (k * s))) fg)) c).
  { unfold twice. rewrite Honce.
    rewrite (scaleToFit_bbox
               (Component.set_forceGraph
                  (Some (ThreeForceGraph.set_scale (uniform (k * s)) fg)) c)
               (ThreeForceGraph.set_scale (uniform (k * s)) fg)
               bbox eq_refl Hbb).
    reflexivity. }
  rewrite Honce, Htwice. split; [reflexivity|]. split; [reflexivity|].
  split.
  - intros H.
    assert (Hs : graphScale (Component.set_forceGraph
                   (Some (ThreeForceGraph.set_scale
                            (uniform (k * (k * s))) fg)) c)
                 = graphScale (Component.set_forceGraph
                     (Some (ThreeForceGraph.set_scale (uniform (k * s)) fg)) c))
      by (rewrite H; reflexivity).
    cbn in Hs. injection Hs. auto.
  - intros H. rewrite H. reflexivity.
Qed.

Lemma scaleToFit_twice_witness :
  graphScale (after (scaleToFit (after (scaleToFit (withBbox cube2)))))
  = Some (uniform 0.25).
Proof.
  exact (proj1 (proj2 (scaleToFit_twice (withBbox cube2) _ cube2
                         eq_refl eq_refl))).
Defined.
(* ===================================================================== *)
(** * The accessor parsers                                                *)
(* ===================================================================== *)

Ltac unfold_host :=
  unfold mbind, Host_bind, mret, Host_ret, raise, tryCatch in *.

Section AccessorFacts.

Variable W : Type.
Variable geval : string -> Host W JsVal.
Variable convert : ConversionHint -> JsVal -> Host W string.
Variable numberToString : float -> string.

(** A primitive other than a symbol converts to its text without a call
    to the host. *)
Lemma toString_primitive hint prop s w :
  primitiveText numberToString prop = Some s ->
  toString W convert numberToString hint prop w = (Normal s, w).
Proof. intros H. unfold toString. rewrite H. reflexivity. Qed.

Lemma parseFloat_primitive prop s w :
  primitiveText numberToString prop = Some s ->
  exists n, parseFloat W convert numberToString prop w = (Normal n, w).
Proof.
  intros H. unfold parseFloat. destruct prop; try (eexists; reflexivity);
    unfold_host; rewrite (toString_primitive _ _ s w H); eauto.
Qed.

(** [parseFn] swallows every failure of the concatenation and of the
    evaluation. *)
Lemma parseFn_returns prop w :
  exists v w',
    parseFn W geval convert numberToString prop w = (Normal v, w').
Proof.
  unfold parseFn. destruct (isFunction prop); [eexists _, _; reflexivity|].
  unfold_host.
  destruct (toString W convert numberToString HintDefault prop w)
    as [[s|e] w1]; [|eauto].
  destruct (geval _ w1) as [[v|e] w2]; eauto.
Qed.

Lemma parseFn_function prop w :
  isFunction prop = true ->
  parseFn W geval convert numberToString prop w = (Normal prop, w).
Proof. intros H. unfold parseFn. rewrite H. reflexivity. Qed.

Lemma parseFn_primitive prop s w :
  primitiveText numberToString prop = Some s ->
  parseFn W geval convert numberToString prop w
  = match geval ("(" ++ s ++ ")") w with
    | (Normal v, w1) => (Normal v, w1)
    | (Abrupt _, w1) => (Normal VNull, w1)
    end.
Proof.
  intros H. unfold parseFn.
  assert (Hf : isFunction prop = false) by (destruct prop; try reflexivity;
                                            discriminate H).
  rewrite Hf. unfold_host. rewrite (toString_primitive _ _ s w H).
  destruct (geval _ w) as [[v|e] w1]; reflexivity.
Qed.

(** The evaluation branch of [parseAccessor] on a primitive. *)
Lemma parseAccessor_evaluates prop s n w :
  primitiveText numberToString prop = Some s ->
  parseFloat W convert numberToString prop w = (Normal n, w) ->
  isNaN n = true ->
  parseAccessor W geval convert numberToString prop w
  = match geval ("(" ++ s ++ ")") w with
    | (Normal v, w1) =>
        if truthy v then
          match geval ("(" ++ s ++ ")") w1 with
          | (Normal v', w2) => (Normal v', w2)
          | (Abrupt _, w2) => (Normal VNull, w2)
          end
        else (Normal prop, w1)
    | (Abrupt _, w1) => (Normal prop, w1)
    end.
Proof.
  intros Hs Hn Hnan. unfold parseAccessor. unfold_host.
  rewrite Hn, Hnan. cbn [negb].
  rewrite (parseFn_primitive prop s w Hs).
  destruct (geval _ w) as [[v|e] w1]; [|reflexivity].
  destruct (truthy v); [|reflexivity].
  apply (parseFn_primitive prop s w1 Hs).
Qed.


End AccessorFacts.



(* ===================================================================== *)
(** * Clicks                                                              *)
(* ===================================================================== *)

(** C7: a click whose ray hits nothing is not fatal.  [clicked] returns
    normally, its only effect is the warning, and the click target it
    leaves is empty; of the component only the two click fields are
    written, the event being kept next to the empty target. *)
Theorem clicked_without_hit getIntersection evt c :
  getIntersection (object3D evt) [target evt] = None ->
  clicked getIntersection evt c
  = (Normal tt,
     Component.set_clickEvent (Some evt)
       (Component.set_clickIntersection None c),
     [ConsoleWarn "click didn't hit anything; shouldn't happen"])
  /\ Component.clickIntersection (after (clicked getIntersection evt c))
     = None.
Proof.
  intros Hmiss. unfold clicked. unfold_m. cbn. rewrite Hmiss.
  split; reflexivity.
Qed.

Lemma clicked_without_hit_witness :
  effects (clicked noHit (mkClickEvent 7 7) initialised)
  = [ConsoleWarn "click didn't hit anything; shouldn't happen"].
Proof.
  exact (f_equal effects
           (proj1 (clicked_without_hit noHit (mkClickEvent 7 7) initialised
                     eq_refl))).
Defined.

(* ===================================================================== *)
(** * Properties a method keeps                                           *)
(* ===================================================================== *)

Lemma keeps_ret {A : Type} P (a : A) : keeps P (mret a).
Proof. intros c HP. exact HP. Qed.

Lemma keeps_bind {A B : Type} P (m : M A) (k : A -> M B) :
  keeps P m -> (forall a, keeps P (k a)) -> keeps P (m ≫= k).
Proof.
  intros Hm Hk c HP. specialize (Hm c HP).
  unfold after, mbind, M_bind in *.
  destruct (m c) as [[[a|e] c'] l]; cbn in *; [|exact Hm].
  specialize (Hk a c' Hm). destruct (k a c') as [[r c''] l']. exact Hk.
Qed.

Lemma keeps_this P : keeps P this.
Proof. intros c HP. exact HP. Qed.

Lemma keeps_throw {A : Type} P e : keeps P (@throw A e).
Proof. intros c HP. exact HP. Qed.

Lemma keeps_perform P e : keeps P (perform e).
Proof. intros c HP. exact HP. Qed.

Lemma keeps_performAll P es : keeps P (performAll es).
Proof. intros c HP. exact HP. Qed.

Lemma keeps_modify P f : (forall c, P c -> P (f c)) -> keeps P (modify f).
Proof. intros Hf c HP. exact (Hf c HP). Qed.

Lemma keeps_forEach {A : Type} P (body : A -> M unit) xs :
  (forall a, keeps P (body a)) -> keeps P (forEach body xs).
Proof.
  intros Hb. induction xs as [|a rest IH]; cbn [forEach].
  - apply keeps_ret.
  - apply keeps_bind; [apply Hb | intros _; exact IH].
Qed.

Lemma keeps_theForceGraph P : keeps P theForceGraph.
Proof.
  intros c HP. unfold theForceGraph. unfold_m.
  destruct (Component.forceGraph c); exact HP.
Qed.

Lemma keeps_theNode P i : keeps P (theNode i).
Proof.
  unfold theNode. apply keeps_bind; [apply keeps_theForceGraph|].
  intros fg. destruct (_ !! _); [apply keeps_ret | apply keeps_throw].
Qed.

(** One step of a syntax-directed proof that a method keeps a property;
    writes to the component are left to the caller. *)
Ltac keeps_step :=
  lazymatch goal with
  | |- keeps _ (mbind _ _) => apply keeps_bind; [|intros ?]
  | |- keeps _ (mret _) => apply keeps_ret
  | |- keeps _ skip => apply keeps_ret
  | |- keeps _ this => apply keeps_this
  | |- keeps _ (throw _) => apply keeps_throw
  | |- keeps _ (perform _) => apply keeps_perform
  | |- keeps _ (performAll _) => apply keeps_performAll
  | |- keeps _ theForceGraph => apply keeps_theForceGraph
  | |- keeps _ (theNode _) => apply keeps_theNode
  | |- keeps _ (forEach _ _) => apply keeps_forEach; intros ?
  | |- keeps _ (if ?b then _ else _) => destruct b
  | |- keeps _ (match ?x with _ => _ end) => destruct x
  end.

Section Frame.

(** A property that does not look at the graph object, the configuration
    or the interaction fields is kept by every method that writes only
    those. *)
Variable P : Component.t -> Prop.
Hypothesis P_forceGraph : forall v c, P c -> P (Component.set_forceGraph v c).
Hypothesis P_data : forall v c, P c -> P (Component.set_data v c).
Hypothesis P_stateSync : forall v c, P c -> P (Component.set_stateSync v c).
Hypothesis P_clickEvent : forall v c, P c -> P (Component.set_clickEvent v c).
Hypothesis P_clickIntersection :
  forall v c, P c -> P (Component.set_clickIntersection v c).
Hypothesis P_isDragging : forall v c, P c -> P (Component.set_isDragging v c).
Hypothesis P_cameraQuaternion :
  forall v c, P c -> P (Component.set_cameraQuaternion v c).
Hypothesis P_nodeQuaternion :
  forall v c, P c -> P (Component.set_nodeQuaternion v c).

Lemma keeps_modifyForceGraph f : keeps P (modifyForceGraph f).
Proof.
  unfold modifyForceGraph. keeps_step; [keeps_step|].
  apply keeps_modify. intros c. apply P_forceGraph.
Qed.

Lemma keeps_modifyNode i f : keeps P (modifyNode i f).
Proof.
  unfold modifyNode. keeps_step; [keeps_step|]. apply keeps_modifyForceGraph.
Qed.

Lemma keeps_modifyObject id f : keeps P (modifyObject id f).
Proof. apply keeps_modifyForceGraph. Qed.

Lemma keeps_d3ForceSet name f : keeps P (d3ForceSet name f).
Proof. apply keeps_modifyForceGraph. Qed.

Lemma keeps_d3ForceStrength name v : keeps P (d3ForceStrength name v).
Proof.
  unfold d3ForceStrength. repeat keeps_step. apply keeps_d3ForceSet.
Qed.

Lemma keeps_scaleToFit : keeps P scaleToFit.
Proof.
  unfold scaleToFit. repeat keeps_step. apply keeps_modifyForceGraph.
Qed.

Lemma keeps_d3ReheatSimulation : keeps P d3ReheatSimulation.
Proof.
  unfold d3ReheatSimulation. repeat keeps_step.
  apply keeps_modify. intros c. apply P_forceGraph.
Qed.

Lemma keeps_forwardProp p : keeps P (forwardProp p).
Proof.
  unfold forwardProp. repeat keeps_step.
  - apply keeps_modify. intros c. apply P_data.
  - apply keeps_modifyForceGraph.
Qed.

Lemma keeps_update inDiff : keeps P (update inDiff).
Proof.
  unfold update.
  repeat first [ apply keeps_forwardProp | apply keeps_modifyForceGraph
               | apply keeps_d3ForceStrength | keeps_step ].
Qed.

Lemma keeps_clicked getIntersection evt :
  keeps P (clicked getIntersection evt).
Proof.
  unfold clicked. repeat keeps_step.
  - apply keeps_modify. intros c. apply P_clickIntersection.
  - apply keeps_modify. intros c. apply P_clickEvent.
Qed.

Lemma keeps_dragStart accepted : keeps P (dragStart accepted).
Proof.
  unfold dragStart, startDrag. repeat keeps_step.
  apply keeps_modify. intros c. apply P_isDragging.
Qed.

Lemma keeps_dragEnd : keeps P dragEnd.
Proof.
  unfold dragEnd, endDrag. repeat keeps_step.
  apply keeps_modify. intros c. apply P_isDragging.
Qed.

Lemma keeps_contentReady i ret : keeps P (contentReady i ret).
Proof.
  unfold contentReady.
  repeat first [ apply keeps_modifyNode | apply keeps_modifyObject
               | keeps_step ].
Qed.

Lemma keeps_interactionPhase f : keeps P (interactionPhase f).
Proof. unfold interactionPhase. repeat keeps_step. Qed.

Lemma keeps_syncPhase : keeps P syncPhase.
Proof.
  unfold syncPhase. repeat keeps_step.
  apply keeps_modify. intros c. apply P_stateSync.
Qed.

Lemma keeps_billboardPhase f : keeps P (billboardPhase f).
Proof.
  unfold billboardPhase.
  repeat first [ apply keeps_modifyForceGraph | keeps_step ].
  - apply keeps_modify. intros c. apply P_cameraQuaternion.
  - apply keeps_modify. intros c. apply P_nodeQuaternion.
Qed.

End Frame.

Lemma hoare_bind {A B : Type} P R Q (m : M A) (k : A -> M B) :
  hoare P m R -> (forall a, hoare R (k a) Q) -> (forall c, R c -> Q c) ->
  hoare P (m ≫= k) Q.
Proof.
  intros Hm Hk HRQ c HP. specialize (Hm c HP).
  unfold after, mbind, M_bind in *.
  destruct (m c) as [[[a|e] c'] l]; cbn in *; [|exact (HRQ _ Hm)].
  specialize (Hk a c' Hm). destruct (k a c') as [[r c''] l']. exact Hk.
Qed.

Lemma hoare_weaken {A : Type} (P Q : Component.t -> Prop) (m : M A) :
  keeps Q m -> (forall c, P c -> Q c) -> hoare P m Q.
Proof. intros Hm HPQ c HP. exact (Hm c (HPQ c HP)). Qed.

(** Closes [keeps P m] for a method [m] that does not write what [P]
    reads. *)
Ltac frame :=
  lazymatch goal with
  | |- keeps _ (modifyForceGraph _) => apply keeps_modifyForceGraph
  | |- keeps _ (modifyNode _ _) => apply keeps_modifyNode
  | |- keeps _ (modifyObject _ _) => apply keeps_modifyObject
  | |- keeps _ (d3ForceSet _ _) => apply keeps_d3ForceSet
  | |- keeps _ (d3ForceStrength _ _) => apply keeps_d3ForceStrength
  | |- keeps _ scaleToFit => apply keeps_scaleToFit
  | |- keeps _ d3ReheatSimulation => apply keeps_d3ReheatSimulation
  | |- keeps _ (forwardProp _) => apply keeps_forwardProp
  | |- keeps _ (update _) => apply keeps_update
  | |- keeps _ (clicked _ _) => apply keeps_clicked
  | |- keeps _ (dragStart _) => apply keeps_dragStart
  | |- keeps _ dragEnd => apply keeps_dragEnd
  | |- keeps _ (contentReady _ _) => apply keeps_contentReady
  | |- keeps _ (interactionPhase _) => apply keeps_interactionPhase
  | |- keeps _ syncPhase => apply keeps_syncPhase
  | |- keeps _ (billboardPhase _) => apply keeps_billboardPhase
  end;
  intros ? ? H; exact H.

(** Closes [keeps P (modify f)] when [f] leaves what [P] reads alone or
    writes the value [P] asks for. *)
Ltac written :=
  lazymatch goal with
  | |- keeps _ (modify _) =>
      apply keeps_modify; intros ? H; first [ exact H | reflexivity ]
  end.

Ltac keeps_auto := repeat first [ written | frame | keeps_step ].

(* ===================================================================== *)
(** * The running flag                                                    *)
(* ===================================================================== *)

(** The handlers that never write the flag keep it, whatever it is. *)
Lemma running_makeHTMLText b i : keeps (runningIs b) (makeHTMLText i).
Proof. unfold makeHTMLText, fresh. keeps_auto. Qed.

Lemma running_untouched getIntersection b e :
  writesRunning e = false ->
  keeps (runningIs b) (dispatch getIntersection e).
Proof.
  destruct e; cbn [writesRunning dispatch]; intros Hw;
    try discriminate Hw;
    unfold createNodeObject, resolveReady; keeps_auto.
  apply running_makeHTMLText.
Qed.

(** A cleared flag stays cleared through [init] and through a frame. *)
Lemma running_init_false : keeps (runningIs false) init.
Proof. unfold init, ensureForceGraph. keeps_auto. Qed.

Lemma running_tick_false f : keeps (runningIs false) (tick f).
Proof. unfold tick, tickFrame, onEngineTick, onEngineStop. keeps_auto. Qed.

(** A set flag stays set through a graph build. *)
Lemma running_graphBuilt_true ns : keeps (runningIs true) (graphBuilt ns).
Proof. unfold graphBuilt, onFinishUpdate. keeps_auto. Qed.

(** A frame in which the engine does not report convergence keeps a set
    flag set. *)
Lemma running_tickFrame_true f :
  hoare (fun c => runningIs true c /\ convergesNow f c = false)
        (tickFrame f) (runningIs true).
Proof.
  intros c [Hrun Hconv]. unfold runningIs, convergesNow in *.
  unfold tickFrame, onEngineTick, onEngineStop, modifyForceGraph,
    theForceGraph.
  unfold_m.
  destruct (Component.forceGraph c) as [fg|] eqn:Hfg; cbn; [|exact Hrun].
  destruct (ThreeForceGraph.engineRunning fg); cbn in *; [|exact Hrun].
  destruct (cooldownReached f); cbn in *.
  - destruct (ThreeForceGraph.engineStopHook fg); [discriminate Hconv|].
    cbn. rewrite Hfg. cbn. exact Hrun.
  - rewrite Hfg. cbn. destruct (ThreeForceGraph.engineTickHook fg); exact Hrun.
Qed.

Lemma running_tick_true f :
  hoare (fun c => runningIs true c /\ convergesNow f c = false)
        (tick f) (runningIs true).
Proof.
  set (P := fun c => runningIs true c /\ convergesNow f c = false).
  assert (HPQ : forall c, P c -> runningIs true c) by (intros c H; apply H).
  unfold tick.
  apply (hoare_bind P P); [|intros _|exact HPQ].
  { apply keeps_interactionPhase. }
  apply (hoare_bind P P); [apply keeps_this|intros c0|exact HPQ].
  destruct (networkPending c0).
  { intros c Hc. exact (HPQ c Hc). }
  apply (hoare_bind P P); [|intros _|exact HPQ].
  { apply keeps_syncPhase. intros v c H. exact H. }
  apply (hoare_bind P (runningIs true));
    [apply running_tickFrame_true | intros _ | auto].
  change (keeps (runningIs true)
            (billboardPhase f ≫= (fun _ =>
               c ← this; if Component.running c then scaleToFit else skip))).
  keeps_auto.
Qed.

Lemma running_graphBuilt c fg ns :
  Component.forceGraph c = Some fg ->
  ThreeForceGraph.finishUpdateHook fg = true ->
  Component.running (after (graphBuilt ns c)) = true.
Proof.
  intros Hfg Hhook.
  unfold graphBuilt, onFinishUpdate, modifyForceGraph, theForceGraph.
  unfold_m. rewrite Hfg. cbn. rewrite Hhook. cbn.
  destruct (Component.forcegraphGroup c); reflexivity.
Qed.

(** C4, as stated, fails: built, converged and then reheated, the engine
    runs again but the flag stays false. *)
Lemma reheat_leaves_flag_false :
  let stopped := fst (step noHit built (Tick stoppingFrame)) in
  let reheated := fst (step noHit stopped Reheat) in
  Component.running built = true
  /\ Component.running stopped = false
  /\ (ThreeForceGraph.engineRunning <$> Component.forceGraph reheated)
     = Some true
  /\ Component.running reheated = false.
Proof. cbv zeta. repeat split; vm_compute; reflexivity. Qed.

(** C4, amended: the flag is raised by the graph build (the finish-update
    callback) and by nothing else, and it is cleared only by [init] and
    by the frame in which the engine reports convergence.  The reheat
    operation restarts the engine and leaves the flag as it is, so after
    convergence the flag returns to true only through a new graph build. *)
Theorem running_flag_transitions getIntersection c e :
  Component.running (after (d3ReheatSimulation c)) = Component.running c
  /\ (forall fg ns,
        Component.forceGraph c = Some fg ->
        ThreeForceGraph.finishUpdateHook fg = true ->
        e = GraphBuilt ns ->
        Component.running (fst (step getIntersection c e)) = true)
  /\ (Component.running c = false ->
      Component.running (fst (step getIntersection c e)) = true ->
      exists ns, e = GraphBuilt ns)
  /\ (Component.running c = true ->
      Component.running (fst (step getIntersection c e)) = false ->
      e = Init \/ exists f, e = Tick f /\ convergesNow f c = true).
Proof.
  assert (Hkeep : forall b (m : M unit),
             keeps (runningIs b) m -> Component.running c = b ->
             Component.running (after (m c)) = negb b -> False).
  { intros b m Hm Hb H. specialize (Hm c Hb). unfold runningIs in Hm.
    rewrite Hm in H. destruct b; discriminate H. }
  split; [|split; [|split]].
  - unfold d3ReheatSimulation. unfold_m.
    destruct (Component.forceGraph c); reflexivity.
  - intros fg ns Hfg Hhook ->. exact (running_graphBuilt c fg ns Hfg Hhook).
  - intros Hoff Hon. unfold step in Hon. cbn [fst] in Hon.
    destruct (writesRunning e) eqn:Hw.
    + destruct e; try discriminate Hw; [exfalso|eauto|exfalso].
      * exact (Hkeep false _ running_init_false Hoff Hon).
      * exact (Hkeep false _ (running_tick_false f) Hoff Hon).
    + exfalso.
      exact (Hkeep false _ (running_untouched getIntersection false e Hw)
                   Hoff Hon).
  - intros Hon Hoff. unfold step in Hoff. cbn [fst] in Hoff.
    destruct (writesRunning e) eqn:Hw.
    + destruct e; try discriminate Hw; [left; reflexivity|exfalso|right].
      * exact (Hkeep true _ (running_graphBuilt_true ns) Hon Hoff).
      * exists f. split; [reflexivity|].
        destruct (convergesNow f c) eqn:Hconv; [reflexivity|exfalso].
        pose proof (running_tick_true f c (conj Hon Hconv)) as Ht.
        unfold runningIs in Ht. cbn [dispatch] in Hoff.
        rewrite Ht in Hoff. discriminate Hoff.
    + exfalso.
      exact (Hkeep true _ (running_untouched getIntersection true e Hw)
                   Hon Hoff).
Qed.

Lemma running_flag_transitions_witness :
  Component.running (fst (step noHit initialised (GraphBuilt []))) = true.
Proof.
  exact (proj1 (proj2 (running_flag_transitions noHit initialised
                         (GraphBuilt [])))
           _ [] eq_refl eq_refl eq_refl).
Defined.

(* ===================================================================== *)
(** * The frame tick                                                      *)
(* ===================================================================== *)

Lemma forEach_perform {A : Type} (E : A -> Effect) xs c :
  forEach (fun a => perform (E a)) xs c = (Normal tt, c, List.map E xs).
Proof.
  revert c. induction xs as [|a rest IH]; intros c; cbn [forEach List.map].
  - reflexivity.
  - rewrite (bind_normal _ _ c tt c [E a]) by reflexivity.
    rewrite IH. reflexivity.
Qed.

Lemma interactionPhase_run f c :
  interactionPhase f c = (Normal tt, c, hoverPolls f c).
Proof.
  unfold interactionPhase, hoverPolls.
  rewrite (bind_normal _ _ c c c []) by reflexivity.
  destruct (Component.isInteractive c); [|reflexivity].
  destruct (Component.isDraggable c && Component.isDragging c);
    [reflexivity|].
  rewrite (bind_normal _ _ c tt c [GetInteractors]) by reflexivity.
  rewrite forEach_perform. reflexivity.
Qed.

Lemma hoverPolls_only f c : forallb isHoverPoll (hoverPolls f c) = true.
Proof.
  unfold hoverPolls. destruct (_ && _); [|reflexivity].
  cbn. induction (interactors f); [reflexivity|assumption].
Qed.

Lemma syncPhase_run c :
  networkPending c = false -> syncPhase c = (Normal tt, synced c, []).
Proof.
  unfold networkPending, syncPhase, synced. unfold_m. intros Hnp.
  destruct (Component.isNetworked c); [|reflexivity].
  destruct (Component.stateSync c) as [s|].
  - destruct (changed s); reflexivity.
  - rewrite orb_true_r in Hnp. discriminate Hnp.
Qed.

Lemma synced_forceGraph c :
  Component.forceGraph (synced c) = Component.forceGraph c.
Proof.
  unfold synced. destruct (Component.isNetworked c); [|reflexivity].
  destruct (Component.stateSync c) as [s|]; [|reflexivity].
  destruct (changed s); reflexivity.
Qed.

Lemma synced_running c :
  Component.running (synced c) = Component.running c.
Proof.
  unfold synced. destruct (Component.isNetworked c); [|reflexivity].
  destruct (Component.stateSync c) as [s|]; [|reflexivity].
  destruct (changed s); reflexivity.
Qed.

Lemma invocations_app m l1 l2 :
  invocations m (l1 ++ l2) = (invocations m l1 + invocations m l2)%nat.
Proof.
  unfold invocations. rewrite List.filter_app, length_app. reflexivity.
Qed.

Lemma invocations_cons m e l :
  invocations m (e :: l)
  = ((if isInvoke m e then 1 else 0) + invocations m l)%nat.
Proof. unfold invocations. cbn. destruct (isInvoke m e); reflexivity. Qed.

Lemma invocations_nil m : invocations m [] = 0%nat.
Proof. reflexivity. Qed.

(** Splits a count of invocations along the shape of the effect list. *)
Ltac count_invocations :=
  repeat first [ rewrite invocations_app | rewrite invocations_cons
               | rewrite invocations_nil ];
  cbn [isInvoke String.eqb Ascii.eqb Bool.eqb].

(** What one method run tells the frame: it returns, the graph object is
    still there, and the flag and the count of rescalings are known. *)
Lemma hoverPolls_quiet f c : invocations "scaleToFit" (hoverPolls f c) = 0%nat.
Proof.
  unfold hoverPolls. destruct (_ && _); [|reflexivity].
  rewrite invocations_cons. cbn [isInvoke Nat.add].
  induction (interactors f) as [|i rest IH]; [reflexivity|].
  cbn [List.map]. rewrite invocations_cons. exact IH.
Qed.

Lemma scaleToFit_runs c fg :
  Component.forceGraph c = Some fg ->
  runsWith scaleToFit c (Component.running c) 1.
Proof.
  intros Hfg. unfold runsWith.
  destruct (ThreeForceGraph.graphBbox fg) as [bbox|] eqn:Hbb.
  - rewrite (scaleToFit_bbox c fg bbox Hfg Hbb).
    eexists _, _. split; [reflexivity|]. cbn. eauto.
  - rewrite (scaleToFit_no_bbox c fg Hfg Hbb).
    eexists _, _. split; [reflexivity|]. cbn. eauto.
Qed.

Lemma tickFrame_runs f c fg :
  Component.forceGraph c = Some fg ->
  runsWith (tickFrame f) c
    (if convergesNow f c then false else Component.running c)
    (if convergesNow f c then 1 else 0).
Proof.
  intros Hfg. unfold runsWith, convergesNow, tickFrame. rewrite Hfg.
  rewrite (bind_normal _ _ _ _ _ _ (theForceGraph_some c fg Hfg)).
  rewrite (bind_normal _ _ c tt c [TickFrame]) by reflexivity.
  destruct (ThreeForceGraph.engineRunning fg); cbn [andb];
    [|eexists _, _; split; [reflexivity|]; cbn; eauto].
  destruct (cooldownReached f); cbn [andb].
  - rewrite (bind_normal _ _ _ _ _ _ (modifyForceGraph_some _ c fg Hfg)).
    destruct (ThreeForceGraph.engineStopHook fg);
      [|eexists _, _; split; [reflexivity|]; cbn; eauto].
    unfold onEngineStop.
    rewrite (bind_normal _ _ _ tt _ [] eq_refl).
    edestruct (scaleToFit_runs
                 (Component.set_running false
                    (Component.set_forceGraph
                       (Some (ThreeForceGraph.set_engineRunning false fg)) c)))
      as (c' & l & Hrun & Hfg' & Hflag & Hn); [reflexivity|].
    rewrite (bind_normal _ _ _ _ _ _ Hrun).
    eexists _, _. split; [reflexivity|]. cbn.
    split; [exact Hfg'|]. split; [exact Hflag|].
    count_invocations. rewrite Hn. reflexivity.
  - rewrite (bind_normal _ _ _ _ _ _ (modifyForceGraph_some _ c fg Hfg)).
    destruct (ThreeForceGraph.engineTickHook fg);
      eexists _, _; (split; [reflexivity|]); cbn; eauto.
Qed.

Lemma tickNodes_ticks_only q t i ns objs :
  invocations "scaleToFit" (snd (tickNodes q t i ns objs)) = 0%nat.
Proof.
  revert i objs. induction ns as [|node rest IH]; intros i objs;
    cbn [tickNodes]; [reflexivity|].
  unfold tickNode.
  destruct (tickNodes q t (S i) rest _) as [[rest' objs''] e2] eqn:Hrest.
  cbn [snd]. rewrite invocations_app.
  specialize (IH (S i) (match Node.__threeObj node with
                        | Some id => alter (Object3D.set_quaternion q) id objs
                        | None => objs
                        end)).
  rewrite Hrest in IH. cbn [snd] in IH. rewrite IH.
  destruct (Node.htmlGenerator node); reflexivity.
Qed.

Lemma billboardPhase_runs f c fg :
  Component.forceGraph c = Some fg ->
  runsWith (billboardPhase f) c (Component.running c) 0.
Proof.
  intros Hfg. unfold runsWith, billboardPhase.
  rewrite (bind_normal _ _ c tt c [CameraUpdateMatrices]) by reflexivity.
  rewrite (bind_normal _ _ _ tt _ [] eq_refl).
  rewrite (bind_normal _ _ _ _ _ [] eq_refl).
  rewrite (bind_normal _ _ _ tt _ [] eq_refl).
  rewrite (bind_normal _ _ _ _ _ [] eq_refl).
  erewrite (bind_normal _ _ _ _ _ _ (theForceGraph_some _ fg _)).
  pose proof (tickNodes_ticks_only
                (Component.nodeQuaternion
                   (Component.set_nodeQuaternion
                      (Quaternion.multiply (Quaternion.invert (graphWorld f))
                         (Component.cameraQuaternion
                            (Component.set_cameraQuaternion (cameraWorld f) c)))
                      (Component.set_cameraQuaternion (cameraWorld f) c)))
                (time f) 0 (ThreeForceGraph.nodes fg)
                (ThreeForceGraph.objects fg)) as Hticks.
  destruct (tickNodes _ _ _ _ _) as [[ns objs] ticks]. cbn [snd] in Hticks.
  erewrite (bind_normal _ _ _ _ _ _ (modifyForceGraph_some _ _ fg _)).
  rewrite (bind_normal _ _ _ tt _ ticks eq_refl).
  eexists _, _. split; [reflexivity|]. cbn.
  split; [eauto|]. split; [reflexivity|].
  count_invocations. rewrite Hticks. reflexivity.
  Unshelve. all: exact Hfg.
Qed.

(** A frame of a component that has its graph object and is not waiting
    for the network. *)
Lemma tick_runs f c fg :
  Component.forceGraph c = Some fg ->
  networkPending c = false ->
  runsWith (tick f) c
    (if convergesNow f c then false else Component.running c)
    (if convergesNow f c || Component.running c then 1 else 0).
Proof.
  intros Hfg Hnp. unfold tick.
  assert (Hconv : convergesNow f (synced c) = convergesNow f c).
  { unfold convergesNow. rewrite synced_forceGraph. reflexivity. }
  destruct (tickFrame_runs f (synced c) fg)
    as (c2 & l2 & Hrun2 & [fg2 Hfg2] & Hflag2 & Hn2);
    [rewrite synced_forceGraph; exact Hfg|].
  rewrite Hconv, synced_running in *.
  destruct (billboardPhase_runs f c2 fg2 Hfg2)
    as (c3 & l3 & Hrun3 & [fg3 Hfg3] & Hflag3 & Hn3).
  unfold runsWith.
  rewrite (bind_normal _ _ _ _ _ _ (interactionPhase_run f c)).
  rewrite (bind_normal _ _ c c c [] eq_refl). rewrite Hnp.
  rewrite (bind_normal _ _ _ _ _ _ (syncPhase_run c Hnp)).
  rewrite (bind_normal _ _ _ _ _ _ Hrun2).
  rewrite (bind_normal _ _ _ _ _ _ Hrun3).
  rewrite (bind_normal _ _ c3 c3 c3 [] eq_refl).
  pose proof (hoverPolls_quiet f c) as Hpolls.
  rewrite Hflag3, Hflag2.
  destruct (convergesNow f c); cbn [orb].
  - eexists _, _. split; [reflexivity|]. cbn.
    split; [eauto|]. split; [congruence|].
    count_invocations. rewrite Hpolls, Hn2, Hn3. reflexivity.
  - destruct (Component.running c) eqn:Hr.
    + destruct (scaleToFit_runs c3 fg3 Hfg3)
        as (c4 & l4 & Hrun4 & Hfg4 & Hflag4 & Hn4).
      rewrite Hrun4.
      eexists _, _. split; [reflexivity|]. cbn.
      split; [exact Hfg4|]. split; [congruence|].
      count_invocations. rewrite Hpolls, Hn2, Hn3, Hn4. reflexivity.
    + eexists _, _. split; [reflexivity|]. cbn.
      split; [eauto|]. split; [congruence|].
      count_invocations. rewrite Hpolls, Hn2, Hn3. reflexivity.
Qed.

(** A frame of a component that waits for the network. *)
Lemma tick_pending_run f c :
  networkPending c = true -> tick f c = (Normal tt, c, hoverPolls f c).
Proof.
  intros Hnp. unfold tick.
  rewrite (bind_normal _ _ _ _ _ _ (interactionPhase_run f c)).
  rewrite (bind_normal _ _ c c c [] eq_refl). rewrite Hnp.
  cbn. rewrite app_nil_r. reflexivity.
Qed.

(** C10: while a networked component waits for its networked entity or
    its state-sync object, a frame ends after the interaction phase.  It
    returns normally, leaves the whole component -- graph object, nodes,
    scale, flags -- as it was, and its only effects are the host calls
    of hover polling: no engine step, no camera or billboard update, no
    node tick, no rescaling. *)
Theorem tick_waits_for_network f c :
  networkPending c = true ->
  tick f c = (Normal tt, c, hoverPolls f c)
  /\ forallb isHoverPoll (effects (tick f c)) = true
  /\ invocations "scaleToFit" (effects (tick f c)) = 0%nat.
Proof.
  intros Hnp. rewrite (tick_pending_run f c Hnp).
  split; [reflexivity|]. cbn [effects snd].
  split; [apply hoverPolls_only|apply hoverPolls_quiet].
Qed.

Lemma tick_waits_for_network_witness :
  tick movingFrame waiting = (Normal tt, waiting, [GetInteractors]).
Proof.
  exact (proj1 (tick_waits_for_network movingFrame waiting eq_refl)).
Defined.

(** C5, as stated, fails: with the graph built and the layout still
    moving, a frame during a drag calls [scaleToFit], and so does the
    next frame. *)
Lemma scaleToFit_called_during_drag :
  let next := fst (step noHit dragged (Tick movingFrame)) in
  Component.isDragging dragged = true
  /\ Component.running dragged = true
  /\ convergesNow movingFrame dragged = false
  /\ invocations "scaleToFit" (snd (step noHit dragged (Tick movingFrame)))
     = 1%nat
  /\ Component.isDragging next = true
  /\ invocations "scaleToFit" (snd (step noHit next (Tick movingFrame)))
     = 1%nat.
Proof. cbv zeta. repeat split; vm_compute; reflexivity. Qed.

(* ===================================================================== *)
(** * Force strengths                                                     *)
(* ===================================================================== *)

Lemma configured_forceConfig name d d' :
  forceConfig d = forceConfig d' -> configured name d = configured name d'.
Proof.
  unfold forceConfig, configured. intros H. injection H as -> -> -> ->.
  reflexivity.
Qed.

Lemma configured_names name d :
  is_Some (configured name d) ->
  name = "charge" \/ name = "x" \/ name = "y" \/ name = "z".
Proof.
  unfold configured.
  destruct (String.eqb_spec name "charge"); [auto|].
  destruct (String.eqb_spec name "x"); [auto|].
  destruct (String.eqb_spec name "y"); [auto|].
  destruct (String.eqb_spec name "z"); [auto|].
  intros [v Hv]. discriminate Hv.
Qed.

Lemma lookup_retuned name v F name' :
  retuned name v F !! name'
  = if decide (name = name')
    then (if strictNe v 0 then setStrength v <$> F !! name else F !! name)
    else F !! name'.
Proof.
  unfold retuned. destruct (strictNe v 0).
  - apply lookup_alter.
  - case_decide; subst; reflexivity.
Qed.

(** The forwarding of the changed properties leaves the forces and their
    configuration alone. *)
Lemma forwardProp_run p c fg :
  Component.forceGraph c = Some fg ->
  exists c' fg',
    forwardProp p c = (Normal tt, c', [])
    /\ Component.forceGraph c' = Some fg'
    /\ ThreeForceGraph.forces fg' = ThreeForceGraph.forces fg
    /\ forceConfig (Component.data c') = forceConfig (Component.data c).
Proof.
  intros Hfg. unfold forwardProp, modifyForceGraph, theForceGraph. unfold_m.
  destruct (p =? "jsonUrl")%string; cbn; rewrite Hfg; cbn;
    eexists _, _; repeat split.
Qed.

Lemma forwardProps_run ps c fg :
  Component.forceGraph c = Some fg ->
  exists c' fg',
    forEach forwardProp ps c = (Normal tt, c', [])
    /\ Component.forceGraph c' = Some fg'
    /\ ThreeForceGraph.forces fg' = ThreeForceGraph.forces fg
    /\ forceConfig (Component.data c') = forceConfig (Component.data c).
Proof.
  revert c fg. induction ps as [|p rest IH]; intros c fg Hfg; cbn [forEach].
  - exists c, fg. repeat split. exact Hfg.
  - destruct (forwardProp_run p c fg Hfg)
      as (c1 & fg1 & Hrun & Hfg1 & HF1 & Hd1).
    destruct (IH c1 fg1 Hfg1) as (c2 & fg2 & Hrun2 & Hfg2 & HF2 & Hd2).
    rewrite (bind_normal _ _ _ _ _ _ Hrun), Hrun2.
    exists c2, fg2. repeat split; [exact Hfg2|congruence|congruence].
Qed.

(** One conditional retuning of [update]. *)
Lemma retune_run name v c fg :
  Component.forceGraph c = Some fg ->
  is_Some (ThreeForceGraph.forces fg !! name) ->
  exists c' fg',
    (if strictNe v 0 then d3ForceStrength name v else skip) c
    = (Normal tt, c', [])
    /\ Component.forceGraph c' = Some fg'
    /\ ThreeForceGraph.forces fg' = retuned name v (ThreeForceGraph.forces fg)
    /\ Component.data c' = Component.data c.
Proof.
  intros Hfg [f Hf]. unfold retuned. destruct (strictNe v 0).
  - unfold d3ForceStrength, d3ForceSet.
    rewrite (bind_normal _ _ _ _ _ _ (theForceGraph_some c fg Hfg)), Hf.
    rewrite (modifyForceGraph_some _ c fg Hfg).
    eexists _, _. repeat split. cbn.
    symmetry. exact (alter_alt_Some (setStrength v) _ name f Hf).
  - exists c, fg. repeat split. exact Hfg.
Qed.

Lemma retuned_is_Some name v F name' :
  is_Some (F !! name') -> is_Some (retuned name v F !! name').
Proof.
  intros H. rewrite lookup_retuned. case_decide; subst; [|exact H].
  destruct (strictNe v 0); [|exact H]. destruct H as [f ->]. cbn. eauto.
Qed.

(** C1, as stated, fails: the x force was configured to 0.5 and then back
    to zero; after that update it still has strength 0.5 and pushes a
    node at x = 1 by -0.5 per unit of alpha. *)
Lemma zero_strength_keeps_the_force :
  configured "x" (Component.data zeroed) = Some 0%float
  /\ forceOf "x" zeroed = Some (mkForce PositionX 0.5)
  /\ axisImpulse (mkForce PositionX 0.5) 1 1 = (-0.5)%float
  /\ (axisImpulse (mkForce PositionX 0.5) 1 1 =? 0)%float = false.
Proof. repeat split; vm_compute; reflexivity. Qed.

(** C1, amended: [update] retunes only the forces whose configured
    strength is not zero.  With the four forces registered it returns
    normally; a force configured to a non-zero strength has that strength
    afterwards, and a force configured to exactly zero is left as it was,
    with the strength -- and so the pull -- it had before the update. *)
Theorem update_retunes_nonzero inDiff c fg :
  Component.forceGraph c = Some fg ->
  (forall name, is_Some (configured name (Component.data c)) ->
                is_Some (ThreeForceGraph.forces fg !! name)) ->
  completion (update inDiff c) = Normal tt
  /\ forall name v,
       configured name (Component.data c) = Some v ->
       forceOf name (after (update inDiff c))
       = if strictNe v 0 then setStrength v <$> forceOf name c
         else forceOf name c.
Proof.
  intros Hfg Hreg. unfold update.
  destruct (forwardProps_run (List.filter inDiff fgProps) c fg Hfg)
    as (c1 & fg1 & Hrun1 & Hfg1 & HF1 & Hd1).
  rewrite (bind_normal _ _ _ _ _ _ Hrun1).
  rewrite (bind_normal _ _ _ _ _ _ (modifyForceGraph_some _ c1 fg1 Hfg1)).
  set (c2 := Component.set_forceGraph
               (Some (ThreeForceGraph.set_nodeThreeObject true fg1)) c1).
  rewrite (bind_normal _ _ c2 c2 c2 [] eq_refl).
  set (F := ThreeForceGraph.forces fg) in *.
  assert (Hc : is_Some (F !! "charge")) by (apply Hreg; cbn; eauto).
  assert (Hx : is_Some (F !! "x")) by (apply Hreg; cbn; eauto).
  assert (Hy : is_Some (F !! "y")) by (apply Hreg; cbn; eauto).
  assert (Hz : is_Some (F !! "z")) by (apply Hreg; cbn; eauto).
  change (Component.data c2) with (Component.data c1).
  destruct (retune_run "charge" (Data.chargeForce (Component.data c1)) c2
              (ThreeForceGraph.set_nodeThreeObject true fg1) eq_refl)
    as (c3 & fg3 & Hrun3 & Hfg3 & HF3 & Hd3);
    [cbn; rewrite HF1; exact Hc|].
  cbn in HF3. rewrite HF1 in HF3.
  destruct (retune_run "x" (Data.xForce (Component.data c1)) c3 fg3 Hfg3)
    as (c4 & fg4 & Hrun4 & Hfg4 & HF4 & Hd4);
    [rewrite HF3; apply retuned_is_Some; exact Hx|].
  destruct (retune_run "y" (Data.yForce (Component.data c1)) c4 fg4 Hfg4)
    as (c5 & fg5 & Hrun5 & Hfg5 & HF5 & Hd5);
    [rewrite HF4, HF3; do 2 apply retuned_is_Some; exact Hy|].
  destruct (retune_run "z" (Data.zForce (Component.data c1)) c5 fg5 Hfg5)
    as (c6 & fg6 & Hrun6 & Hfg6 & HF6 & Hd6);
    [rewrite HF5, HF4, HF3; do 3 apply retuned_is_Some; exact Hz|].
  rewrite (bind_normal _ _ _ _ _ _ Hrun3).
  rewrite (bind_normal _ _ _ _ _ _ Hrun4).
  rewrite (bind_normal _ _ _ _ _ _ Hrun5).
  rewrite Hrun6. cbn [completion after effects fst snd].
  split; [reflexivity|].
  intros name v Hv. unfold forceOf. rewrite Hfg6, Hfg. cbn.
  fold F. rewrite HF6, HF5, HF4, HF3.
  rewrite (configured_forceConfig name _ _ (eq_sym Hd1)) in Hv.
  destruct (configured_names name (Component.data c1) (ex_intro _ v Hv))
    as [-> | [-> | [-> | ->]]];
    cbn in Hv; injection Hv as <-;
    rewrite !lookup_retuned;
    repeat (case_decide; try congruence); reflexivity.
Qed.

Lemma update_retunes_nonzero_witness :
  forceOf "x" (after (update noneChanged tuned))
  = Some (mkForce PositionX 0.5)
  /\ forceOf "y" (after (update noneChanged tuned))
     = Some (mkForce PositionY 0.1).
Proof.
  pose (H := update_retunes_nonzero noneChanged tuned _ eq_refl).
  assert (Hreg : forall name,
             is_Some (configured name (Component.data tuned)) ->
             is_Some (forceOf name tuned)).
  { intros name Hn.
    destruct (configured_names _ _ Hn) as [-> | [-> | [-> | ->]]];
      vm_compute; eauto. }
  split.
  - exact (proj2 (H Hreg) "x" 0.5 eq_refl).
  - exact (proj2 (H Hreg) "y" 0 eq_refl).
Defined.

(* ===================================================================== *)
(** * Placeholder and label                                               *)
(* ===================================================================== *)

Lemma hoare_this_bind {B : Type} P Q (k : Component.t -> M B) :
  (forall c0, P c0 -> hoare (fun c => c = c0) (k c0) Q) ->
  hoare P (this ≫= k) Q.
Proof.
  intros Hk c HP. specialize (Hk c HP c eq_refl).
  unfold after, mbind, M_bind, this in *. cbn.
  destruct (k c c) as [[r c''] l']. exact Hk.
Qed.

Lemma hoare_bind_keeps {A B : Type} P Q (m : M A) (k : A -> M B) :
  keeps P m -> (forall a, hoare P (k a) Q) -> (forall c, P c -> Q c) ->
  hoare P (m ≫= k) Q.
Proof. apply hoare_bind. Qed.

Ltac as_keeps :=
  lazymatch goal with |- hoare ?P ?m _ => change (keeps P m) end.

(** The count of continuations pending for a node, along the two ways
    the list changes. *)
Lemma pendingFor_app i c l j ret :
  Component.pending c = (l ++ [(j, ret)])%list ->
  pendingFor i c
  = (length (List.filter (fun p => Nat.eqb (fst p) i) l)
     + (if Nat.eqb j i then 1 else 0))%nat.
Proof.
  intros H. unfold pendingFor. rewrite H, List.filter_app, length_app. cbn.
  destruct (Nat.eqb j i); reflexivity.
Qed.

Lemma filter_delete_length (p : nat * nat -> bool) l k x :
  l !! k = Some x ->
  (length (List.filter p (delete k l)) + (if p x then 1 else 0))%nat
  = length (List.filter p l).
Proof.
  revert k. induction l as [|y l IH]; intros k Hk; [discriminate Hk|].
  destruct k as [|k]; cbn in *.
  - injection Hk as ->. destruct (p x); cbn; lia.
  - specialize (IH k Hk). destruct (p y); cbn; [f_equal|]; exact IH.
Qed.

(** What each handler does to the list of pending continuations. *)
Lemma pending_untouched getIntersection l e :
  writesPending e = false ->
  keeps (pendingIs l) (dispatch getIntersection e).
Proof.
  destruct e; cbn [writesPending dispatch]; intros Hw;
    try discriminate Hw;
    unfold init, ensureForceGraph, tick, tickFrame, onEngineTick,
      onEngineStop;
    keeps_auto.
Qed.

Lemma pending_makeHTMLText l i :
  hoare (pendingIs l) (makeHTMLText i)
        (fun c => Component.pending c = l
                  \/ exists ret, Component.pending c = (l ++ [(i, ret)])%list).
Proof.
  unfold makeHTMLText.
  do 11 (apply hoare_bind_keeps;
         [unfold fresh; keeps_auto | intros ? | intros ? ?; left; assumption]).
  apply hoare_this_bind. intros c0 Hc0 c ->.
  unfold pendingIs in Hc0. unfold_m. cbn. rewrite Hc0. eauto.
Qed.

Lemma pending_createNodeObject l i :
  hoare (pendingIs l) (createNodeObject i)
        (fun c => Component.pending c = l
                  \/ exists ret, Component.pending c = (l ++ [(i, ret)])%list).
Proof.
  unfold createNodeObject.
  apply hoare_bind_keeps;
    [keeps_auto | intros fg | intros ? ?; left; assumption].
  destruct (ThreeForceGraph.nodeThreeObject fg);
    [|intros c Hc; left; exact Hc].
  eapply hoare_bind; [apply pending_makeHTMLText | intros ret | auto].
  as_keeps. frame.
Qed.

Lemma pending_graphBuilt l ns :
  hoare (pendingIs l) (graphBuilt ns)
        (fun c => Component.pending c = l \/ Component.pending c = []).
Proof.
  unfold graphBuilt.
  apply hoare_bind_keeps;
    [keeps_auto | intros _ | intros ? ?; left; assumption].
  apply (hoare_bind (pendingIs l) (pendingIs []));
    [intros c _; reflexivity | intros _ | intros ? ?; right; assumption].
  assert (Hk : keeps (pendingIs [])
                 (fg ← theForceGraph;
                  if ThreeForceGraph.finishUpdateHook fg
                  then onFinishUpdate else skip))
    by (unfold onFinishUpdate; keeps_auto).
  intros c Hc. right. exact (Hk c Hc).
Qed.

Lemma pending_resolveReady l k :
  hoare (pendingIs l) (resolveReady k)
        (fun c => Component.pending c
                  = match l !! k with Some _ => delete k l | None => l end).
Proof.
  unfold resolveReady. apply hoare_this_bind. intros c0 Hc0.
  unfold pendingIs in Hc0. rewrite Hc0.
  destruct (l !! k) as [[j ret]|]; [|intros c ->; exact Hc0].
  apply (hoare_bind _ (pendingIs (delete k l)));
    [intros c _; reflexivity | intros _ | auto].
  as_keeps. frame.
Qed.

(** One event: a continuation that runs for node [i] leaves the pending
    list, and only a build for node [i] adds one. *)
Lemma transition_step getIntersection i c e :
  ((if readyFor i c e then 1 else 0)
   + pendingFor i (fst (step getIntersection c e)))%nat
  <= (pendingFor i c + (if buildFor i e then 1 else 0))%nat.
Proof.
  unfold step. cbn [fst].
  destruct (writesPending e) eqn:Hw.
  - destruct e; try discriminate Hw; cbn [readyFor buildFor dispatch].
    + destruct (pending_graphBuilt (Component.pending c) ns c eq_refl)
        as [H | H]; unfold pendingFor; rewrite H; cbn; lia.
    + destruct (pending_createNodeObject (Component.pending c) i0 c eq_refl)
        as [H | [ret H]].
      * unfold pendingFor at 1. rewrite H. fold (pendingFor i c). lia.
      * rewrite (pendingFor_app i _ _ _ _ H). fold (pendingFor i c). lia.
    + pose proof (pending_resolveReady (Component.pending c) k c eq_refl)
        as H. cbn beta in H.
      unfold pendingFor at 1. rewrite H.
      destruct (Component.pending c !! k) as [[j ret]|] eqn:Hk.
      * pose proof (filter_delete_length
                      (fun p => Nat.eqb (fst p) i) _ k (j, ret) Hk) as Hd.
        cbn [fst] in Hd. unfold pendingFor. lia.
      * fold (pendingFor i c). lia.
  - pose proof (pending_untouched getIntersection (Component.pending c) e Hw
                                  c eq_refl) as H.
    unfold pendingIs in H. unfold pendingFor at 1. rewrite H.
    fold (pendingFor i c).
    destruct e; try discriminate Hw; cbn [readyFor buildFor]; lia.
Qed.

Lemma makeHTMLText_run i c fg node :
  Component.forceGraph c = Some fg ->
  ThreeForceGraph.nodes fg !! i = Some node ->
  exists c',
    makeHTMLText i c
    = (Normal (Component.nextId c), c', [Invoke "makeHTMLText"])
    /\ boxOf i c'
       = Some (mkMesh (S (Component.nextId c)) (Node.color node)
                      (Data.nodeOpacity (Component.data c)) 0)
    /\ generatorOf i c'
       = Some (mkHtmlGenerator (S (S (Component.nextId c))) (Node.name node)
                 (Node.color node) (Data.textSize (Component.data c)) None)
    /\ Component.pending c'
       = (Component.pending c ++ [(i, Component.nextId c)])%list.
Proof.
  intros Hfg Hnode.
  assert (Hi : i < length (ThreeForceGraph.nodes fg))
    by (eapply lookup_lt_Some; exact Hnode).
  destruct c; cbn in Hfg; subst.
  unfold makeHTMLText, fresh, modifyNode, modifyObject, theNode,
    modifyForceGraph, theForceGraph, boxOf, generatorOf, nodeAt.
  unfold_m. cbn.
  repeat (first [ rewrite Hnode
                | rewrite list_lookup_insert_eq
                    by (rewrite ?length_insert; exact Hi) ]; cbn).
  eexists. split; [reflexivity|]. cbn.
  repeat (rewrite list_lookup_insert_eq
            by (rewrite ?length_insert; exact Hi); cbn).
  repeat split.
Qed.

Lemma contentReady_run i ret c fg node gen :
  Component.forceGraph c = Some fg ->
  ThreeForceGraph.nodes fg !! i = Some node ->
  Node.htmlGenerator node = Some gen ->
  completion (contentReady i ret c) = Normal tt
  /\ boxOf i (after (contentReady i ret c)) = None
  /\ generatorOf i (after (contentReady i ret c))
     = Some (mkHtmlGenerator (genId gen) (genText gen) (genColor gen)
               (genSize gen) (Some (Data.nodeOpacity (Component.data c)))).
Proof.
  intros Hfg Hnode Hgen.
  assert (Hi : i < length (ThreeForceGraph.nodes fg))
    by (eapply lookup_lt_Some; exact Hnode).
  destruct c; cbn in Hfg; subst.
  unfold contentReady, modifyNode, modifyObject, theNode,
    modifyForceGraph, theForceGraph, boxOf, generatorOf, nodeAt.
  unfold_m. cbn. rewrite Hnode. cbn. rewrite Hgen. cbn.
  repeat (first [ rewrite Hnode
                | rewrite list_lookup_insert_eq
                    by (rewrite ?length_insert; exact Hi) ]; cbn).
  destruct (Node._box node); cbn;
    repeat (rewrite list_lookup_insert_eq
              by (rewrite ?length_insert; exact Hi); cbn);
    repeat split.
Qed.

Lemma run_cons getIntersection c e rest :
  fst (run getIntersection c (e :: rest))
  = fst (run getIntersection (fst (step getIntersection c e)) rest).
Proof.
  cbn [run]. destruct (step getIntersection c e) as [c' l]. cbn [fst].
  destruct (run getIntersection c' rest) as [c'' l']. reflexivity.
Qed.

Lemma transitions_bounded getIntersection i es c :
  (transitions getIntersection i c es
   + pendingFor i (fst (run getIntersection c es)))%nat
  <= (pendingFor i c + builds i es)%nat.
Proof.
  revert c. induction es as [|e rest IH]; intros c.
  - cbn. unfold builds. cbn. lia.
  - rewrite run_cons. cbn [transitions]. unfold builds. cbn [List.filter].
    specialize (IH (fst (step getIntersection c e))).
    pose proof (transition_step getIntersection i c e) as Hstep.
    unfold builds in IH.
    destruct (readyFor i c e), (buildFor i e); cbn [length] in *; lia.
Qed.

(** C6, as stated, fails: right after [makeHTMLText] the placeholder is
    still there and the ready continuation is still pending, yet the very
    next frame ticks the label's generator while it spins the box. *)
Lemma label_ticked_before_transition :
  (rotationZ <$> boxOf 0 labelled) = Some 0%float
  /\ Component.pending labelled = [(0%nat, 0%nat)]
  /\ snd (step noHit labelled (Tick movingFrame))
     = [ GetInteractors; TickFrame; CameraUpdateMatrices; HtmlTick 0 16;
         TraverseVisible; Invoke "scaleToFit"; UpdateMatrix ]
  /\ (rotationZ <$> boxOf 0 (fst (step noHit labelled (Tick movingFrame))))
     = Some 0.03%float.
Proof. repeat split; vm_compute; reflexivity. Qed.

(** C6, amended: in every frame a node's placeholder is spun exactly
    while its reference is non-null, and the label's generator is ticked
    whenever it exists -- which is from [makeHTMLText] on, before the
    placeholder is cleared as well as after.  [makeHTMLText] sets both
    the placeholder and the generator; the ready continuation clears the
    placeholder and keeps the generator; and along any sequence of events
    that continuation runs for a node at most as often as visuals were
    built for it, so at most once for a node built once. *)
Theorem placeholder_then_label getIntersection q t i node objs c es :
  (Node._box (fst (fst (tickNode q t i node objs)))
   = spin <$> Node._box node
   /\ Node.htmlGenerator (fst (fst (tickNode q t i node objs)))
      = Node.htmlGenerator node
   /\ snd (tickNode q t i node objs)
      = match Node.htmlGenerator node with
        | Some _ => [HtmlTick i t]
        | None => []
        end)
  /\ (forall fg,
        Component.forceGraph c = Some fg ->
        ThreeForceGraph.nodes fg !! i = Some node ->
        completion (makeHTMLText i c) = Normal (Component.nextId c)
        /\ is_Some (boxOf i (after (makeHTMLText i c)))
        /\ is_Some (generatorOf i (after (makeHTMLText i c))))
  /\ (forall fg ret,
        Component.forceGraph c = Some fg ->
        ThreeForceGraph.nodes fg !! i = Some node ->
        is_Some (Node.htmlGenerator node) ->
        completion (contentReady i ret c) = Normal tt
        /\ boxOf i (after (contentReady i ret c)) = None
        /\ is_Some (generatorOf i (after (contentReady i ret c))))
  /\ (transitions getIntersection i c es
      + pendingFor i (fst (run getIntersection c es)))%nat
     <= (pendingFor i c + builds i es)%nat.
Proof.
  split; [|split; [|split]].
  - unfold tickNode. cbn [fst snd].
    destruct (Node._box node) eqn:Hbox; cbn; rewrite ?Hbox; repeat split.
  - intros fg Hfg Hnode.
    destruct (makeHTMLText_run i c fg node Hfg Hnode)
      as (c' & Hrun & Hbox & Hgen & _).
    rewrite Hrun. cbn [completion after fst snd].
    rewrite Hbox, Hgen. repeat split; eauto.
  - intros fg ret Hfg Hnode [gen Hgen].
    destruct (contentReady_run i ret c fg node gen Hfg Hnode Hgen)
      as (Hc & Hbox & Hg).
    rewrite Hg. repeat split; eauto.
  - apply transitions_bounded.
Qed.

Lemma placeholder_then_label_witness :
  is_Some (boxOf 0 (after (makeHTMLText 0 built)))
  /\ boxOf 0 (after (contentReady 0 0 labelled)) = None
  /\ (transitions noHit 0 built
        [CreateNodeObject 0; Tick movingFrame; ContentReady 0;
         ContentReady 0; Tick movingFrame]
      + 0 <= 1)%nat.
Proof.
  pose (H := placeholder_then_label noHit Quaternion.identity 0%float 0%nat
               (Node.mk (VString "a") (VString "red") None None None) ∅).
  split; [|split].
  - exact (proj1 (proj2 (proj1 (proj2 (H built [])) _ eq_refl eq_refl))).
  - refine (proj1 (proj2 (proj1 (proj2 (proj2
              (placeholder_then_label noHit Quaternion.identity 0%float 0%nat
                 _ ∅ labelled []))) _ 0%nat eq_refl eq_refl _))).
    vm_compute. eauto.
  - exact (proj2 (proj2 (proj2
             (H built [CreateNodeObject 0; Tick movingFrame; ContentReady 0;
                       ContentReady 0; Tick movingFrame])))).
Defined.

(* ===================================================================== *)
(** * Further properties of the methods                                   *)
(* ===================================================================== *)

(** X1: [init] leaves the running flag cleared, installs the
    finish-update callback, registers the three positioning forces under
    x, y and z, and takes the interaction flags from the configuration. *)
Theorem init_installs c :
  let c' := after (init c) in
  completion (init c) = Normal tt
  /\ Component.running c' = false
  /\ (ThreeForceGraph.finishUpdateHook <$> Component.forceGraph c')
     = Some true
  /\ forceOf "x" c' = Some d3ForceX
  /\ forceOf "y" c' = Some d3ForceY
  /\ forceOf "z" c' = Some d3ForceZ
  /\ Component.isInteractive c' = Data.isInteractive (Component.data c)
  /\ Component.isNetworked c' = Data.isNetworked (Component.data c)
  /\ Component.isDraggable c' = Data.isDraggable (Component.data c)
  /\ Component.clickEvent c' = None
  /\ Component.clickIntersection c' = None.
Proof.
  cbv zeta.
  unfold init, ensureForceGraph, d3ForceSet, modifyForceGraph, theForceGraph,
    forceOf.
  unfold_m. destruct c as [d r [fg|] ? ? ? ? ? ? ? ? ? ? ? ? ?]; cbn;
    repeat split;
    repeat first [ rewrite lookup_insert_eq
                 | rewrite lookup_insert_ne by discriminate ];
    reflexivity.
Qed.

(** X2: the engine-stop callback clears the running flag, rescales once
    and then announces [updatePortals]. *)
Theorem onEngineStop_rescales_once c fg :
  Component.forceGraph c = Some fg ->
  completion (onEngineStop c) = Normal tt
  /\ Component.running (after (onEngineStop c)) = false
  /\ invocations "scaleToFit" (effects (onEngineStop c)) = 1%nat
  /\ List.last (effects (onEngineStop c)) TickFrame = Emit "updatePortals".
Proof.
  intros Hfg. unfold onEngineStop.
  rewrite (bind_normal _ _ _ tt _ [] eq_refl).
  destruct (scaleToFit_runs (Component.set_running false c) fg Hfg)
    as (c' & l & Hrun & _ & Hflag & Hn).
  rewrite (bind_normal _ _ _ _ _ _ Hrun).
  cbn [completion after effects fst snd perform app].
  split; [reflexivity|]. split; [exact Hflag|]. split.
  - count_invocations. rewrite Hn. reflexivity.
  - apply List.last_last.
Qed.

Lemma onEngineStop_rescales_once_witness :
  Component.running (after (onEngineStop built)) = false
  /\ invocations "scaleToFit" (effects (onEngineStop built)) = 1%nat.
Proof.
  pose proof (onEngineStop_rescales_once built _ eq_refl) as (_ & H1 & H2 & _).
  exact (conj H1 H2).
Defined.

(** X3: the finish-update callback raises the running flag, installs the
    engine-stop and engine-tick callbacks and attaches the graph to the
    container under [forcegraphGroup] unless it is there already. *)
Theorem onFinishUpdate_starts c fg :
  Component.forceGraph c = Some fg ->
  let c' := after (onFinishUpdate c) in
  completion (onFinishUpdate c) = Normal tt
  /\ Component.running c' = true
  /\ Component.forcegraphGroup c' = true
  /\ (ThreeForceGraph.engineStopHook <$> Component.forceGraph c') = Some true
  /\ (ThreeForceGraph.engineTickHook <$> Component.forceGraph c') = Some true
  /\ effects (onFinishUpdate c)
     = if Component.forcegraphGroup c then []
       else [SetObject3D "forcegraphGroup"].
Proof.
  intros Hfg. cbv zeta.
  unfold onFinishUpdate, modifyForceGraph, theForceGraph. unfold_m.
  destruct c as [? ? ? ? ? ? ? ? ? ? ? [|] ? ? ? ?]; cbn in *; subst; cbn;
    repeat split.
Qed.

Lemma onFinishUpdate_starts_witness :
  Component.running (after (onFinishUpdate initialised)) = true.
Proof.
  exact (proj1 (proj2 (onFinishUpdate_starts initialised _ eq_refl))).
Defined.
(* ===================================================================== *)
(** * Properties of the graph object along a run                          *)
(* ===================================================================== *)

Section GraphInvariant.

(** A property of the graph object that every write of the component
    to it respects is kept by every handler. *)
Variable need : bool.
Variable G : ThreeForceGraph.t -> Prop.
Hypothesis G_new : need = false -> G ThreeForceGraph.new.
Hypothesis G_scale :
  forall s fg, G fg -> G (ThreeForceGraph.set_scale (Vector3.set s s s) fg).
Hypothesis G_forces :
  forall name f fg,
    G fg ->
    G (ThreeForceGraph.set_forces
         (<[name := f]> (ThreeForceGraph.forces fg)) fg).
Hypothesis G_props :
  forall v fg, G fg -> G (ThreeForceGraph.set_props v fg).
Hypothesis G_nodeThreeObject :
  forall fg, G fg -> G (ThreeForceGraph.set_nodeThreeObject true fg).
Hypothesis G_engineStops :
  forall fg, G fg -> G (ThreeForceGraph.set_engineRunning false fg).
Hypothesis G_engineStarts :
  forall fg, G fg -> G (ThreeForceGraph.set_engineRunning true fg).
Hypothesis G_finishUpdateHook :
  forall fg, G fg -> G (ThreeForceGraph.set_finishUpdateHook true fg).
Hypothesis G_engineStopHook :
  forall fg, G fg -> G (ThreeForceGraph.set_engineStopHook true fg).
Hypothesis G_engineTickHook :
  forall fg, G fg -> G (ThreeForceGraph.set_engineTickHook true fg).
Hypothesis G_graphBbox :
  forall v fg, G fg -> G (ThreeForceGraph.set_graphBbox v fg).
Hypothesis G_nodes :
  forall v fg, G fg -> G (ThreeForceGraph.set_nodes v fg).
Hypothesis G_objects :
  forall v fg, G fg -> G (ThreeForceGraph.set_objects v fg).

Lemma graph_modify f :
  (forall c, Component.forceGraph (f c) = Component.forceGraph c) ->
  keeps (whenGraph need G) (modify f).
Proof.
  intros Hf. apply keeps_modify. intros c. unfold whenGraph.
  rewrite Hf. exact (fun H => H).
Qed.

Lemma graph_modifyForceGraph f :
  (forall fg, G fg -> G (f fg)) ->
  keeps (whenGraph need G) (modifyForceGraph f).
Proof.
  intros Hf c. unfold whenGraph, modifyForceGraph, theForceGraph. unfold_m.
  destruct (Component.forceGraph c) as [fg|] eqn:Hfg; cbn; rewrite ?Hfg.
  - apply Hf.
  - exact (fun H => H).
Qed.

Lemma graph_ensureForceGraph :
  hoare (whenGraph need G) ensureForceGraph (whenGraph true G).
Proof.
  intros c. unfold whenGraph, ensureForceGraph. unfold_m.
  destruct (Component.forceGraph c) as [fg|] eqn:Hfg; cbn; rewrite ?Hfg.
  - exact (fun H => H).
  - exact G_new.
Qed.

Lemma whenGraph_weaken c : whenGraph true G c -> whenGraph need G c.
Proof.
  unfold whenGraph. destruct (Component.forceGraph c); [auto|discriminate].
Qed.

Lemma graph_ensureForceGraph_keeps : keeps (whenGraph need G) ensureForceGraph.
Proof. intros c H. apply whenGraph_weaken, graph_ensureForceGraph, H. Qed.

Lemma graph_d3ReheatSimulation : keeps (whenGraph need G) d3ReheatSimulation.
Proof.
  intros c. unfold whenGraph, d3ReheatSimulation, engineReheat. unfold_m.
  destruct (Component.forceGraph c) as [fg|] eqn:Hfg; cbn; rewrite ?Hfg.
  - apply G_engineStarts.
  - exact (fun H => H).
Qed.

End GraphInvariant.

(** One step of a proof that a method keeps a property of the graph
    object. *)
Ltac graph_step :=
  lazymatch goal with
  | |- keeps _ (modifyForceGraph _) =>
      apply graph_modifyForceGraph; intros ? ?; cbv beta; auto
  | |- keeps _ (modifyNode _ _) =>
      unfold modifyNode
  | |- keeps _ (modifyObject _ _) =>
      unfold modifyObject
  | |- keeps _ (d3ForceSet _ _) =>
      unfold d3ForceSet
  | |- keeps _ (modify _) => apply graph_modify; intros ?; reflexivity
  | |- keeps _ ensureForceGraph => apply graph_ensureForceGraph_keeps; auto
  | |- keeps _ d3ReheatSimulation => apply graph_d3ReheatSimulation; auto
  | |- _ => keeps_step
  end.

Section GraphInvariantRun.

Variable need : bool.
Variable G : ThreeForceGraph.t -> Prop.
Hypothesis G_new : need = false -> G ThreeForceGraph.new.
Hypothesis G_scale :
  forall s fg, G fg -> G (ThreeForceGraph.set_scale (Vector3.set s s s) fg).
Hypothesis G_forces :
  forall name f fg,
    G fg ->
    G (ThreeForceGraph.set_forces
         (<[name := f]> (ThreeForceGraph.forces fg)) fg).
Hypothesis G_props :
  forall v fg, G fg -> G (ThreeForceGraph.set_props v fg).
Hypothesis G_nodeThreeObject :
  forall fg, G fg -> G (ThreeForceGraph.set_nodeThreeObject true fg).
Hypothesis G_engineStops :
  forall fg, G fg -> G (ThreeForceGraph.set_engineRunning false fg).
Hypothesis G_engineStarts :
  forall fg, G fg -> G (ThreeForceGraph.set_engineRunning true fg).
Hypothesis G_finishUpdateHook :
  forall fg, G fg -> G (ThreeForceGraph.set_finishUpdateHook true fg).
Hypothesis G_engineStopHook :
  forall fg, G fg -> G (ThreeForceGraph.set_engineStopHook true fg).
Hypothesis G_engineTickHook :
  forall fg, G fg -> G (ThreeForceGraph.set_engineTickHook true fg).
Hypothesis G_graphBbox :
  forall v fg, G fg -> G (ThreeForceGraph.set_graphBbox v fg).
Hypothesis G_nodes :
  forall v fg, G fg -> G (ThreeForceGraph.set_nodes v fg).
Hypothesis G_objects :
  forall v fg, G fg -> G (ThreeForceGraph.set_objects v fg).

Lemma graph_scaleToFit : keeps (whenGraph need G) scaleToFit.
Proof. unfold scaleToFit. repeat graph_step. Qed.

Lemma graph_tick f : keeps (whenGraph need G) (tick f).
Proof.
  unfold tick, interactionPhase, syncPhase, tickFrame, onEngineStop,
    onEngineTick, billboardPhase.
  repeat first [ apply graph_scaleToFit | graph_step ].
Qed.

Lemma graph_update inDiff : keeps (whenGraph need G) (update inDiff).
Proof.
  unfold update, forwardProp, d3ForceStrength. repeat graph_step.
Qed.

Lemma graph_init : keeps (whenGraph need G) init.
Proof. unfold init. repeat graph_step. Qed.

Lemma graph_makeHTMLText i : keeps (whenGraph need G) (makeHTMLText i).
Proof. unfold makeHTMLText, fresh. repeat graph_step. Qed.

(** The handlers that do not start the engine. *)
Lemma graph_dispatch_calm getIntersection e :
  restarts e = false ->
  keeps (whenGraph need G) (dispatch getIntersection e).
Proof.
  destruct e; cbn [dispatch restarts]; intros He; try discriminate He.
  - apply graph_init.
  - repeat graph_step.
  - repeat graph_step.
  - apply keeps_bind; [graph_step|intros _; apply graph_update].
  - unfold createNodeObject.
    repeat first [ apply graph_makeHTMLText | graph_step ].
  - unfold resolveReady, contentReady. repeat graph_step.
  - unfold clicked. repeat graph_step.
  - unfold dragStart, startDrag. repeat graph_step.
  - unfold dragEnd, endDrag. repeat graph_step.
  - apply graph_tick.
Qed.

Lemma graph_dispatch getIntersection e :
  keeps (whenGraph need G) (dispatch getIntersection e).
Proof.
  destruct (restarts e) eqn:He;
    [|exact (graph_dispatch_calm getIntersection e He)].
  destruct e; try discriminate He; cbn [dispatch].
  - unfold graphBuilt, onFinishUpdate. repeat graph_step.
  - graph_step.
Qed.

Lemma graph_run getIntersection es c :
  whenGraph need G c -> whenGraph need G (fst (run getIntersection c es)).
Proof.
  revert c. induction es as [|e rest IH]; intros c Hc; [exact Hc|].
  rewrite run_cons. apply IH. exact (graph_dispatch getIntersection e c Hc).
Qed.

End GraphInvariantRun.

(* ===================================================================== *)
(** * A frame, written out                                                *)
(* ===================================================================== *)

Lemma set_forceGraph_same c fg :
  Component.forceGraph c = Some fg -> Component.set_forceGraph (Some fg) c = c.
Proof. destruct c; cbn; intros ->; reflexivity. Qed.

Lemma scaleToFit_run c fg :
  Component.forceGraph c = Some fg ->
  scaleToFit c
  = (Normal tt,
     Component.set_forceGraph (Some (fitted (Component.data c) fg)) c,
     rescaleEffects (ThreeForceGraph.graphBbox fg)).
Proof.
  intros Hfg. unfold fitted, rescaleEffects.
  destruct (ThreeForceGraph.graphBbox fg) as [bbox|] eqn:Hbb.
  - exact (scaleToFit_bbox c fg bbox Hfg Hbb).
  - rewrite (scaleToFit_no_bbox c fg Hfg Hbb), (set_forceGraph_same c fg Hfg).
    reflexivity.
Qed.

Lemma tickNodes_run q t ns : forall i objs,
  tickNodes q t i ns objs
  = (List.map spinNode ns, billboarded q ns objs, labelTicks t i ns).
Proof.
  induction ns as [|node rest IH]; intros i objs; cbn [tickNodes];
    [reflexivity|].
  unfold tickNode. rewrite IH. reflexivity.
Qed.

Lemma billboardPhase_run f c fg :
  Component.forceGraph c = Some fg ->
  billboardPhase f c
  = (Normal tt,
     Component.set_forceGraph (Some (turned f fg))
       (Component.set_nodeQuaternion (facing f)
          (Component.set_cameraQuaternion (cameraWorld f) c)),
     (CameraUpdateMatrices
      :: labelTicks (time f) 0 (ThreeForceGraph.nodes fg)
      ++ [TraverseVisible])%list).
Proof.
  intros Hfg. unfold billboardPhase, modifyForceGraph, theForceGraph.
  unfold_m. destruct c; cbn in *. subst. cbn.
  rewrite tickNodes_run. cbn. rewrite ?app_nil_r. reflexivity.
Qed.

Lemma tickFrame_run f c fg :
  Component.forceGraph c = Some fg ->
  tickFrame f c
  = (Normal tt,
     Component.set_forceGraph (Some (stepped f (Component.data c) fg))
       (Component.set_running
          (if convergesNow f c then false else Component.running c) c),
     (TickFrame
      :: (if convergesNow f c
          then rescaleEffects (ThreeForceGraph.graphBbox fg)
               ++ [Emit "updatePortals"]
          else []))%list).
Proof.
  intros Hfg. unfold tickFrame, convergesNow, stepped. rewrite Hfg.
  rewrite (bind_normal _ _ _ _ _ _ (theForceGraph_some c fg Hfg)).
  rewrite (bind_normal _ _ c tt c [TickFrame]) by reflexivity.
  destruct c; cbn in *; subst.
  destruct (ThreeForceGraph.engineRunning fg) eqn:He; cbn; [|reflexivity].
  destruct (cooldownReached f); cbn.
  - unfold onEngineStop, scaleToFit, modifyForceGraph, theForceGraph, fitted,
      rescaleEffects.
    unfold_m. cbn.
    destruct (ThreeForceGraph.engineStopHook fg); cbn; [|reflexivity].
    destruct (ThreeForceGraph.graphBbox fg); reflexivity.
  - unfold modifyForceGraph, theForceGraph, onEngineTick. unfold_m. cbn.
    destruct (ThreeForceGraph.engineTickHook fg); reflexivity.
Qed.

Lemma fitted_nodes d fg :
  ThreeForceGraph.nodes (fitted d fg) = ThreeForceGraph.nodes fg.
Proof. unfold fitted. destruct (ThreeForceGraph.graphBbox fg); reflexivity. Qed.

Lemma fitted_objects d fg :
  ThreeForceGraph.objects (fitted d fg) = ThreeForceGraph.objects fg.
Proof. unfold fitted. destruct (ThreeForceGraph.graphBbox fg); reflexivity. Qed.

Lemma stepped_nodes f d fg :
  ThreeForceGraph.nodes (stepped f d fg) = ThreeForceGraph.nodes fg.
Proof.
  unfold stepped.
  repeat match goal with |- context [if ?b then _ else _] => destruct b end;
    rewrite ?fitted_nodes; reflexivity.
Qed.

Lemma stepped_objects f d fg :
  ThreeForceGraph.objects (stepped f d fg) = ThreeForceGraph.objects fg.
Proof.
  unfold stepped.
  repeat match goal with |- context [if ?b then _ else _] => destruct b end;
    rewrite ?fitted_objects; reflexivity.
Qed.

Lemma fitted_graphBbox d fg :
  ThreeForceGraph.graphBbox (fitted d fg) = ThreeForceGraph.graphBbox fg.
Proof.
  unfold fitted. destruct (ThreeForceGraph.graphBbox fg) eqn:H;
    [exact H|exact H].
Qed.

Lemma stepped_graphBbox f d fg :
  ThreeForceGraph.graphBbox (stepped f d fg) = bboxAfter f fg.
Proof.
  unfold stepped, bboxAfter.
  destruct (ThreeForceGraph.engineRunning fg), (cooldownReached f),
    (ThreeForceGraph.engineStopHook fg);
    cbn [andb negb]; rewrite ?fitted_graphBbox; reflexivity.
Qed.

Lemma synced_data c : Component.data (synced c) = Component.data c.
Proof.
  unfold synced. destruct (Component.isNetworked c); [|reflexivity].
  destruct (Component.stateSync c) as [s|]; [|reflexivity].
  destruct (changed s); reflexivity.
Qed.

Lemma tick_run f c fg :
  Component.forceGraph c = Some fg ->
  networkPending c = false ->
  tick f c = (Normal tt, frameState f c fg, frameEffects f c fg).
Proof.
  intros Hfg Hnp. unfold tick, frameState, frameEffects.
  assert (Hconv : convergesNow f (synced c) = convergesNow f c).
  { unfold convergesNow. rewrite synced_forceGraph. reflexivity. }
  rewrite (bind_normal _ _ _ _ _ _ (interactionPhase_run f c)).
  rewrite (bind_normal _ _ c c c [] eq_refl). rewrite Hnp.
  rewrite (bind_normal _ _ _ _ _ _ (syncPhase_run c Hnp)).
  assert (Hfg1 : Component.forceGraph (synced c) = Some fg)
    by (rewrite synced_forceGraph; exact Hfg).
  rewrite (bind_normal _ _ _ _ _ _ (tickFrame_run f (synced c) fg Hfg1)).
  rewrite Hconv, synced_data, synced_running.
  rewrite (bind_normal _ _ _ _ _ _
             (billboardPhase_run f
                (Component.set_forceGraph
                   (Some (stepped f (Component.data c) fg))
                   (Component.set_running
                      (if convergesNow f c then false
                       else Component.running c) (synced c)))
                _ eq_refl)).
  rewrite stepped_nodes.
  rewrite (bind_normal _ _ _ _ _ [] eq_refl).
  cbn [Component.running Component.set_forceGraph Component.set_running
       Component.set_nodeQuaternion Component.set_cameraQuaternion
       completion after effects fst snd].
  destruct (convergesNow f c); cbn [negb andb].
  - cbn. rewrite ?app_nil_r. reflexivity.
  - destruct (Component.running c) eqn:Hr; cbn [negb andb].
    + erewrite scaleToFit_run by reflexivity. cbn.
      rewrite synced_data, <- app_assoc, stepped_graphBbox. reflexivity.
    + cbn. rewrite ?app_nil_r. reflexivity.
Qed.

Lemma billboarded_cons q node ns objs :
  billboarded q (node :: ns) objs
  = billboarded q ns
      (match Node.__threeObj node with
       | Some id => alter (Object3D.set_quaternion q) id objs
       | None => objs
       end).
Proof. reflexivity. Qed.

Lemma lookup_billboarded q ns : forall objs id,
  billboarded q ns objs !! id
  = if isNodeObject id ns
    then Object3D.set_quaternion q <$> objs !! id
    else objs !! id.
Proof.
  induction ns as [|node rest IH]; intros objs id; [reflexivity|].
  rewrite billboarded_cons, IH. cbn [isNodeObject existsb].
  fold (isNodeObject id rest).
  destruct (Node.__threeObj node) as [id'|]; [|reflexivity].
  rewrite lookup_alter. destruct (Nat.eqb_spec id' id) as [->|Hne].
  - rewrite decide_True by reflexivity. cbn [orb].
    destruct (isNodeObject id rest); [|reflexivity].
    destruct (objs !! id); reflexivity.
  - rewrite decide_False by exact Hne. reflexivity.
Qed.

Lemma synced_cases c :
  synced c = c
  \/ synced c = Component.set_stateSync (Some (mkStateSync false)) c.
Proof.
  unfold synced. destruct (Component.isNetworked c); [|auto].
  destruct (Component.stateSync c) as [s|]; [|auto].
  destruct (changed s); auto.
Qed.

Lemma tick_no_graph f c :
  Component.forceGraph c = None ->
  networkPending c = false ->
  tick f c
  = (Abrupt (TypeError "this.forceGraph is undefined"), synced c,
     hoverPolls f c).
Proof.
  intros Hfg Hnp. unfold tick.
  rewrite (bind_normal _ _ _ _ _ _ (interactionPhase_run f c)).
  rewrite (bind_normal _ _ c c c [] eq_refl). rewrite Hnp.
  rewrite (bind_normal _ _ _ _ _ _ (syncPhase_run c Hnp)).
  assert (Hrun : tickFrame f (synced c)
                 = (Abrupt (TypeError "this.forceGraph is undefined"),
                    synced c, [])).
  { unfold tickFrame, theForceGraph. unfold_m.
    rewrite synced_forceGraph, Hfg. reflexivity. }
  rewrite (bind_abrupt _ _ _ _ _ _ Hrun). cbn. rewrite app_nil_r.
  reflexivity.
Qed.

Lemma fitted_setup d fg : setup (fitted d fg) = setup fg.
Proof. unfold fitted. destruct (ThreeForceGraph.graphBbox fg); reflexivity. Qed.

Lemma stepped_setup f d fg : setup (stepped f d fg) = setup fg.
Proof.
  unfold stepped.
  destruct (ThreeForceGraph.engineRunning fg), (cooldownReached f),
    (ThreeForceGraph.engineStopHook fg);
    rewrite ?fitted_setup; reflexivity.
Qed.

(** The graph object at the end of a frame differs from the one at its
    start only in scale, engine state, bounding box, nodes and
    containers. *)
Lemma frameGraph_setup f c fg :
  setup <$> Component.forceGraph (frameState f c fg) = Some (setup fg).
Proof.
  unfold frameState. cbn. apply f_equal.
  destruct (negb (convergesNow f c) && Component.running c);
    rewrite ?fitted_setup; unfold turned;
    exact (stepped_setup f (Component.data c) fg).
Qed.

(** X4: the calls of a frame, in order: hover polling, the engine step
    (with the rescaling and the [updatePortals] event of the stop
    callback in the frame the engine converges), the camera update, the
    label ticks in the order of the nodes, the traversal of the visible
    objects, and last the rescaling of a component whose running flag
    is still set. *)
Theorem tick_effect_order f c fg :
  Component.forceGraph c = Some fg ->
  networkPending c = false ->
  completion (tick f c) = Normal tt
  /\ effects (tick f c)
     = (hoverPolls f c
        ++ [TickFrame]
        ++ (if convergesNow f c
            then rescaleEffects (ThreeForceGraph.graphBbox fg)
                 ++ [Emit "updatePortals"]
            else [])
        ++ [CameraUpdateMatrices]
        ++ labelTicks (time f) 0 (ThreeForceGraph.nodes fg)
        ++ [TraverseVisible]
        ++ (if negb (convergesNow f c) && Component.running c
            then rescaleEffects (bboxAfter f fg) else []))%list.
Proof.
  intros Hfg Hnp. rewrite (tick_run f c fg Hfg Hnp).
  split; reflexivity.
Qed.

Lemma tick_effect_order_witness :
  effects (tick movingFrame labelled)
  = [GetInteractors; TickFrame; CameraUpdateMatrices; HtmlTick 0 16;
     TraverseVisible; Invoke "scaleToFit"; UpdateMatrix].
Proof.
  exact (proj2 (tick_effect_order movingFrame labelled _ eq_refl eq_refl)).
Defined.

(** X5: in a frame the camera's world orientation is read anew, every
    container that is the visual of a node is turned to face the viewer
    (the inverse of the graph's world orientation composed with the
    camera's) and keeps its children and its scale, every other
    container is left alone, and every placeholder box is turned by
    0.03 about its z axis while the nodes keep their number, order,
    containers and label generators. *)
Theorem tick_turns_and_spins f c fg :
  Component.forceGraph c = Some fg ->
  networkPending c = false ->
  let c' := after (tick f c) in
  Component.cameraQuaternion c' = cameraWorld f
  /\ nodesOf c' = List.map spinNode (ThreeForceGraph.nodes fg)
  /\ forall id,
       objectOf id c'
       = if isNodeObject id (ThreeForceGraph.nodes fg)
         then Object3D.set_quaternion (facing f) <$> objectOf id c
         else objectOf id c.
Proof.
  intros Hfg Hnp. cbv zeta. rewrite (tick_run f c fg Hfg Hnp).
  cbn [after fst snd]. split; [reflexivity|].
  unfold nodesOf, objectOf. rewrite Hfg. unfold frameState.
  cbn [Component.forceGraph Component.set_forceGraph mbind option_bind].
  split.
  - destruct (negb (convergesNow f c) && Component.running c);
      rewrite ?fitted_nodes; cbn; apply f_equal, stepped_nodes.
  - intros id.
    destruct (negb (convergesNow f c) && Component.running c);
      rewrite ?fitted_objects; cbn;
      rewrite lookup_billboarded, stepped_nodes, stepped_objects;
      reflexivity.
Qed.

Lemma tick_turns_and_spins_witness :
  nodesOf (after (tick movingFrame labelled))
  = List.map spinNode (nodesOf labelled)
  /\ (Object3D.quaternion <$> objectOf 0 (after (tick movingFrame labelled)))
     = Some (facing movingFrame).
Proof.
  pose (H := tick_turns_and_spins movingFrame labelled _ eq_refl eq_refl).
  split; [exact (proj1 (proj2 H))|].
  exact (f_equal (fmap Object3D.quaternion) (proj2 (proj2 H) 0%nat)).
Defined.

Lemma fitted_scale_engine d v fg :
  ThreeForceGraph.scale (fitted d (ThreeForceGraph.set_engineRunning v fg))
  = ThreeForceGraph.scale (fitted d fg).
Proof. unfold fitted. cbn. destruct (ThreeForceGraph.graphBbox fg); reflexivity. Qed.

Lemma stepped_scale f c fg :
  Component.forceGraph c = Some fg ->
  ThreeForceGraph.scale (stepped f (Component.data c) fg)
  = if convergesNow f c
    then ThreeForceGraph.scale (fitted (Component.data c) fg)
    else ThreeForceGraph.scale fg.
Proof.
  intros Hfg. unfold stepped, convergesNow. rewrite Hfg.
  destruct (ThreeForceGraph.engineRunning fg), (cooldownReached f),
    (ThreeForceGraph.engineStopHook fg); cbn [andb];
    rewrite ?fitted_scale_engine; reflexivity.
Qed.

(** X6: the scale of the graph after a frame.  In the frame the engine
    reports convergence the stop callback fits the graph to the
    bounding box it had before the frame; in any other frame of a
    component whose running flag is set the graph is fitted to the
    bounding box of this frame's engine step; in every other frame the
    scale is left as it was. *)
Theorem tick_scale f c fg :
  Component.forceGraph c = Some fg ->
  networkPending c = false ->
  graphScale (after (tick f c))
  = Some (ThreeForceGraph.scale
            (if convergesNow f c then fitted (Component.data c) fg
             else if Component.running c
                  then fitted (Component.data c)
                         (ThreeForceGraph.set_graphBbox (bboxAfter f fg) fg)
                  else fg)).
Proof.
  intros Hfg Hnp. rewrite (tick_run f c fg Hfg Hnp).
  unfold graphScale, frameState.
  cbn [after fst snd Component.forceGraph Component.set_forceGraph fmap
       option_fmap option_map].
  apply f_equal.
  pose proof (stepped_scale f c fg Hfg) as Hs.
  pose proof (stepped_graphBbox f (Component.data c) fg) as Hb.
  destruct (convergesNow f c); cbn [negb andb]; [exact Hs|].
  destruct (Component.running c); [|exact Hs].
  unfold fitted at 1. unfold fitted at 1. cbn. rewrite Hb, Hs.
  destruct (bboxAfter f fg); cbn; rewrite ?Hs; reflexivity.
Qed.

Lemma tick_scale_witness :
  graphScale (after (tick movingFrame built)) = Some (uniform 0.5).
Proof.
  exact (tick_scale movingFrame built _ eq_refl eq_refl).
Defined.

(** X7: what a frame never writes: the configuration, the interaction
    flags, the click and drag state, the pending label continuations,
    and in the graph object the forces, the forwarded properties, the
    node accessor and the callbacks -- whether the frame ends early for
    the network, throws for a missing graph object, or runs through. *)
Theorem tick_leaves_configuration f c :
  let c' := after (tick f c) in
  Component.data c' = Component.data c
  /\ Component.isInteractive c' = Component.isInteractive c
  /\ Component.isNetworked c' = Component.isNetworked c
  /\ Component.isDraggable c' = Component.isDraggable c
  /\ Component.netEntity c' = Component.netEntity c
  /\ Component.clickEvent c' = Component.clickEvent c
  /\ Component.clickIntersection c' = Component.clickIntersection c
  /\ Component.isDragging c' = Component.isDragging c
  /\ Component.forcegraphGroup c' = Component.forcegraphGroup c
  /\ Component.pending c' = Component.pending c
  /\ Component.nextId c' = Component.nextId c
  /\ (setup <$> Component.forceGraph c') = (setup <$> Component.forceGraph c).
Proof.
  cbv zeta. destruct (networkPending c) eqn:Hnp.
  { rewrite (tick_pending_run f c Hnp). cbn [after fst snd]. repeat split. }
  destruct (Component.forceGraph c) as [fg|] eqn:Hfg.
  - rewrite (tick_run f c fg Hfg Hnp). cbn [after fst snd].
    rewrite frameGraph_setup. unfold frameState. cbn.
    destruct (synced_cases c) as [-> | ->]; repeat split.
  - rewrite (tick_no_graph f c Hfg Hnp). cbn [after fst snd].
    rewrite synced_forceGraph, Hfg.
    destruct (synced_cases c) as [-> | ->]; repeat split.
Qed.

(** X8: a remote change is consumed by the next frame of a networked
    component that has its networked entity: whatever the flag of the
    state-sync object was, it is cleared after the frame, also when the
    frame goes on to throw. *)
Theorem tick_consumes_remote_change f c s :
  Component.isNetworked c = true ->
  Component.netEntity c = true ->
  Component.stateSync c = Some s ->
  Component.stateSync (after (tick f c)) = Some (mkStateSync false).
Proof.
  intros Hnet Hent Hs.
  assert (Hnp : networkPending c = false).
  { unfold networkPending. rewrite Hnet, Hent, Hs. reflexivity. }
  assert (Hsync : Component.stateSync (synced c) = Some (mkStateSync false)).
  { unfold synced. rewrite Hnet, Hs. destruct s as [[|]]; cbn; [reflexivity|].
    exact Hs. }
  destruct (Component.forceGraph c) as [fg|] eqn:Hfg.
  - rewrite (tick_run f c fg Hfg Hnp). exact Hsync.
  - rewrite (tick_no_graph f c Hfg Hnp). exact Hsync.
Qed.

Lemma tick_consumes_remote_change_witness :
  Component.stateSync synchronised = Some (mkStateSync true)
  /\ Component.stateSync (after (tick movingFrame synchronised))
     = Some (mkStateSync false).
Proof.
  split; [reflexivity|].
  exact (tick_consumes_remote_change movingFrame synchronised _
           eq_refl eq_refl eq_refl).
Defined.

Lemma labelTicks_no_polls t ns : forall i,
  List.filter isHoverPoll (labelTicks t i ns) = [].
Proof.
  induction ns as [|node rest IH]; intros i; cbn [labelTicks]; [reflexivity|].
  rewrite List.filter_app, IH.
  destruct (Node.htmlGenerator node); reflexivity.
Qed.

Lemma hoverPolls_filter f c :
  List.filter isHoverPoll (hoverPolls f c) = hoverPolls f c.
Proof.
  apply forallb_filter_id, hoverPolls_only.
Qed.

Lemma tick_polls f c :
  List.filter isHoverPoll (effects (tick f c)) = hoverPolls f c.
Proof.
  destruct (networkPending c) eqn:Hnp.
  { rewrite (tick_pending_run f c Hnp). apply hoverPolls_filter. }
  destruct (Component.forceGraph c) as [fg|] eqn:Hfg.
  - rewrite (tick_run f c fg Hfg Hnp). cbn [effects snd]. unfold frameEffects.
    rewrite !List.filter_app, hoverPolls_filter, labelTicks_no_polls.
    unfold rescaleEffects.
    destruct (convergesNow f c), (Component.running c),
      (ThreeForceGraph.graphBbox fg), (bboxAfter f fg);
      cbn; rewrite ?app_nil_r; reflexivity.
  - rewrite (tick_no_graph f c Hfg Hnp). apply hoverPolls_filter.
Qed.

(** X9: hover polling and dragging.  An interactive component asks for
    the interactors and tests each of them once per frame, in order.
    While a drag the template accepted is active on a draggable
    component no frame polls; a drag start the template refused leaves
    the polling of the frames as it was, and after [dragEnd] the frames
    poll again. *)
Theorem drag_suspends_hover_polling f c :
  Component.isInteractive c = true ->
  Component.isDraggable c = true ->
  let polls := GetInteractors :: List.map GetIntersection (interactors f) in
  List.filter isHoverPoll (effects (tick f (after (dragStart true c)))) = []
  /\ List.filter isHoverPoll (effects (tick f (after (dragStart false c))))
     = List.filter isHoverPoll (effects (tick f c))
  /\ List.filter isHoverPoll (effects (tick f (after (dragEnd c)))) = polls.
Proof.
  intros Hi Hd. cbv zeta. rewrite !tick_polls. unfold hoverPolls.
  unfold dragStart, startDrag, dragEnd, endDrag. unfold_m. cbn.
  rewrite Hi, Hd. repeat split.
Qed.

Lemma drag_suspends_hover_polling_witness :
  List.filter isHoverPoll
    (effects (tick movingFrame (after (dragStart true built)))) = []
  /\ List.filter isHoverPoll
       (effects (tick movingFrame (after (dragEnd dragged))))
     = [GetInteractors].
Proof.
  split.
  - exact (proj1 (drag_suspends_hover_polling movingFrame built
                    eq_refl eq_refl)).
  - exact (proj2 (proj2 (drag_suspends_hover_polling movingFrame dragged
                           eq_refl eq_refl))).
Defined.

(* ===================================================================== *)
(** * [update]                                                            *)
(* ===================================================================== *)

(** One conditional retuning of [update]: it throws on a force that is
    configured to a non-zero strength and not registered, and otherwise
    returns and leaves the names of the registry as they were. *)
Lemma retune_cases name v c fg :
  Component.forceGraph c = Some fg ->
  (strictNe v 0 = true
   /\ ThreeForceGraph.forces fg !! name = None
   /\ (if strictNe v 0 then d3ForceStrength name v else skip) c
      = (Abrupt (TypeError "d3Force(...) is undefined"), c, []))
  \/ ((strictNe v 0 = true -> is_Some (ThreeForceGraph.forces fg !! name))
      /\ exists c' fg',
           (if strictNe v 0 then d3ForceStrength name v else skip) c
           = (Normal tt, c', [])
           /\ Component.forceGraph c' = Some fg'
           /\ (forall n, is_Some (ThreeForceGraph.forces fg' !! n)
                         <-> is_Some (ThreeForceGraph.forces fg !! n))
           /\ Component.data c' = Component.data c).
Proof.
  intros Hfg. destruct (strictNe v 0) eqn:Hv.
  - destruct (ThreeForceGraph.forces fg !! name) as [force|] eqn:Hf.
    + right. split; [eauto|].
      unfold d3ForceStrength, d3ForceSet.
      rewrite (bind_normal _ _ _ _ _ _ (theForceGraph_some c fg Hfg)), Hf.
      rewrite (modifyForceGraph_some _ c fg Hfg).
      eexists _, _. split; [reflexivity|]. split; [reflexivity|].
      split; [|reflexivity]. intros n. cbn.
      destruct (decide (name = n)) as [->|Hne].
      * rewrite lookup_insert_eq, Hf. split; eauto.
      * rewrite lookup_insert_ne by exact Hne. reflexivity.
    + left. split; [reflexivity|]. split; [reflexivity|].
      unfold d3ForceStrength.
      rewrite (bind_normal _ _ _ _ _ _ (theForceGraph_some c fg Hfg)), Hf.
      reflexivity.
  - right. split; [discriminate|]. exists c, fg. repeat split; auto.
Qed.

Lemma update_completes inDiff c fg :
  Component.forceGraph c = Some fg ->
  completion (update inDiff c) = Normal tt
  <-> (forall name v,
         configured name (Component.data c) = Some v ->
         strictNe v 0 = true ->
         is_Some (ThreeForceGraph.forces fg !! name)).
Proof.
  intros Hfg. unfold update.
  destruct (forwardProps_run (List.filter inDiff fgProps) c fg Hfg)
    as (c1 & fg1 & Hrun1 & Hfg1 & HF1 & Hd1).
  rewrite (bind_normal _ _ _ _ _ _ Hrun1).
  rewrite (bind_normal _ _ _ _ _ _ (modifyForceGraph_some _ c1 fg1 Hfg1)).
  set (c2 := Component.set_forceGraph
               (Some (ThreeForceGraph.set_nodeThreeObject true fg1)) c1).
  rewrite (bind_normal _ _ c2 c2 c2 [] eq_refl).
  change (Component.data c2) with (Component.data c1).
  unfold forceConfig in Hd1. injection Hd1 as Hdc Hdx Hdy Hdz.
  rewrite Hdc, Hdx, Hdy, Hdz.
  set (F := ThreeForceGraph.forces fg) in *.
  assert (Hfg2 : Component.forceGraph c2
                 = Some (ThreeForceGraph.set_nodeThreeObject true fg1))
    by reflexivity.
  assert (HF2 : forall n,
             is_Some (ThreeForceGraph.forces
                        (ThreeForceGraph.set_nodeThreeObject true fg1) !! n)
             <-> is_Some (F !! n)).
  { intros n. cbn. rewrite HF1. reflexivity. }
  clearbody c2. clear Hrun1 Hfg1 Hfg Hdc Hdx Hdy Hdz.
  clear HF1. revert Hfg2 HF2.
  generalize (ThreeForceGraph.set_nodeThreeObject true fg1).
  intros fg2 Hfg2 HF2.
  assert (Hno : forall name v (e : JsError) c' l,
             configured name (Component.data c) = Some v ->
             strictNe v 0 = true -> F !! name = None ->
             (completion (Abrupt e, c', l) = Normal tt
              <-> (forall name v,
                     configured name (Component.data c) = Some v ->
                     strictNe v 0 = true -> is_Some (F !! name)))).
  { intros name v e c' l Hc Hv Hn. split; [discriminate|].
    intros H. specialize (H name v Hc Hv). rewrite Hn in H.
    destruct H as [x Hx]. discriminate Hx. }
  destruct (retune_cases "charge" (Data.chargeForce (Component.data c))
              c2 fg2 Hfg2)
    as [(Hv & Hn & Hrun) | (Hc & c3 & fg3 & Hrun & Hfg3 & HF3 & _)].
  { rewrite (bind_abrupt _ _ _ _ _ _ Hrun).
    apply (Hno "charge" _ _ _ _ eq_refl Hv).
    apply eq_None_not_Some. rewrite <- HF2. apply eq_None_not_Some, Hn. }
  rewrite (bind_normal _ _ _ _ _ _ Hrun).
  destruct (retune_cases "x" (Data.xForce (Component.data c)) c3 fg3 Hfg3)
    as [(Hv & Hn & Hrun') | (Hx & c4 & fg4 & Hrun' & Hfg4 & HF4 & _)].
  { rewrite (bind_abrupt _ _ _ _ _ _ Hrun').
    apply (Hno "x" _ _ _ _ eq_refl Hv).
    apply eq_None_not_Some. rewrite <- HF2, <- HF3.
    apply eq_None_not_Some, Hn. }
  rewrite (bind_normal _ _ _ _ _ _ Hrun').
  destruct (retune_cases "y" (Data.yForce (Component.data c)) c4 fg4 Hfg4)
    as [(Hv & Hn & Hrun'') | (Hy & c5 & fg5 & Hrun'' & Hfg5 & HF5 & _)].
  { rewrite (bind_abrupt _ _ _ _ _ _ Hrun'').
    apply (Hno "y" _ _ _ _ eq_refl Hv).
    apply eq_None_not_Some. rewrite <- HF2, <- HF3, <- HF4.
    apply eq_None_not_Some, Hn. }
  rewrite (bind_normal _ _ _ _ _ _ Hrun'').
  destruct (retune_cases "z" (Data.zForce (Component.data c)) c5 fg5 Hfg5)
    as [(Hv & Hn & Hrun3) | (Hz & c6 & fg6 & Hrun3 & Hfg6 & HF6 & _)].
  { rewrite Hrun3.
    apply (Hno "z" _ _ _ _ eq_refl Hv).
    apply eq_None_not_Some. rewrite <- HF2, <- HF3, <- HF4, <- HF5.
    apply eq_None_not_Some, Hn. }
  rewrite Hrun3. cbn [completion after effects fst snd].
  split; [intros _|reflexivity].
  intros name v Hv Hnz.
  destruct (configured_names name (Component.data c) (ex_intro _ v Hv))
    as [-> | [-> | [-> | ->]]];
    cbn in Hv; injection Hv as <-.
  - apply HF2, Hc, Hnz.
  - apply HF2, HF3, Hx, Hnz.
  - apply HF2, HF3, HF4, Hy, Hnz.
  - apply HF2, HF3, HF4, HF5, Hz, Hnz.
Qed.

Lemma get_set_jsonUrl p v d :
  p <> "jsonUrl" -> Data.get p (Data.set_jsonUrl v d) = Data.get p d.
Proof.
  intros Hp. unfold Data.get.
  destruct (String.eqb_spec p "jsonUrl"); [contradiction|reflexivity].
Qed.

Lemma forwardProp_other p c fg :
  Component.forceGraph c = Some fg ->
  p <> "jsonUrl" ->
  forwardProp p c
  = (Normal tt,
     Component.set_forceGraph
       (Some (ThreeForceGraph.set_props
                (<[p := blankToNull (Data.get p (Component.data c))]>
                   (ThreeForceGraph.props fg)) fg)) c,
     []).
Proof.
  intros Hfg Hp. unfold forwardProp.
  destruct (String.eqb_spec p "jsonUrl"); [contradiction|].
  rewrite (bind_normal _ _ c tt c [] eq_refl).
  rewrite (bind_normal _ _ c c c [] eq_refl).
  rewrite (modifyForceGraph_some _ c fg Hfg). reflexivity.
Qed.

Lemma forwardProp_jsonUrl c fg :
  Component.forceGraph c = Some fg ->
  forwardProp "jsonUrl" c
  = (Normal tt,
     Component.set_forceGraph
       (Some (ThreeForceGraph.set_props
                (<["jsonUrl" := VString (dataUrlPrefix
                                         ++ Data.jsonUrl (Component.data c))]>
                   (ThreeForceGraph.props fg)) fg))
       (Component.set_data
          (Data.set_jsonUrl
             (dataUrlPrefix ++ Data.jsonUrl (Component.data c))
             (Component.data c)) c),
     []).
Proof.
  intros Hfg. unfold forwardProp, modifyForceGraph, theForceGraph. unfold_m.
  cbn. rewrite Hfg. reflexivity.
Qed.

Lemma forwardProps_others ps : forall c fg,
  Component.forceGraph c = Some fg ->
  ~ In "jsonUrl" ps ->
  exists fg',
    forEach forwardProp ps c
    = (Normal tt, Component.set_forceGraph (Some fg') c, [])
    /\ (forall p, In p ps ->
          ThreeForceGraph.props fg' !! p
          = Some (blankToNull (Data.get p (Component.data c))))
    /\ (forall p, ~ In p ps ->
          ThreeForceGraph.props fg' !! p = ThreeForceGraph.props fg !! p).
Proof.
  induction ps as [|p0 rest IH]; intros c fg Hfg Hno; cbn [forEach].
  - exists fg. rewrite (set_forceGraph_same c fg Hfg).
    split; [reflexivity|]. split; [intros p []|reflexivity].
  - assert (Hp0 : p0 <> "jsonUrl") by (intros ->; apply Hno; left; reflexivity).
    rewrite (bind_normal _ _ _ _ _ _ (forwardProp_other p0 c fg Hfg Hp0)).
    set (fg0 := ThreeForceGraph.set_props
                  (<[p0 := blankToNull (Data.get p0 (Component.data c))]>
                     (ThreeForceGraph.props fg)) fg).
    destruct (IH (Component.set_forceGraph (Some fg0) c) fg0 eq_refl)
      as (fg' & Hrun & Hin & Hout);
      [intros H; apply Hno; right; exact H|].
    rewrite Hrun. exists fg'. split; [destruct c; reflexivity|].
    split.
    + intros p Hp. destruct (in_dec String.string_dec p rest) as [Hr|Hr];
        [exact (Hin p Hr)|].
      destruct Hp as [<-|Hp]; [|contradiction].
      rewrite (Hout p0 Hr). cbn. apply lookup_insert_eq.
    + intros p Hp. rewrite (Hout p); [|intros H; apply Hp; right; exact H].
      cbn. apply lookup_insert_ne. intros ->. apply Hp. left. reflexivity.
Qed.

(** What [update] does after the properties are forwarded keeps the
    forwarded properties and the configuration. *)
Lemma keeps_props_retune P name v :
  keeps (whenGraph true (fun fg => ThreeForceGraph.props fg = P))
        (if strictNe v 0 then d3ForceStrength name v else skip).
Proof.
  unfold d3ForceStrength. repeat graph_step.
Qed.

Lemma keeps_conj {A : Type} (P Q : Component.t -> Prop) (m : M A) :
  keeps P m -> keeps Q m -> keeps (fun c => P c /\ Q c) m.
Proof. intros HP HQ c [Hp Hq]. split; [apply HP, Hp|apply HQ, Hq]. Qed.

Lemma update_props inDiff c fg :
  Component.forceGraph c = Some fg ->
  exists c1 fg1 fg',
    forEach forwardProp (List.filter inDiff fgProps) c = (Normal tt, c1, [])
    /\ Component.forceGraph c1 = Some fg1
    /\ Component.forceGraph (after (update inDiff c)) = Some fg'
    /\ ThreeForceGraph.props fg' = ThreeForceGraph.props fg1
    /\ Component.data (after (update inDiff c)) = Component.data c1.
Proof.
  intros Hfg.
  destruct (forwardProps_run (List.filter inDiff fgProps) c fg Hfg)
    as (c1 & fg1 & Hrun1 & Hfg1 & _ & _).
  exists c1, fg1.
  set (R := fun c' =>
              whenGraph true
                (fun fg' => ThreeForceGraph.props fg'
                            = ThreeForceGraph.props fg1) c'
              /\ Component.data c' = Component.data c1).
  assert (Hk : hoare (fun c0 => c0 = c) (update inDiff) R).
  { unfold update. apply (hoare_bind _ R R).
    - intros ? ->. rewrite Hrun1. cbn [after fst snd]. split; [|reflexivity].
      unfold whenGraph. rewrite Hfg1. reflexivity.
    - intros _. apply keeps_conj.
      + cbv zeta. repeat first [ apply keeps_props_retune | graph_step ].
      + cbv zeta. keeps_auto.
    - auto. }
  destruct (Hk c eq_refl) as [Hg Hd]. unfold whenGraph in Hg.
  destruct (Component.forceGraph (after (update inDiff c))) as [fg'|];
    [|discriminate Hg].
  exists fg'. repeat split; assumption.
Qed.

Lemma filter_fgProps inDiff :
  List.filter inDiff fgProps
  = ((if inDiff "jsonUrl" then ["jsonUrl"] else [])
     ++ List.filter inDiff (List.tl fgProps))%list.
Proof.
  change (List.filter inDiff fgProps)
    with (if inDiff "jsonUrl"
          then "jsonUrl" :: List.filter inDiff (List.tl fgProps)
          else List.filter inDiff (List.tl fgProps)).
  destruct (inDiff "jsonUrl"); reflexivity.
Qed.

Lemma jsonUrl_once : ~ In "jsonUrl" (List.tl fgProps).
Proof. cbn. intuition discriminate. Qed.

Lemma forwardProps_fgProps inDiff c fg :
  Component.forceGraph c = Some fg ->
  let url := dataUrlPrefix ++ Data.jsonUrl (Component.data c) in
  exists fg1,
    forEach forwardProp (List.filter inDiff fgProps) c
    = (Normal tt,
       Component.set_forceGraph (Some fg1)
         (if inDiff "jsonUrl"
          then Component.set_data (Data.set_jsonUrl url (Component.data c)) c
          else c),
       [])
    /\ (forall p, In p fgProps -> p <> "jsonUrl" -> inDiff p = true ->
          ThreeForceGraph.props fg1 !! p
          = Some (blankToNull (Data.get p (Component.data c))))
    /\ (inDiff "jsonUrl" = true ->
        ThreeForceGraph.props fg1 !! "jsonUrl" = Some (VString url))
    /\ (forall p, (In p fgProps -> inDiff p = false) ->
          ThreeForceGraph.props fg1 !! p = ThreeForceGraph.props fg !! p).
Proof.
  intros Hfg url. rewrite filter_fgProps.
  assert (Hno : ~ In "jsonUrl" (List.filter inDiff (List.tl fgProps))).
  { intros H. apply List.filter_In in H. exact (jsonUrl_once (proj1 H)). }
  assert (Hin : forall p, In p fgProps -> p <> "jsonUrl" -> inDiff p = true ->
                          In p (List.filter inDiff (List.tl fgProps))).
  { intros p [<-|Hp] Hne Hd; [contradiction|].
    apply List.filter_In. split; assumption. }
  assert (Hout : forall p, (In p fgProps -> inDiff p = false) ->
                           ~ In p (List.filter inDiff (List.tl fgProps))).
  { intros p Hp H. apply List.filter_In in H. destruct H as [H1 H2].
    rewrite Hp in H2; [discriminate H2|right; exact H1]. }
  destruct (inDiff "jsonUrl") eqn:Hj; cbn [app forEach].
  - rewrite (bind_normal _ _ _ _ _ _ (forwardProp_jsonUrl c fg Hfg)).
    fold url.
    set (fg0 := ThreeForceGraph.set_props
                  (<["jsonUrl" := VString url]> (ThreeForceGraph.props fg))
                  fg).
    set (c0 := Component.set_forceGraph (Some fg0)
                 (Component.set_data
                    (Data.set_jsonUrl url (Component.data c)) c)).
    destruct (forwardProps_others _ c0 fg0 eq_refl Hno)
      as (fg1 & Hrun & Hp & Hq).
    rewrite Hrun. exists fg1. split; [reflexivity|]. split; [|split].
    + intros p Hpin Hne Hd. rewrite (Hp p (Hin p Hpin Hne Hd)).
      cbn. rewrite (get_set_jsonUrl p url _ Hne). reflexivity.
    + intros _. rewrite (Hq "jsonUrl" Hno). cbn. apply lookup_insert_eq.
    + intros p Hpout. rewrite (Hq p (Hout p Hpout)). cbn.
      apply lookup_insert_ne. intros <-.
      rewrite Hpout in Hj; [discriminate Hj|left; reflexivity].
  - destruct (forwardProps_others _ c fg Hfg Hno) as (fg1 & Hrun & Hp & Hq).
    rewrite Hrun. exists fg1. split; [reflexivity|]. split; [|split].
    + intros p Hpin Hne Hd. exact (Hp p (Hin p Hpin Hne Hd)).
    + discriminate.
    + intros p Hpout. exact (Hq p (Hout p Hpout)).
Qed.

(** X10: [update] forwards exactly the changed properties of its list to
    the graph object: each with its configured value, a blank string as
    [null]; the data URL with the resource prefix in front, written back
    into the configuration and never [null], even when the configured
    URL is blank; and no other property.  This holds whether or not the
    retuning of the forces throws afterwards. *)
Theorem update_forwards_changed inDiff c fg :
  Component.forceGraph c = Some fg ->
  let c' := after (update inDiff c) in
  let url := dataUrlPrefix ++ Data.jsonUrl (Component.data c) in
  (forall p, In p fgProps -> p <> "jsonUrl" -> inDiff p = true ->
     propOf p c' = Some (blankToNull (Data.get p (Component.data c))))
  /\ (inDiff "jsonUrl" = true ->
      propOf "jsonUrl" c' = Some (VString url)
      /\ Component.data c' = Data.set_jsonUrl url (Component.data c))
  /\ (inDiff "jsonUrl" = false -> Component.data c' = Component.data c)
  /\ (forall p, (In p fgProps -> inDiff p = false) ->
        propOf p c' = propOf p c).
Proof.
  intros Hfg. cbv zeta.
  destruct (update_props inDiff c fg Hfg)
    as (c1 & fg1 & fg' & Hrun & Hfg1 & Hfg' & Hprops & Hdata).
  destruct (forwardProps_fgProps inDiff c fg Hfg)
    as (fg1' & Hrun' & Hp & Hj & Hq).
  rewrite Hrun in Hrun'. injection Hrun' as ->.
  cbn in Hfg1. injection Hfg1 as <-.
  unfold propOf. rewrite Hfg', Hfg, Hdata. cbn [mbind option_bind].
  rewrite Hprops. split; [exact Hp|]. split; [|split; [|exact Hq]].
  - intros H. rewrite H. split; [exact (Hj H)|reflexivity].
  - intros H. rewrite H. reflexivity.
Qed.

Lemma update_forwards_changed_witness :
  propOf "nodeAutoColorBy" (after (update allChanged initialised)) = Some VNull
  /\ propOf "jsonUrl" (after (update allChanged initialised))
     = Some (VString dataUrlPrefix).
Proof.
  pose proof (update_forwards_changed allChanged initialised _ eq_refl)
    as (Hp & Hj & _).
  split.
  - refine (Hp "nodeAutoColorBy" _ _ eq_refl).
    + vm_compute. tauto.
    + discriminate.
  - exact (proj1 (Hj eq_refl)).
Defined.

(** X11: [update] returns normally exactly when every force whose
    configured strength is not zero is registered with the graph
    object; otherwise it throws at the first such force, the changed
    properties having been forwarded already. *)
Theorem update_needs_registered_forces inDiff c fg :
  Component.forceGraph c = Some fg ->
  completion (update inDiff c) = Normal tt
  <-> (forall name v,
         configured name (Component.data c) = Some v ->
         strictNe v 0 = true ->
         is_Some (forceOf name c)).
Proof.
  intros Hfg. unfold forceOf. rewrite Hfg. cbn [mbind option_bind].
  exact (update_completes inDiff c fg Hfg).
Qed.

Lemma update_needs_registered_forces_witness :
  completion (update noneChanged tuned) = Normal tt.
Proof.
  apply (update_needs_registered_forces noneChanged tuned _ eq_refl).
  intros name v Hv _.
  destruct (configured_names name _ (ex_intro _ v Hv))
    as [-> | [-> | [-> | ->]]]; vm_compute; eauto.
Defined.

(* ===================================================================== *)
(** * Reachable components                                                *)
(* ===================================================================== *)

Lemma run_app getIntersection es1 es2 c :
  fst (run getIntersection c (es1 ++ es2))
  = fst (run getIntersection (fst (run getIntersection c es1)) es2).
Proof.
  revert c. induction es1 as [|e rest IH]; intros c; [reflexivity|].
  rewrite <- app_comm_cons, !run_cons. apply IH.
Qed.

Lemma registered_insert names name f fg :
  registered names fg ->
  registered names
    (ThreeForceGraph.set_forces (<[name := f]> (ThreeForceGraph.forces fg)) fg).
Proof.
  unfold registered. intros H. eapply Forall_impl; [exact H|].
  intros n Hn. cbn. apply lookup_insert_is_Some'. right. exact Hn.
Qed.

(** The registry only grows along a run. *)
Lemma registered_run getIntersection need names es c :
  (need = false -> registered names ThreeForceGraph.new) ->
  whenGraph need (registered names) c ->
  whenGraph need (registered names) (fst (run getIntersection c es)).
Proof.
  intros Hnew. apply graph_run; auto using registered_insert.
Qed.

Lemma charge_registered : registered ["charge"] ThreeForceGraph.new.
Proof. apply Forall_cons_2; [|apply Forall_nil_2]. vm_compute. eauto. Qed.

Lemma init_registers c :
  whenGraph false (registered ["charge"]) c ->
  whenGraph true (registered tunable) (after (init c)).
Proof.
  unfold whenGraph, registered, tunable.
  unfold init, ensureForceGraph, d3ForceSet, modifyForceGraph, theForceGraph.
  unfold_m.
  destruct c as [d r [fg|] ? ? ? ? ? ? ? ? ? ? ? ? ?]; cbn; intros H.
  - apply Forall_cons in H as [H _].
    repeat apply Forall_cons_2; [| | | |apply Forall_nil_2];
      repeat first [ rewrite lookup_insert_eq
                   | rewrite lookup_insert_ne by discriminate ];
      eauto.
  - repeat apply Forall_cons_2; [| | | |apply Forall_nil_2];
      vm_compute; eauto.
Qed.

Lemma initialised_registered getIntersection d es es' :
  whenGraph true (registered tunable)
    (fst (run getIntersection (Component.fresh d) (es ++ Init :: es'))).
Proof.
  rewrite run_app, run_cons.
  apply registered_run; [discriminate|].
  apply init_registers, registered_run; [intros _; apply charge_registered|].
  reflexivity.
Qed.

Lemma tick_completes f c fg :
  Component.forceGraph c = Some fg -> completion (tick f c) = Normal tt.
Proof.
  intros Hfg. destruct (networkPending c) eqn:Hnp.
  - rewrite (tick_pending_run f c Hnp). reflexivity.
  - rewrite (tick_run f c fg Hfg Hnp). reflexivity.
Qed.

(** X12: once [init] has run, no later frame and no later [update]
    throws, whatever the host did before and after: the graph object is
    there, and the charge force and the three positioning forces stay
    registered. *)
Theorem initialised_never_throws getIntersection d es es' :
  let c := fst (run getIntersection (Component.fresh d)
                  (es ++ Init :: es')) in
  (forall name, In name tunable -> is_Some (forceOf name c))
  /\ (forall f, completion (tick f c) = Normal tt)
  /\ (forall d' inDiff,
        completion (update inDiff (Component.set_data d' c)) = Normal tt).
Proof.
  cbv zeta.
  pose proof (initialised_registered getIntersection d es es') as H.
  unfold whenGraph in H.
  destruct (Component.forceGraph (fst (run _ _ _))) as [fg|] eqn:Hfg;
    [|discriminate H].
  unfold registered in H. rewrite Forall_forall in H.
  split; [|split].
  - intros name Hn. unfold forceOf. rewrite Hfg. cbn.
    apply H, list_elem_of_In, Hn.
  - intros f. exact (tick_completes f _ fg Hfg).
  - intros d' inDiff.
    apply (update_completes inDiff (Component.set_data d' _) fg);
      [exact Hfg|].
    intros name v Hv _. apply H, list_elem_of_In.
    destruct (configured_names name _ (ex_intro _ v Hv))
      as [-> | [-> | [-> | ->]]]; cbn; tauto.
Qed.

(** X13: the graph is never stretched: from a fresh component, whatever
    the host does, the scale of the graph object has three equal
    components. *)
Theorem scale_stays_uniform getIntersection d es :
  whenGraph false (fun fg => isUniform (ThreeForceGraph.scale fg))
    (fst (run getIntersection (Component.fresh d) es)).
Proof.
  apply graph_run; try (intros; assumption).
  - intros _. split; reflexivity.
  - intros s fg _. split; reflexivity.
  - reflexivity.
Qed.

Lemma init_clears_running c : Component.running (after (init c)) = false.
Proof.
  unfold init, ensureForceGraph, d3ForceSet, modifyForceGraph, theForceGraph.
  unfold_m. destruct c as [d r [fg|] ? ? ? ? ? ? ? ? ? ? ? ? ?]; reflexivity.
Qed.

Lemma stopHook_dispatch getIntersection e c :
  whenGraph true (fun fg => ThreeForceGraph.engineStopHook fg = true) c ->
  whenGraph true (fun fg => ThreeForceGraph.engineStopHook fg = true)
    (after (dispatch getIntersection e c)).
Proof.
  apply graph_dispatch; try (intros; assumption); try discriminate.
  reflexivity.
Qed.

Lemma whenGraph_stopHook c :
  whenGraph true (fun fg => ThreeForceGraph.engineStopHook fg = true) c
  <-> (ThreeForceGraph.engineStopHook <$> Component.forceGraph c) = Some true.
Proof.
  unfold whenGraph. destruct (Component.forceGraph c) as [fg|]; cbn.
  - split; [intros ->; reflexivity|congruence].
  - split; discriminate.
Qed.

Lemma graphBuilt_stops ns c :
  stopsWhenRunning c -> stopsWhenRunning (after (graphBuilt ns c)).
Proof.
  unfold stopsWhenRunning, graphBuilt, onFinishUpdate, modifyForceGraph,
    theForceGraph.
  unfold_m.
  destruct c as [d r [fg|] ? ? ? ? ? ? ? ? grp ? ? ? ?]; cbn; [|auto].
  destruct (ThreeForceGraph.finishUpdateHook fg); cbn; [|auto].
  destruct grp; cbn; right; reflexivity.
Qed.

Lemma stops_dispatch getIntersection e c :
  stopsWhenRunning c ->
  stopsWhenRunning (after (dispatch getIntersection e c)).
Proof.
  intros Hc.
  assert (Hkeep : keeps (runningIs false) (dispatch getIntersection e) ->
                  stopsWhenRunning (after (dispatch getIntersection e c))).
  { intros Hk. destruct Hc as [Hr|Hh].
    - left. exact (Hk c Hr).
    - right. apply whenGraph_stopHook, stopHook_dispatch.
      apply whenGraph_stopHook, Hh. }
  destruct (writesRunning e) eqn:Hw.
  - destruct e; try discriminate Hw; cbn [dispatch].
    + left. apply init_clears_running.
    + apply graphBuilt_stops, Hc.
    + apply Hkeep. cbn [dispatch]. apply running_tick_false.
  - apply Hkeep. apply running_untouched, Hw.
Qed.

(** X14: while the running flag is set the engine-stop callback, the one
    thing that clears it, is installed on the graph object -- in every
    state the host can drive a fresh component into. *)
Theorem running_implies_stop_hook getIntersection d es :
  stopsWhenRunning (fst (run getIntersection (Component.fresh d) es)).
Proof.
  assert (H : forall c, stopsWhenRunning c ->
                        stopsWhenRunning (fst (run getIntersection c es))).
  { induction es as [|e rest IH]; intros c Hc; [exact Hc|].
    rewrite run_cons. apply IH. exact (stops_dispatch getIntersection e c Hc). }
  apply H. left. reflexivity.
Qed.

Lemma labelTicks_quiet t ns : forall i,
  invocations "scaleToFit" (labelTicks t i ns) = 0%nat.
Proof.
  induction ns as [|node rest IH]; intros i; cbn [labelTicks]; [reflexivity|].
  rewrite invocations_app, IH.
  destruct (Node.htmlGenerator node); reflexivity.
Qed.

(** X15: reheating composes with the frame: on a graph whose stop
    callback is installed, the next frame in which the engine converges
    rescales exactly once and announces [updatePortals], stops the
    engine and leaves the running flag cleared -- although the reheat
    itself never set the flag. *)
Theorem reheat_then_converge_rescales f c fg :
  Component.forceGraph c = Some fg ->
  ThreeForceGraph.engineStopHook fg = true ->
  cooldownReached f = true ->
  networkPending c = false ->
  Component.running c = false ->
  let c1 := after (d3ReheatSimulation c) in
  Component.running c1 = false
  /\ invocations "scaleToFit" (effects (tick f c1)) = 1%nat
  /\ In (Emit "updatePortals") (effects (tick f c1))
  /\ Component.running (after (tick f c1)) = false
  /\ (ThreeForceGraph.engineRunning
        <$> Component.forceGraph (after (tick f c1)))
     = Some false.
Proof.
  intros Hfg Hhook Hcool Hnp Hr. cbv zeta.
  assert (Hc1 : after (d3ReheatSimulation c)
                = Component.set_forceGraph (Some (engineReheat fg)) c).
  { unfold d3ReheatSimulation. unfold_m. rewrite Hfg. reflexivity. }
  rewrite Hc1. set (c1 := Component.set_forceGraph _ c).
  assert (Hconv : convergesNow f c1 = true).
  { unfold convergesNow. cbn. rewrite Hcool, Hhook. reflexivity. }
  assert (Hnp1 : networkPending c1 = false) by exact Hnp.
  rewrite (tick_run f c1 (engineReheat fg) eq_refl Hnp1).
  cbn [after effects fst snd]. unfold frameState, frameEffects.
  rewrite Hconv. cbn [negb andb]. split; [exact Hr|].
  split; [|split; [|split]].
  - unfold rescaleEffects. count_invocations.
    rewrite hoverPolls_quiet, labelTicks_quiet.
    destruct (ThreeForceGraph.graphBbox (engineReheat fg));
      count_invocations; reflexivity.
  - apply in_or_app; right. apply in_or_app; right.
    apply in_or_app; left. apply in_or_app; right. left. reflexivity.
  - reflexivity.
  - cbn. unfold stepped. cbn. rewrite Hcool, Hhook.
    unfold fitted. cbn. destruct (ThreeForceGraph.graphBbox fg); reflexivity.
Qed.

Lemma reheat_then_converge_rescales_witness :
  invocations "scaleToFit"
    (effects (tick stoppingFrame (after (d3ReheatSimulation converged))))
  = 1%nat.
Proof.
  exact (proj1 (proj2 (reheat_then_converge_rescales stoppingFrame
                         converged _
                         eq_refl eq_refl eq_refl eq_refl eq_refl))).
Defined.

(* ===================================================================== *)
(** * The container of a node                                             *)
(* ===================================================================== *)

(** X16: the container [makeHTMLText] returns holds exactly one visual at
    a time.  It is returned at once, under a fresh id, scaled by 150 and
    holding only the placeholder box, which has the node's colour and
    the opacity configured at that moment.  When the label is ready the
    container holds the label and nothing else, and the label gets the
    opacity configured at that later moment, not the one the box was
    built with.  No other container is touched. *)
Theorem label_replaces_placeholder i c fg node d' :
  Component.forceGraph c = Some fg ->
  ThreeForceGraph.nodes fg !! i = Some node ->
  let ret := Component.nextId c in
  let c1 := after (makeHTMLText i c) in
  let c2 := after (contentReady i ret (Component.set_data d' c1)) in
  completion (makeHTMLText i c) = Normal ret
  /\ objectOf ret c1
     = Some (Object3D.mk [BoxChild (S ret)] (Vector3.mk 150 150 150)
                         Quaternion.identity)
  /\ boxOf i c1
     = Some (mkMesh (S ret) (Node.color node)
                    (Data.nodeOpacity (Component.data c)) 0)
  /\ objectOf ret c2
     = Some (Object3D.mk [WebLayerChild (S (S ret))] (Vector3.mk 150 150 150)
                         Quaternion.identity)
  /\ boxOf i c2 = None
  /\ generatorOf i c2
     = Some (mkHtmlGenerator (S (S ret)) (Node.name node) (Node.color node)
               (Data.textSize (Component.data c))
               (Some (Data.nodeOpacity d')))
  /\ forall id, id <> ret -> objectOf id c2 = objectOf id c.
Proof.
  intros Hfg Hnode.
  assert (Hi : i < length (ThreeForceGraph.nodes fg))
    by (eapply lookup_lt_Some; exact Hnode).
  destruct c; cbn in Hfg; subst. cbv zeta.
  unfold makeHTMLText, contentReady, fresh, modifyNode, modifyObject, theNode,
    modifyForceGraph, theForceGraph, boxOf, generatorOf, nodeAt, objectOf.
  unfold_m. cbn.
  repeat (first [ rewrite Hnode
                | rewrite list_lookup_insert_eq
                    by (rewrite ?length_insert; exact Hi) ]; cbn).
  repeat (first [ rewrite lookup_alter_eq | rewrite lookup_insert_eq ]; cbn).
  repeat split.
  - unfold Object3D.remove, Object3D.add, Object3D.set_scale. cbn.
    rewrite Nat.eqb_refl. reflexivity.
  - intros id Hid.
    repeat (first [ rewrite lookup_alter_ne by congruence
                  | rewrite lookup_insert_ne by congruence ]).
    reflexivity.
Qed.

Lemma label_replaces_placeholder_witness :
  objectOf 0 (after (contentReady 0 0 labelled))
  = Some (Object3D.mk [WebLayerChild 2] (Vector3.mk 150 150 150)
                      Quaternion.identity).
Proof.
  exact (proj1 (proj2 (proj2 (proj2
           (label_replaces_placeholder 0 built _ _ Data.default
              eq_refl eq_refl))))).
Defined.

(* ===================================================================== *)
(** * The bound methods of the graph object                               *)
(* ===================================================================== *)

(** X17: [d3Force] works at any time: called before [init] it creates the
    graph object.  Registering a force answers the component itself and
    never throws, a lookup answers the force last registered under the
    name, and registering under one name leaves every other name
    alone. *)
Theorem d3Force_round_trip name f c :
  completion (d3Force name (Some f) c) = Normal Self
  /\ is_Some (Component.forceGraph (after (d3Force name (Some f) c)))
  /\ completion (d3Force name None (after (d3Force name (Some f) c)))
     = Normal (TheForce (Some f))
  /\ forall name',
       name' <> name ->
       completion (d3Force name' None (after (d3Force name (Some f) c)))
       = completion (d3Force name' None c).
Proof.
  unfold d3Force, d3ForceSet, ensureForceGraph, modifyForceGraph,
    theForceGraph.
  unfold_m.
  destruct c as [d r [fg|] ? ? ? ? ? ? ? ? ? ? ? ? ?]; cbn;
    rewrite lookup_insert_eq; (repeat split; eauto);
    intros name' Hne; rewrite lookup_insert_ne by congruence; reflexivity.
Qed.

(** X18: [init] reuses a graph object created before it and registers its
    three positioning forces on it: a force registered under x, y or z
    before [init] is replaced, a force under any other name is kept. *)
Theorem init_overrides_axis_forces name f c :
  let c' := after (init (after (d3Force name (Some f) c))) in
  forceOf "x" c' = Some d3ForceX
  /\ forceOf "y" c' = Some d3ForceY
  /\ forceOf "z" c' = Some d3ForceZ
  /\ (name <> "x" -> name <> "y" -> name <> "z" -> forceOf name c' = Some f).
Proof.
  cbv zeta.
  unfold init, d3Force, d3ForceSet, ensureForceGraph, modifyForceGraph,
    theForceGraph, forceOf.
  unfold_m.
  destruct c as [d r [fg|] ? ? ? ? ? ? ? ? ? ? ? ? ?]; cbn;
    (repeat split;
     [rewrite lookup_insert_ne by discriminate;
      rewrite lookup_insert_ne by discriminate; apply lookup_insert_eq
     |rewrite lookup_insert_ne by discriminate; apply lookup_insert_eq
     |apply lookup_insert_eq
     |intros Hx Hy Hz;
      rewrite !lookup_insert_ne by congruence; apply lookup_insert_eq]).
Qed.

(** X19: [getGraphBbox] never throws: called before [init] it creates the
    graph object, which has no bounding box yet, and otherwise it
    answers the graph's box and writes nothing.  After it [scaleToFit]
    returns normally, which on a component without a graph object it
    does not. *)
Theorem getGraphBbox_creates_graph c :
  completion (getGraphBbox c)
  = Normal (fg ← Component.forceGraph c; ThreeForceGraph.graphBbox fg)
  /\ Component.forceGraph (after (getGraphBbox c))
     = Some (default ThreeForceGraph.new (Component.forceGraph c))
  /\ completion (scaleToFit (after (getGraphBbox c))) = Normal tt
  /\ (completion (scaleToFit c) = Normal tt
      <-> is_Some (Component.forceGraph c)).
Proof.
  unfold getGraphBbox, ensureForceGraph, scaleToFit, modifyForceGraph,
    theForceGraph.
  unfold_m.
  destruct c as [d r [fg|] ? ? ? ? ? ? ? ? ? ? ? ? ?]; cbn.
  - destruct (ThreeForceGraph.graphBbox fg); cbn; repeat split; eauto.
  - repeat split; [discriminate|]. intros [x Hx]. discriminate Hx.
Qed.

(* ===================================================================== *)
(** * The vector comparison                                               *)
(* ===================================================================== *)

Import SpecFloat.

Lemma Prim2SF_inj x y : Prim2SF x = Prim2SF y -> x = y.
Proof.
  intros H. rewrite <- (SF2Prim_Prim2SF x), <- (SF2Prim_Prim2SF y), H.
  reflexivity.
Qed.

Lemma SFabs_binary_round_aux s mx ex lx :
  SFabs (binary_round_aux prec emax s mx ex lx)
  = SFabs (binary_round_aux prec emax false mx ex lx).
Proof.
  unfold binary_round_aux.
  destruct (shr_fexp prec emax mx ex lx) as [mrs e'].
  destruct (shr_fexp prec emax _ e' loc_Exact) as [mrs' e''].
  destruct (shr_m mrs'); [reflexivity| |reflexivity].
  destruct (Z.leb e'' _); reflexivity.
Qed.

Lemma SFabs_binary_normalize_opp m e :
  SFabs (binary_normalize prec emax (- m) e false)
  = SFabs (binary_normalize prec emax m e false).
Proof.
  destruct m as [|p|p]; [reflexivity| |].
  - replace (- Z.pos p)%Z with (Z.neg p) by reflexivity.
    unfold binary_normalize, binary_round.
    destruct (shl_align p e _) as [mz ez]. apply SFabs_binary_round_aux.
  - replace (- Z.neg p)%Z with (Z.pos p) by reflexivity.
    unfold binary_normalize, binary_round.
    destruct (shl_align p e _) as [mz ez].
    symmetry. apply SFabs_binary_round_aux.
Qed.

Lemma SFabs_sub_comm a b :
  SFabs (SF64sub a b) = SFabs (SF64sub b a).
Proof.
  unfold SF64sub, SFsub.
  destruct a as [sa|sa| |sa ma ea], b as [sb|sb| |sb mb eb];
    try reflexivity;
    try (destruct sa, sb; reflexivity);
    try (destruct sa; reflexivity);
    try (destruct sb; reflexivity).
  rewrite (Z.min_comm eb ea).
  rewrite <- SFabs_binary_normalize_opp. f_equal. f_equal.
  set (x := cond_Zopp sa _). set (y := cond_Zopp sb _). lia.
Qed.

Lemma abs_sub_comm x y : PrimFloat.abs (x - y) = PrimFloat.abs (y - x).
Proof.
  apply Prim2SF_inj. rewrite !abs_spec, !sub_spec. apply SFabs_sub_comm.
Qed.

Lemma abs_below_positive x eps :
  (PrimFloat.abs x <? eps)%float = true -> (0 <? eps)%float = true.
Proof.
  rewrite !ltb_spec, abs_spec.
  change (Prim2SF 0) with (S754_zero false).
  destruct (Prim2SF x) as [s|s| |s m e], (Prim2SF eps) as [t|t| |t n k];
    cbn; try discriminate; try reflexivity; try (destruct t; cbn; congruence).
Qed.

Lemma isNaN_spec x :
  isNaN x = match Prim2SF x with S754_nan => true | _ => false end.
Proof.
  unfold isNaN. rewrite FloatAxioms.eqb_spec.
  destruct (Prim2SF x) as [s|s| |s m e]; try reflexivity.
  - destruct s; reflexivity.
  - unfold SFeqb, SFcompare.
    rewrite Z.compare_refl, Pos.compare_cont_refl. destruct s; reflexivity.
Qed.

Lemma abs_sub_below_defined a b eps :
  (PrimFloat.abs (a - b) <? eps)%float = true ->
  isNaN a = false /\ isNaN b = false.
Proof.
  rewrite !isNaN_spec, ltb_spec, abs_spec, sub_spec.
  unfold SF64sub, SFsub.
  destruct (Prim2SF a) as [sa|sa| |sa ma ea], (Prim2SF b) as [sb|sb| |sb mb eb];
    try (intros _; split; reflexivity); cbn; try discriminate;
    destruct sa, sb; cbn; discriminate.
Qed.

(** X20: [almostEqualVec3] is symmetric in the two vectors. *)
Theorem almostEqualVec3_sym u v epsilon :
  almostEqualVec3 u v epsilon = almostEqualVec3 v u epsilon.
Proof.
  unfold almostEqualVec3, Math.abs.
  rewrite (abs_sub_comm (Vector3.x u)), (abs_sub_comm (Vector3.y u)),
    (abs_sub_comm (Vector3.z u)).
  reflexivity.
Qed.

(** X21: [almostEqualVec3] is a strict comparison of numbers: it answers
    true only for a tolerance above zero and for vectors without a NaN
    coordinate, so with a tolerance of zero, a negative tolerance or a
    NaN anywhere no two vectors are almost equal, not even a vector and
    itself. *)
Theorem almostEqualVec3_strict u v epsilon :
  almostEqualVec3 u v epsilon = true ->
  (0 <? epsilon)%float = true
  /\ isNaN (Vector3.x u) = false /\ isNaN (Vector3.x v) = false
  /\ isNaN (Vector3.y u) = false /\ isNaN (Vector3.y v) = false
  /\ isNaN (Vector3.z u) = false /\ isNaN (Vector3.z v) = false.
Proof.
  unfold almostEqualVec3, Math.abs. intros H.
  apply andb_prop in H as [H Hz]. apply andb_prop in H as [Hx Hy].
  split; [exact (abs_below_positive _ _ Hx)|].
  destruct (abs_sub_below_defined _ _ _ Hx), (abs_sub_below_defined _ _ _ Hy),
    (abs_sub_below_defined _ _ _ Hz).
  repeat split; assumption.
Qed.

Lemma almostEqualVec3_strict_witness :
  almostEqualVec3 (Vector3.mk 1 2 3) (Vector3.mk 1.01 2 2.99) 0.05 = true
  /\ (0 <? 0.05)%float = true.
Proof.
  split; [reflexivity|].
  exact (proj1 (almostEqualVec3_strict (Vector3.mk 1 2 3)
                  (Vector3.mk 1.01 2 2.99) 0.05 eq_refl)).
Defined.

(* ===================================================================== *)
(** * When the graph is rescaled                                          *)
(* ===================================================================== *)

Lemma silent_ret {A : Type} (a : A) : silent (mret a).
Proof. intros c. reflexivity. Qed.

Lemma silent_bind {A B : Type} (m : M A) (k : A -> M B) :
  silent m -> (forall a, silent (k a)) -> silent (m ≫= k).
Proof.
  intros Hm Hk c. specialize (Hm c).
  unfold effects, mbind, M_bind in *.
  destruct (m c) as [[[a|e] c'] l]; cbn in *; [|exact Hm].
  specialize (Hk a c'). unfold effects in Hk.
  destruct (k a c') as [[r c''] l']. cbn in *.
  rewrite invocations_app, Hm, Hk. reflexivity.
Qed.

Lemma silent_this : silent this.
Proof. intros c. reflexivity. Qed.

Lemma silent_throw {A : Type} e : silent (@throw A e).
Proof. intros c. reflexivity. Qed.

Lemma silent_modify f : silent (modify f).
Proof. intros c. reflexivity. Qed.

Lemma silent_perform e : isInvoke "scaleToFit" e = false -> silent (perform e).
Proof.
  intros He c. unfold perform. cbn. rewrite invocations_cons, He. reflexivity.
Qed.

Lemma silent_forEach {A : Type} (body : A -> M unit) xs :
  (forall a, silent (body a)) -> silent (forEach body xs).
Proof.
  intros Hb. induction xs as [|a rest IH]; cbn [forEach].
  - apply silent_ret.
  - apply silent_bind; [apply Hb | intros _; exact IH].
Qed.

(** One step of a syntax-directed proof that a method is silent. *)
Ltac silent_step :=
  lazymatch goal with
  | |- silent (mbind _ _) => apply silent_bind; [|intros ?]
  | |- silent (mret _) => apply silent_ret
  | |- silent skip => apply silent_ret
  | |- silent this => apply silent_this
  | |- silent (throw _) => apply silent_throw
  | |- silent (modify _) => apply silent_modify
  | |- silent (perform _) => apply silent_perform; reflexivity
  | |- silent (forEach _ _) => apply silent_forEach; intros ?
  | |- silent (if ?b then _ else _) => destruct b
  | |- silent (match ?x with _ => _ end) => destruct x
  end.

(** Of the handlers that do not start the engine only the frame can
    enter [scaleToFit]. *)
Lemma silent_dispatch getIntersection e :
  restarts e = false -> (forall f, e <> Tick f) ->
  silent (dispatch getIntersection e).
Proof.
  destruct e; cbn [restarts dispatch]; intros He Ht; try discriminate He;
    try (exfalso; exact (Ht _ eq_refl));
    unfold init, ensureForceGraph, update, forwardProp, d3ForceStrength,
      d3ForceSet, createNodeObject, makeHTMLText, fresh, resolveReady,
      contentReady, modifyNode, modifyObject, theNode, modifyForceGraph,
      theForceGraph, clicked, dragStart, startDrag, dragEnd, endDrag;
    repeat silent_step.
Qed.

Lemma run_effects getIntersection c e rest :
  snd (run getIntersection c (e :: rest))
  = (snd (step getIntersection c e)
     ++ snd (run getIntersection (fst (step getIntersection c e)) rest))%list.
Proof.
  cbn [run]. destruct (step getIntersection c e) as [c' l]. cbn [fst snd].
  destruct (run getIntersection c' rest) as [c'' l']. reflexivity.
Qed.

Lemma atRest_dispatch getIntersection e c :
  restarts e = false ->
  atRest c -> atRest (after (dispatch getIntersection e c)).
Proof.
  intros He [Hr Hg]. split.
  - assert (Hk : keeps (runningIs false) (dispatch getIntersection e)).
    { destruct (writesRunning e) eqn:Hw.
      - destruct e; try discriminate Hw; try discriminate He;
          cbn [dispatch].
        + apply running_init_false.
        + apply running_tick_false.
      - apply running_untouched, Hw. }
    exact (Hk c Hr).
  - revert Hg. apply graph_dispatch_calm; try (intros; assumption);
      try exact He; reflexivity.
Qed.

Lemma tick_atRest f c :
  atRest c -> invocations "scaleToFit" (effects (tick f c)) = 0%nat.
Proof.
  intros [Hr Hg]. destruct (networkPending c) eqn:Hnp.
  { rewrite (tick_pending_run f c Hnp). apply hoverPolls_quiet. }
  destruct (Component.forceGraph c) as [fg|] eqn:Hfg.
  - destruct (tick_runs f c fg Hfg Hnp) as (c' & l & Hrun & _ & _ & Hn).
    rewrite Hrun. cbn [effects snd]. rewrite Hn.
    unfold whenGraph in Hg. rewrite Hfg in Hg.
    unfold convergesNow. rewrite Hfg, Hg, Hr. reflexivity.
  - rewrite (tick_no_graph f c Hfg Hnp). apply hoverPolls_quiet.
Qed.

Lemma calm_run getIntersection es : forall c,
  calm es = true -> atRest c ->
  invocations "scaleToFit" (snd (run getIntersection c es)) = 0%nat
  /\ atRest (fst (run getIntersection c es)).
Proof.
  induction es as [|e rest IH]; intros c Hes Hc; [split; [reflexivity|exact Hc]|].
  cbn [calm forallb] in Hes. apply andb_prop in Hes as [He Hrest].
  apply negb_true_iff in He.
  rewrite run_cons, run_effects, invocations_app.
  destruct (IH (fst (step getIntersection c e)) Hrest
              (atRest_dispatch getIntersection e c He Hc)) as [Hn Ha].
  rewrite Hn. split; [|exact Ha]. rewrite Nat.add_0_r.
  unfold step. cbn [snd].
  destruct e; try (apply silent_dispatch; [exact He|discriminate]).
  cbn [dispatch]. apply tick_atRest, Hc.
Qed.

Lemma converged_atRest f c fg :
  Component.forceGraph c = Some fg ->
  networkPending c = false ->
  convergesNow f c = true ->
  atRest (after (tick f c)).
Proof.
  intros Hfg Hnp Hconv. rewrite (tick_run f c fg Hfg Hnp).
  cbn [after fst snd]. unfold atRest, whenGraph, frameState.
  rewrite Hconv. cbn [negb andb]. cbn. split; [reflexivity|].
  unfold convergesNow in Hconv. rewrite Hfg in Hconv.
  apply andb_prop in Hconv as [Hconv Hhook].
  apply andb_prop in Hconv as [Hrun Hcool].
  unfold stepped. rewrite Hrun, Hcool, Hhook.
  unfold fitted. cbn. destruct (ThreeForceGraph.graphBbox fg); reflexivity.
Qed.

(** C5, amended: a frame of a component that is not waiting for the
    network calls [scaleToFit] exactly once when the running flag is set
    or the engine reports convergence in that frame (the call then comes
    from the engine-stop callback), and not at all otherwise; a frame of
    a component waiting for the network never calls it; whether a drag is
    in progress plays no part.  So the call is made on every frame from
    the graph build until convergence and once at convergence.  The
    converging frame leaves the running flag cleared and the engine
    stopped, and from such a state no frame and no other handler calls
    [scaleToFit] until the engine is reheated or a graph is built
    again. *)
Theorem scaleToFit_calls_per_frame getIntersection f c fg es :
  Component.forceGraph c = Some fg ->
  completion (tick f c) = Normal tt
  /\ invocations "scaleToFit" (effects (tick f c))
     = (if networkPending c then 0
        else if convergesNow f c || Component.running c then 1 else 0)%nat
  /\ Component.running (after (tick f c))
     = (if networkPending c then Component.running c
        else if convergesNow f c then false else Component.running c)
  /\ (networkPending c = false -> convergesNow f c = true ->
      atRest (after (tick f c)))
  /\ (forall c0,
        atRest c0 -> calm es = true ->
        invocations "scaleToFit" (snd (run getIntersection c0 es)) = 0%nat
        /\ atRest (fst (run getIntersection c0 es))).
Proof.
  intros Hfg.
  assert (Hframe :
            completion (tick f c) = Normal tt
            /\ invocations "scaleToFit" (effects (tick f c))
               = (if networkPending c then 0
                  else if convergesNow f c || Component.running c
                       then 1 else 0)%nat
            /\ Component.running (after (tick f c))
               = (if networkPending c then Component.running c
                  else if convergesNow f c then false
                       else Component.running c)).
  { destruct (networkPending c) eqn:Hnp.
    - rewrite (tick_pending_run f c Hnp).
      cbn [completion after effects fst snd].
      rewrite hoverPolls_quiet. repeat split.
    - destruct (tick_runs f c fg Hfg Hnp) as (c' & l & Hrun & _ & Hflag & Hn).
      rewrite Hrun. cbn [completion after effects fst snd].
      repeat split; assumption. }
  destruct Hframe as (H1 & H2 & H3).
  split; [exact H1|]. split; [exact H2|]. split; [exact H3|]. split.
  - exact (converged_atRest f c fg Hfg).
  - intros c0 Hc0 Hes. exact (calm_run getIntersection es c0 Hes Hc0).
Qed.

Lemma scaleToFit_calls_per_frame_witness :
  invocations "scaleToFit" (effects (tick stoppingFrame dragged)) = 1%nat
  /\ Component.running (after (tick stoppingFrame dragged)) = false
  /\ invocations "scaleToFit"
       (snd (run noHit converged
               [Tick movingFrame; DragStart true; Tick stoppingFrame;
                DragEnd; Update Data.default allChanged;
                Tick movingFrame]))
     = 0%nat.
Proof.
  pose (H := scaleToFit_calls_per_frame noHit stoppingFrame dragged _
               [Tick movingFrame; DragStart true; Tick stoppingFrame;
                DragEnd; Update Data.default allChanged;
                Tick movingFrame] eq_refl).
  split; [exact (proj1 (proj2 H))|]. split; [exact (proj1 (proj2 (proj2 H)))|].
  exact (proj1 (proj2 (proj2 (proj2 (proj2 H))) converged
                  (conj eq_refl eq_refl) eq_refl)).
Defined.
